(** * rigify / leg_quadruped_generic

    A shallow embedding of [release/scripts/modules/rigify/leg_quadruped_generic.py]:
    the metarig validation ([metarig_definition]) and the generator of the
    IK leg-and-foot chain ([ik], [main]).

    The module is a callback of the rig generator: everything it does is a
    read or a write of host objects (the armature's bones, edit bones, pose
    bones and their constraint stacks) through host handles.  The host is
    modelled as an explicit state ([Scene]) threaded through a state-and-
    exception monad ([M]); float and vector arithmetic and the naming of
    bones, which the host implements natively, are interfaces ([Mathutils],
    [BoneGeometry], [BoneNames]). *)

From Stdlib Require Import String Ascii List ZArith Bool Arith Lia.
From Stdlib Require DecimalNat DecimalString.
Import ListNotations.
Local Open Scope string_scope.
Local Open Scope list_scope.

Set Implicit Arguments.

(** ** Host arithmetic *)

(** The floats, vectors and matrices of the host.  The module never looks
    inside them: it only calls these operations. *)
Class Mathutils := {
  scalar : Type;                               (* a Python float *)
  Vec : Type;                                  (* Mathutils.Vector *)
  Matrix : Type;                               (* Mathutils.Matrix *)
  float_of_Z : Z -> scalar;                    (* the literals 2.0, -1.0, -90.0, ... *)
  fdiv : scalar -> scalar -> scalar;           (* x / y *)
  Vector : scalar -> scalar -> scalar -> Vec;  (* Vector(x, y, z) *)
  vsub : Vec -> Vec -> Vec;                    (* a - b *)
  vneg : Vec -> Vec;                           (* - a *)
  vscale : Vec -> scalar -> Vec;               (* a * x *)
  vnormalize : Vec -> Vec;                     (* a.normalize() *)
  mat_vec : Matrix -> Vec -> Vec               (* m * a *)
}.

(** ** Host objects *)

Inductive Mode := OBJECT | EDIT | POSE.

Inductive Exn :=
| KeyError (key : string)
| IndexError
| ValueError
| AttributeError
| TypeError
| RuntimeError (msg : string)
| Exception (msg : string)
| RigifyError (msg : string).

Inductive ConType := COPY_ROTATION | IK.

Inductive Event :=
| EvModeSet (m : Mode)
| EvConstraintNew (t : ConType).

Definition Obj := string.

(** What a host call gives: a value, or a Python exception. *)
Inductive Result (A : Type) :=
| Ok (a : A)
| Raise (e : Exn).

Arguments Raise {A} e.

(** ** Host names *)

(** Modelled from the spec: the naming of bones belongs to the host, whose
    code is not under src/.  The host keeps the names of the bones of an
    armature different: asked for a name while the names [taken] are in use,
    it gives [unique_name taken name], a name that is not in use, which the
    caller reads back from the bone. *)
Class BoneNames := {
  unique_name : list string -> string -> string;
  unique_name_fresh : forall taken name, ~ In (unique_name taken name) taken
}.

(** Modelled from the spec: a host, not under src/, that gives a name as it
    is asked whenever the name is not in use. *)
Class GrantsFreeNames {BN : BoneNames} := {
  unique_name_free :
    forall taken name, ~ In name taken -> unique_name taken name = name
}.

Section Host.

Context {MU : Mathutils}.

(** What a bone is in space: [head], [tail] and [roll]. *)
Record Geom := mkGeom {
  head : Vec;
  tail : Vec;
  roll : scalar
}.

(** A bone of the armature.  A bone is referred to by a handle, its position
    in the armature's bone collection; [eb_parent] is such a handle. *)
Record EditBone := mkEditBone {
  eb_name : string;
  eb_geom : Geom;
  eb_parent : option nat;
  eb_connected : bool;
  eb_layer : list bool
}.

(** The properties of a constraint that [ik] assigns. *)
Record ConProps := mkConProps {
  target : option Obj;
  subtarget : string;
  pole_target : option Obj;
  pole_subtarget : string;
  chain_length : Z;
  iterations : Z;
  pole_angle : scalar;
  use_tail : bool;
  use_stretch : bool;
  use_target : bool;
  use_rotation : bool;
  weight : scalar
}.

Record Constraint := mkConstraint {
  con_type : ConType;
  con_props : ConProps
}.

(** The geometric methods and properties of an edit bone and the host's
    defaults.  They are defined by the host (bpy_types, the armature RNA),
    not by this module, and act on the geometry of the bone they are called
    on. *)
Class BoneGeometry := {
  bone_vector : Geom -> Vec;                 (* bone.vector *)
  bone_length : Geom -> scalar;              (* bone.length *)
  bone_rotation : Geom -> Matrix;            (* bone.matrix.rotationPart() *)
  translate : Vec -> Geom -> Geom;           (* bone.translate(vec) *)
  align_orientation : Geom -> Geom -> Geom;  (* bone.align_orientation(other) *)
  align_roll : Vec -> Geom -> Geom;          (* bone.align_roll(vec) *)
  set_length : scalar -> Geom -> Geom;       (* bone.length = x *)
  new_bone_geom : Geom;                      (* of edit_bones.new(name) *)
  new_bone_layer : list bool;
  pole_geom : Geom -> Geom -> Geom;          (* placement of a pole target *)
  new_con_props : ConType -> ConProps        (* of constraints.new(type) *)
}.

Context {BG : BoneGeometry}.

Context {BN : BoneNames}.

(** The state of the host that the module can see: the mode of the rig
    object, the bones of its armature, the constraint stack of each pose
    bone (pose bones go by the name of their bone), and the mode switches
    and constraint creations so far. *)
Record Scene := mkScene {
  mode : Mode;
  bones : list EditBone;
  pose : string -> list Constraint;
  log : list Event
}.

(** ** The monad of host calls *)

Definition M (A : Type) : Type := Scene -> Result A * Scene.

Definition ret {A} (a : A) : M A := fun st => (Ok a, st).

Definition raise {A} (e : Exn) : M A := fun st => (Raise e, st).

Definition bind {A B} (m : M A) (f : A -> M B) : M B :=
  fun st =>
    match m st with
    | (Ok a, st') => f a st'
    | (Raise e, st') => (Raise e, st')
    end.

Notation "x <- m ;; k" := (bind m (fun x => k))
  (at level 61, m at next level, right associativity).
Notation "m ;;; k" := (bind m (fun _ => k))
  (at level 61, right associativity).

Definition gets {A} (f : Scene -> A) : M A := fun st => (Ok (f st), st).

Definition modify (f : Scene -> Scene) : M unit := fun st => (Ok tt, f st).

(** ** Collections *)

Fixpoint find_bone (name : string) (l : list EditBone) : option nat :=
  match l with
  | [] => None
  | b :: l' =>
      if String.eqb (eb_name b) name then Some 0
      else option_map S (find_bone name l')
  end.

Fixpoint update_nth {A} (i : nat) (f : A -> A) (l : list A) : list A :=
  match l, i with
  | [], _ => []
  | x :: l', 0 => f x :: l'
  | x :: l', S i' => x :: update_nth i' f l'
  end.

Fixpoint index_of (x : string) (l : list string) : option nat :=
  match l with
  | [] => None
  | y :: l' => if String.eqb y x then Some 0 else option_map S (index_of x l')
  end.

(** Modelled from the spec: the armature's bone collection belongs to the
    host, whose code is not under src/; the module reads it through
    host-provided handles.  [obj.data.bones[name]] is the bone of that name,
    a [KeyError] when there is none. *)
Definition bones_getitem (name : string) : M nat :=
  fun st =>
    match find_bone name (bones st) with
    | Some h => (Ok h, st)
    | None => (Raise (KeyError name), st)
    end.

(** Modelled from the spec: bones are host objects, not under src/, read
    through host-provided handles.  Reading an attribute of the bone behind
    a handle. *)
Definition bone_attr {A} (f : EditBone -> A) (h : nat) : M A :=
  fun st =>
    match nth_error (bones st) h with
    | Some b => (Ok (f b), st)
    | None => (Raise (RuntimeError "invalid bone reference"), st)
    end.

(** Modelled from the spec: [bone.children] is a property of the host's
    bones, not under src/: the bones whose parent is [bone], in armature
    order. *)
Definition children_of (l : list EditBone) (h : nat) : list nat :=
  filter (fun i =>
            match nth_error l i with
            | Some b => match eb_parent b with
                        | Some p => Nat.eqb p h
                        | None => false
                        end
            | None => false
            end)
         (seq 0 (length l)).

Definition bone_children (h : nat) : M (list nat) :=
  gets (fun st => children_of (bones st) h).

(** ** metarig_definition *)

Definition METARIG_NAMES : list string := ["hips"; "thigh"; "shin"; "foot"; "toe"].

(** The loop [while chain < 3] of [metarig_definition]; [remaining] is
    [3 - chain]. *)
Fixpoint walk_chain (remaining : nat) (bone : nat) (bone_definition : list string)
  : M (list string) :=
  match remaining with
  | 0 => ret bone_definition
  | S remaining' =>
      children <- bone_children bone ;;
      if negb (Nat.eqb (length children) 1) then
        raise (RigifyError "expected the thigh bone to have 3 children without a fork")
      else
        match children with
        | [] => raise IndexError
        | child :: _ =>
            name <- bone_attr eb_name child ;;
            walk_chain remaining' child (bone_definition ++ [name])
        end
  end.

(** [metarig_definition] up to the end of its loop: the list it has
    accumulated. *)
Definition metarig_collect (orig_bone_name : string) : M (list string) :=
  let bone_definition := [] in
  orig_bone <- bones_getitem orig_bone_name ;;
  orig_bone_parent <- bone_attr eb_parent orig_bone ;;
  match orig_bone_parent with
  | None => raise (RigifyError "expected the thigh bone to have a parent hip bone")
  | Some parent =>
      parent_name <- bone_attr eb_name parent ;;
      let bone_definition := bone_definition ++ [parent_name] in
      orig_name <- bone_attr eb_name orig_bone ;;
      let bone_definition := bone_definition ++ [orig_name] in
      walk_chain 3 orig_bone bone_definition
  end.

Definition metarig_definition (obj : Obj) (orig_bone_name : string) : M (list string) :=
  bone_definition <- metarig_collect orig_bone_name ;;
  if negb (Nat.eqb (length bone_definition) (length METARIG_NAMES)) then
    raise (RigifyError "internal problem, expected 5 bones")
  else
    ret bone_definition.

(** ** Host calls used by [ik] *)

(** Modelled from the spec: [bpy.ops.object.mode_set(mode=m)] is an operator
    of the host, not under src/, a mode switch of the host's edit/pose-mode
    state machine.  It sets the mode of the rig object; the switch is
    recorded. *)
Definition mode_set (m : Mode) : M unit :=
  modify (fun st => mkScene m (bones st) (pose st) (log st ++ [EvModeSet m])).

(** Modelled from the spec: [arm.edit_bones] is the host's collection of
    edit bones, not under src/.  By the edit-bone/pose-bone duality of the
    host the edit bones exist in edit mode only. *)
Definition edit_bones (st : Scene) : list EditBone :=
  match mode st with
  | EDIT => bones st
  | _ => []
  end.

(** Modelled from the spec: [arm.edit_bones[name]], of the host and not
    under src/: the edit bone of that name, a [KeyError] when there is
    none. *)
Definition edit_bones_getitem (name : string) : M nat :=
  fun st =>
    match find_bone name (edit_bones st) with
    | Some h => (Ok h, st)
    | None => (Raise (KeyError name), st)
    end.

(** Modelled from the spec: [arm.edit_bones.get(name)], of the host and not
    under src/: the edit bone of that name, or [None]. *)
Definition edit_bones_get (name : string) : M (option nat) :=
  gets (fun st => find_bone name (edit_bones st)).

(** Modelled from the spec: [obj.pose.bones.get(name)], of the host and not
    under src/.  A pose bone goes by the name of its bone. *)
Definition pose_bones_get (name : string) : M (option string) :=
  gets (fun st =>
          match find_bone name (bones st) with
          | Some _ => Some name
          | None => None
          end).

(** Modelled from the spec: [arm.edit_bones.new(name)] is the host's bone
    creation call, not under src/.  The new bone comes last in the armature,
    without parent, with the host's default geometry and the name the host
    gives when asked for [name] among the names of the armature; outside
    edit mode the host refuses. *)
Definition edit_bones_new (name : string) : M nat :=
  fun st =>
    match mode st with
    | EDIT =>
        (Ok (length (bones st)),
         mkScene (mode st)
                 (bones st ++ [mkEditBone (unique_name (map eb_name (bones st)) name)
                                          new_bone_geom None false new_bone_layer])
                 (pose st) (log st))
    | _ => (Raise (RuntimeError "armature not in editmode, cant add an editbone"), st)
    end.

(** A variable that holds a bone or [None]: using it as a bone. *)
Definition deref {A} (o : option A) : M A :=
  match o with
  | Some a => ret a
  | None => raise AttributeError
  end.

(** A variable that holds a string or [None]: using it as a string. *)
Definition as_str (o : option string) : M string :=
  match o with
  | Some s => ret s
  | None => raise TypeError
  end.

(** Modelled from the spec: edit bones are host objects, not under src/,
    read and mutated through host-provided handles.  Reading an attribute of
    an edit bone held in a variable. *)
Definition ebone_get {A} (f : EditBone -> A) (e : option nat) : M A :=
  h <- deref e ;;
  bone_attr f h.

(** Modelled from the spec: edit bones are host objects, not under src/,
    read and mutated through host-provided handles.  Assigning an attribute
    of an edit bone held in a variable writes that attribute of that
    bone. *)
Definition ebone_set (f : EditBone -> EditBone) (e : option nat) : M unit :=
  h <- deref e ;;
  _ <- bone_attr eb_name h ;;
  modify (fun st => mkScene (mode st) (update_nth h f (bones st)) (pose st) (log st)).

Definition set_name (v : string) (b : EditBone) : EditBone :=
  mkEditBone v (eb_geom b) (eb_parent b) (eb_connected b) (eb_layer b).

(** Modelled from the spec: assigning [bone.name] of an edit bone, a host
    object not under src/.  A bone that has the name already keeps it; any
    other bone gets the name the host gives when asked for it among the
    names of the armature. *)
Definition ebone_set_name (v : string) (e : option nat) : M unit :=
  h <- deref e ;;
  current <- bone_attr eb_name h ;;
  if String.eqb current v then ret tt
  else
    modify (fun st =>
              mkScene (mode st)
                      (update_nth h (set_name (unique_name (map eb_name (bones st)) v))
                                  (bones st))
                      (pose st) (log st)).

Definition set_geom (v : Geom) (b : EditBone) : EditBone :=
  mkEditBone (eb_name b) v (eb_parent b) (eb_connected b) (eb_layer b).

Definition set_parent (v : option nat) (b : EditBone) : EditBone :=
  mkEditBone (eb_name b) (eb_geom b) v (eb_connected b) (eb_layer b).

Definition set_connected (v : bool) (b : EditBone) : EditBone :=
  mkEditBone (eb_name b) (eb_geom b) (eb_parent b) v (eb_layer b).

Definition set_layer (v : list bool) (b : EditBone) : EditBone :=
  mkEditBone (eb_name b) (eb_geom b) (eb_parent b) (eb_connected b) v.

Definition on_geom (f : Geom -> Geom) (b : EditBone) : EditBone :=
  set_geom (f (eb_geom b)) b.

Definition set_head (v : Vec) (g : Geom) : Geom := mkGeom v (tail g) (roll g).

Definition set_tail (v : Vec) (g : Geom) : Geom := mkGeom (head g) v (roll g).

Definition set_roll (v : scalar) (g : Geom) : Geom := mkGeom (head g) (tail g) v.

(** The constraint stacks of the pose bones with the stack of the pose bone
    [pb] changed by [f]. *)
Definition pose_update (pb : string) (f : list Constraint -> list Constraint)
  (p : string -> list Constraint) : string -> list Constraint :=
  fun n => if String.eqb n pb then f (p n) else p n.

(** Modelled from the spec: [pbone.constraints.new(type)] is the host's
    constraint creation call on the constraint stack of a pose bone, not
    under src/: a new constraint with the host's
    defaults at the end of the stack of the pose bone; the result refers to
    it by pose bone and position. *)
Definition constraints_new (p : option string) (t : ConType) : M (string * nat) :=
  pb <- deref p ;;
  fun st =>
    (Ok (pb, length (pose st pb)),
     mkScene (mode st) (bones st)
             (pose_update pb (fun stack => stack ++ [mkConstraint t (new_con_props t)])
                          (pose st))
             (log st ++ [EvConstraintNew t])).

(** Modelled from the spec: constraints are host objects, not under src/.
    Assigning a property of a constraint writes that property of that
    constraint. *)
Definition con_set (f : ConProps -> ConProps) (con : string * nat) : M unit :=
  modify (fun st =>
            mkScene (mode st) (bones st)
                    (pose_update (fst con)
                       (update_nth (snd con)
                          (fun c => mkConstraint (con_type c) (f (con_props c))))
                       (pose st))
                    (log st)).

Definition set_target (v : option Obj) (c : ConProps) : ConProps :=
  mkConProps v (subtarget c) (pole_target c) (pole_subtarget c) (chain_length c)
    (iterations c) (pole_angle c) (use_tail c) (use_stretch c) (use_target c)
    (use_rotation c) (weight c).

Definition set_subtarget (v : string) (c : ConProps) : ConProps :=
  mkConProps (target c) v (pole_target c) (pole_subtarget c) (chain_length c)
    (iterations c) (pole_angle c) (use_tail c) (use_stretch c) (use_target c)
    (use_rotation c) (weight c).

Definition set_pole_target (v : option Obj) (c : ConProps) : ConProps :=
  mkConProps (target c) (subtarget c) v (pole_subtarget c) (chain_length c)
    (iterations c) (pole_angle c) (use_tail c) (use_stretch c) (use_target c)
    (use_rotation c) (weight c).

Definition set_pole_subtarget (v : string) (c : ConProps) : ConProps :=
  mkConProps (target c) (subtarget c) (pole_target c) v (chain_length c)
    (iterations c) (pole_angle c) (use_tail c) (use_stretch c) (use_target c)
    (use_rotation c) (weight c).

Definition set_chain_length (v : Z) (c : ConProps) : ConProps :=
  mkConProps (target c) (subtarget c) (pole_target c) (pole_subtarget c) v
    (iterations c) (pole_angle c) (use_tail c) (use_stretch c) (use_target c)
    (use_rotation c) (weight c).

Definition set_iterations (v : Z) (c : ConProps) : ConProps :=
  mkConProps (target c) (subtarget c) (pole_target c) (pole_subtarget c) (chain_length c)
    v (pole_angle c) (use_tail c) (use_stretch c) (use_target c)
    (use_rotation c) (weight c).

Definition set_pole_angle (v : scalar) (c : ConProps) : ConProps :=
  mkConProps (target c) (subtarget c) (pole_target c) (pole_subtarget c) (chain_length c)
    (iterations c) v (use_tail c) (use_stretch c) (use_target c)
    (use_rotation c) (weight c).

Definition set_use_tail (v : bool) (c : ConProps) : ConProps :=
  mkConProps (target c) (subtarget c) (pole_target c) (pole_subtarget c) (chain_length c)
    (iterations c) (pole_angle c) v (use_stretch c) (use_target c)
    (use_rotation c) (weight c).

Definition set_use_stretch (v : bool) (c : ConProps) : ConProps :=
  mkConProps (target c) (subtarget c) (pole_target c) (pole_subtarget c) (chain_length c)
    (iterations c) (pole_angle c) (use_tail c) v (use_target c)
    (use_rotation c) (weight c).

Definition set_use_target (v : bool) (c : ConProps) : ConProps :=
  mkConProps (target c) (subtarget c) (pole_target c) (pole_subtarget c) (chain_length c)
    (iterations c) (pole_angle c) (use_tail c) (use_stretch c) v
    (use_rotation c) (weight c).

Definition set_use_rotation (v : bool) (c : ConProps) : ConProps :=
  mkConProps (target c) (subtarget c) (pole_target c) (pole_subtarget c) (chain_length c)
    (iterations c) (pole_angle c) (use_tail c) (use_stretch c) (use_target c)
    v (weight c).

Definition set_weight (v : scalar) (c : ConProps) : ConProps :=
  mkConProps (target c) (subtarget c) (pole_target c) (pole_subtarget c) (chain_length c)
    (iterations c) (pole_angle c) (use_tail c) (use_stretch c) (use_target c)
    (use_rotation c) v.

(** [base_names[key]] *)
Definition dict_getitem (d : list (string * string)) (key : option string) : M string :=
  k <- as_str key ;;
  match find (fun kv => String.eqb (fst kv) k) d with
  | Some kv => ret (snd kv)
  | None => raise (KeyError k)
  end.

(** ** rigify_utils: bone containers *)

(** Modelled from the spec: [rigify_utils.bone_class_instance] is not under
    src/; it keeps, for the host's edit-bone/pose-bone duality, the handles
    of a group of bones across mode switches.  One attribute group of a
    [bone_class_instance]: for the attribute
    [thigh], the name [thigh], the edit bone [thigh_e] and the pose bone
    [thigh_p]. *)
Record Slot := mkSlot {
  slot_name : option string;
  slot_e : option nat;
  slot_p : option string
}.

Definition Container := list (string * Slot).

Definition empty_slot : Slot := mkSlot None None None.

Fixpoint slot_of (c : Container) (attr : string) : Slot :=
  match c with
  | [] => empty_slot
  | (a, s) :: c' => if String.eqb a attr then s else slot_of c' attr
  end.

Fixpoint set_slot (attr : string) (f : Slot -> Slot) (c : Container) : Container :=
  match c with
  | [] => []
  | (a, s) :: c' =>
      if String.eqb a attr then (a, f s) :: c' else (a, s) :: set_slot attr f c'
  end.

(** [c.attr], [c.attr_e], [c.attr_p] *)
Definition c_name (c : Container) (attr : string) : option string := slot_name (slot_of c attr).

Definition c_e (c : Container) (attr : string) : option nat := slot_e (slot_of c attr).

Definition c_p (c : Container) (attr : string) : option string := slot_p (slot_of c attr).

(** [c.attr = v], [c.attr_e = v] *)
Definition setattr_name (attr : string) (v : option string) (c : Container) : Container :=
  set_slot attr (fun s => mkSlot v (slot_e s) (slot_p s)) c.

Definition setattr_e (attr : string) (v : option nat) (c : Container) : Container :=
  set_slot attr (fun s => mkSlot (slot_name s) v (slot_p s)) c.

Fixpoint has_duplicates (l : list string) : bool :=
  match l with
  | [] => false
  | x :: l' => existsb (String.eqb x) l' || has_duplicates l'
  end.

(** Modelled from the spec: [rigify_utils.bone_class_instance(obj, slots)],
    not under src/: a container with the given attributes, all unset. *)
Definition bone_class_instance (obj : Obj) (slots : list string) : M Container :=
  if has_duplicates slots then raise (Exception "duplicate entries found")
  else ret (map (fun a => (a, empty_slot)) slots).

(** Modelled from the spec: the method [update] of a [bone_class_instance],
    not under src/: after a mode switch of the host the edit bone and pose
    bone of every named attribute are fetched again by name. *)
Fixpoint update (c : Container) : M Container :=
  match c with
  | [] => ret []
  | (a, s) :: c' =>
      s' <- match slot_name s with
            | None => ret s
            | Some name =>
                p <- pose_bones_get name ;;
                e <- edit_bones_get name ;;
                ret (mkSlot (Some name) e p)
            end ;;
      c'' <- update c' ;;
      ret ((a, s') :: c'')
  end.

Fixpoint attr_initialize_names (attrs attr_names bone_names : list string) (c : Container)
  : M Container :=
  match attrs with
  | [] => ret c
  | attr :: attrs' =>
      match index_of attr attr_names with
      | None => raise ValueError
      | Some i =>
          match nth_error bone_names i with
          | None => raise IndexError
          | Some name =>
              attr_initialize_names attrs' attr_names bone_names
                (setattr_name attr (Some name) c)
          end
      end
  end.

(** Modelled from the spec: the method [attr_initialize] of a
    [bone_class_instance], not under src/: every attribute gets the name
    that [bone_names] has at the position of the attribute in [attr_names],
    then the bones are fetched. *)
Definition attr_initialize (c : Container) (attr_names bone_names : list string) : M Container :=
  c' <- attr_initialize_names (map fst c) attr_names bone_names c ;;
  update c'.

(** Modelled from the spec: the method [rename] of a [bone_class_instance],
    not under src/: in edit mode, the edit bone of the attribute is renamed
    and the attribute takes the name the bone then has. *)
Definition rename (c : Container) (attr : string) (new_name : string) : M Container :=
  m <- gets mode ;;
  match m with
  | EDIT =>
      ebone_set_name new_name (c_e c attr) ;;;
      name <- ebone_get eb_name (c_e c attr) ;;
      ret (setattr_name attr (Some name) c)
  | _ => raise (Exception "Only rename in editmode supported")
  end.

(** ** rigify_utils: bone creation *)

(** Modelled from the spec: [rigify_utils.copy_bone_simple(arm, from_bone,
    name, parent)], not under src/, a bone creation call: a new bone with
    the head, tail, roll and layers of [from_bone] and, when [parent] is
    set, its parent and connection. *)
Definition copy_bone_simple (from_bone : option string) (name : string) (parent : bool) : M nat :=
  from_name <- as_str from_bone ;;
  ebone <- edit_bones_getitem from_name ;;
  ebone_new <- edit_bones_new name ;;
  (if parent then
     v <- bone_attr eb_connected ebone ;;
     ebone_set (set_connected v) (Some ebone_new) ;;;
     v <- bone_attr eb_parent ebone ;;
     ebone_set (set_parent v) (Some ebone_new)
   else ret tt) ;;;
  g <- bone_attr eb_geom ebone ;;
  ebone_set (on_geom (set_head (head g))) (Some ebone_new) ;;;
  ebone_set (on_geom (set_tail (tail g))) (Some ebone_new) ;;;
  ebone_set (on_geom (set_roll (roll g))) (Some ebone_new) ;;;
  v <- bone_attr eb_layer ebone ;;
  ebone_set (set_layer v) (Some ebone_new) ;;;
  ret ebone_new.

Fixpoint copy_each (from_bones to_bones : list string) : M (list nat) :=
  match from_bones, to_bones with
  | f :: from_bones', t :: to_bones' =>
      h <- copy_bone_simple (Some f) t true ;;
      hs <- copy_each from_bones' to_bones' ;;
      ret (h :: hs)
  | _, _ => ret []
  end.

Fixpoint reparent_each (from_bones : list string) (copy_bones todo : list nat) : M unit :=
  match todo with
  | [] => ret tt
  | ebone :: todo' =>
      parent <- bone_attr eb_parent ebone ;;
      i <- match parent with
           | None => ret None
           | Some ph =>
               st_name <- gets (fun st => option_map eb_name (nth_error (bones st) ph)) ;;
               match st_name with
               | None => ret None
               | Some pname => ret (index_of pname from_bones)
               end
           end ;;
      match i with
      | None => ebone_set (set_parent None) (Some ebone)
      | Some i' => ebone_set (set_parent (nth_error copy_bones i')) (Some ebone)
      end ;;;
      reparent_each from_bones copy_bones todo'
  end.

(** Modelled from the spec: [rigify_utils.copy_bone_simple_list(arm,
    from_bones, to_bones, True)], not under src/: the bones are copied one
    by one, then a copy whose original's parent is among the originals gets
    the copy of that parent as parent, and any other copy none. *)
Definition copy_bone_simple_list (from_bones to_bones : list string) : M (list nat) :=
  if negb (Nat.eqb (length from_bones) (length to_bones)) then
    raise (Exception "bone list sizes must match")
  else
    copy_bones <- copy_each from_bones to_bones ;;
    reparent_each from_bones copy_bones copy_bones ;;;
    ret copy_bones.

Fixpoint copy_names (c : Container) (attrs : list string) (base_names : list (string * string))
  : M (list string * list string) :=
  match attrs with
  | [] => ret ([], [])
  | attr :: attrs' =>
      bone_name <- as_str (c_name c attr) ;;
      new_name <- match base_names with
                  | [] => ret bone_name
                  | _ => dict_getitem base_names (Some bone_name)
                  end ;;
      rest <- copy_names c attrs' base_names ;;
      ret (bone_name :: fst rest, new_name :: snd rest)
  end.

Fixpoint fill_copy (attrs : list string) (new_bones : list nat) (c : Container) : M Container :=
  match attrs, new_bones with
  | attr :: attrs', ebone :: new_bones' =>
      name <- bone_attr eb_name ebone ;;
      fill_copy attrs' new_bones' (setattr_name attr (Some name) (setattr_e attr (Some ebone) c))
  | [], _ => ret c
  | _ :: _, [] => raise IndexError
  end.

(** Modelled from the spec: the method [copy] of a [bone_class_instance],
    not under src/, as [ik] calls it ([to_fmt] is "%s", nothing excluded):
    the bones of the container are copied under their base names into a new
    container. *)
Definition copy (obj : Obj) (c : Container) (base_names : list (string * string)) : M Container :=
  names <- copy_names c (map fst c) base_names ;;
  new_bones <- copy_bone_simple_list (fst names) (snd names) ;;
  new_bc <- bone_class_instance obj (map fst c) ;;
  fill_copy (map fst c) new_bones new_bc.

(** Modelled from the spec: [rigify_utils.add_pole_target_bone(obj,
    base_bone_name, name)], not under src/, a bone creation call: in edit
    mode, a new bone placed from the base bone and its parent (the placement
    is the host's, [pole_geom]); the mode is put back; the result is the name
    of the new bone. *)
Definition add_pole_target_bone (obj : Obj) (base_bone_name : option string) (name : string)
  : M string :=
  mode_orig <- gets mode ;;
  mode_set EDIT ;;;
  poll_ebone <- edit_bones_new name ;;
  base_name <- as_str base_bone_name ;;
  base_ebone <- edit_bones_getitem base_name ;;
  poll_name <- bone_attr eb_name poll_ebone ;;
  parent_ebone <- bone_attr eb_parent base_ebone ;;
  base_g <- bone_attr eb_geom base_ebone ;;
  parent_g <- ebone_get eb_geom parent_ebone ;;
  ebone_set (on_geom (set_head (head (pole_geom base_g parent_g)))) (Some poll_ebone) ;;;
  ebone_set (on_geom (set_tail (tail (pole_geom base_g parent_g)))) (Some poll_ebone) ;;;
  mode_set mode_orig ;;;
  ret poll_name.

(** ** ik *)

Variable Options : Type.

Definition ik (obj : Obj) (bone_definition : list string)
  (base_names : list (string * string)) (options : Options)
  : M (list (option string)) :=
  (* setup the existing bones, use names from METARIG_NAMES *)
  mt <- bone_class_instance obj ["hips"] ;;
  mt_chain <- bone_class_instance obj ["thigh"; "shin"; "foot"; "toe"] ;;
  mt <- attr_initialize mt METARIG_NAMES bone_definition ;;
  mt_chain <- attr_initialize mt_chain METARIG_NAMES bone_definition ;;
  ik_chain <- copy obj mt_chain base_names ;;
  ebone_set (set_connected false) (c_e ik_chain "thigh") ;;;
  ebone_set (set_parent (c_e mt "hips")) (c_e ik_chain "thigh") ;;;
  ebone_set (set_parent None) (c_e ik_chain "foot") ;;;
  foot <- as_str (c_name ik_chain "foot") ;;
  ik_chain <- rename ik_chain "foot" (foot ++ "_ik") ;;
  (* keep the foot_ik as the parent *)
  ebone_set (set_connected false) (c_e ik_chain "toe") ;;;
  (* must be after disconnecting the toe *)
  other <- ebone_get eb_geom (c_e mt_chain "toe") ;;
  ebone_set (on_geom (align_orientation other)) (c_e ik_chain "foot") ;;;
  (* children of ik_foot *)
  ik <- bone_class_instance obj
          ["foot"; "foot_roll"; "foot_roll_01"; "foot_roll_02"; "knee_target"; "foot_target"] ;;
  knee_target <- add_pole_target_bone obj (c_name mt_chain "shin") "knee_target" ;;
  let ik := setattr_name "knee_target" (Some knee_target) ik in
  ik <- update ik ;;
  ebone_set (set_parent (c_e mt "hips")) (c_e ik "knee_target") ;;;
  (* foot roll: a vector from the toe bone's head, backwards to the length
     of the foot, then aligned with the foot but in reverse direction *)
  base_foot <- dict_getitem base_names (c_name mt_chain "foot") ;;
  foot_roll_e <- copy_bone_simple (c_name mt_chain "toe") (base_foot ++ "_roll") false ;;
  let ik := setattr_e "foot_roll" (Some foot_roll_e) ik in
  name <- ebone_get eb_name (c_e ik "foot_roll") ;;
  let ik := setattr_name "foot_roll" (Some name) ik in
  ebone_set (set_parent (c_e ik_chain "foot")) (c_e ik "foot_roll") ;;;
  toe_g <- ebone_get eb_geom (c_e mt_chain "toe") ;;
  foot_g <- ebone_get eb_geom (c_e mt_chain "foot") ;;
  ebone_set (on_geom (translate
                        (vneg (vscale (vnormalize (bone_vector toe_g)) (bone_length foot_g)))))
            (c_e ik "foot_roll") ;;;
  other <- ebone_get eb_geom (c_e mt_chain "foot") ;;
  ebone_set (on_geom (align_orientation other)) (c_e ik "foot_roll") ;;;
  g <- ebone_get eb_geom (c_e ik "foot_roll") ;;
  ebone_set (on_geom (set_tail (vsub (head g) (bone_vector g)))) (c_e ik "foot_roll") ;;;  (* flip *)
  foot_g <- ebone_get eb_geom (c_e mt_chain "foot") ;;
  ebone_set (on_geom (align_roll
                        (mat_vec (bone_rotation foot_g)
                                 (Vector (float_of_Z 0) (float_of_Z 0) (float_of_Z (-1))))))
            (c_e ik "foot_roll") ;;;
  (* MCH-foot *)
  base_foot <- dict_getitem base_names (c_name mt_chain "foot") ;;
  foot_roll_01_e <- copy_bone_simple (c_name mt_chain "foot") ("MCH-" ++ base_foot) false ;;
  let ik := setattr_e "foot_roll_01" (Some foot_roll_01_e) ik in
  name <- ebone_get eb_name (c_e ik "foot_roll_01") ;;
  let ik := setattr_name "foot_roll_01" (Some name) ik in
  ebone_set (set_parent (c_e ik_chain "foot")) (c_e ik "foot_roll_01") ;;;
  foot_g <- ebone_get eb_geom (c_e mt_chain "foot") ;;
  ebone_set (on_geom (set_head (tail foot_g))) (c_e ik "foot_roll_01") ;;;
  ebone_set (on_geom (set_tail (head foot_g))) (c_e ik "foot_roll_01") ;;;
  g <- ebone_get eb_geom (c_e ik "foot_roll") ;;
  ebone_set (on_geom (set_roll (roll g))) (c_e ik "foot_roll_01") ;;;
  (* ik_target, child of MCH-foot *)
  base_foot <- dict_getitem base_names (c_name mt_chain "foot") ;;
  foot_target_e <- copy_bone_simple (c_name mt_chain "foot") (base_foot ++ "_ik_target") false ;;
  let ik := setattr_e "foot_target" (Some foot_target_e) ik in
  name <- ebone_get eb_name (c_e ik "foot_target") ;;
  let ik := setattr_name "foot_target" (Some name) ik in
  ebone_set (set_parent (c_e ik "foot_roll_01")) (c_e ik "foot_target") ;;;
  other <- ebone_get eb_geom (c_e ik_chain "foot") ;;
  ebone_set (on_geom (align_orientation other)) (c_e ik "foot_target") ;;;
  g <- ebone_get eb_geom (c_e ik_chain "foot") ;;
  ebone_set (on_geom (set_length (fdiv (bone_length g) (float_of_Z 2)))) (c_e ik "foot_target") ;;;
  ebone_set (set_connected true) (c_e ik "foot_target") ;;;
  (* MCH-foot.02 child of MCH-foot *)
  base_foot <- dict_getitem base_names (c_name mt_chain "foot") ;;
  foot_roll_02_e <- copy_bone_simple (c_name mt_chain "foot") ("MCH-" ++ base_foot ++ "_02") false ;;
  let ik := setattr_e "foot_roll_02" (Some foot_roll_02_e) ik in
  name <- ebone_get eb_name (c_e ik "foot_roll_02") ;;
  let ik := setattr_name "foot_roll_02" (Some name) ik in
  ebone_set (set_parent (c_e ik "foot_roll_01")) (c_e ik "foot_roll_02") ;;;

  mode_set OBJECT ;;;

  mt <- update mt ;;
  mt_chain <- update mt_chain ;;
  ik <- update ik ;;
  ik_chain <- update ik_chain ;;

  (* simple constraining of orig bones *)
  con <- constraints_new (c_p mt_chain "thigh") COPY_ROTATION ;;
  con_set (set_target (Some obj)) con ;;;
  v <- as_str (c_name ik_chain "thigh") ;;
  con_set (set_subtarget v) con ;;;

  con <- constraints_new (c_p mt_chain "shin") COPY_ROTATION ;;
  con_set (set_target (Some obj)) con ;;;
  v <- as_str (c_name ik_chain "shin") ;;
  con_set (set_subtarget v) con ;;;

  con <- constraints_new (c_p mt_chain "foot") COPY_ROTATION ;;
  con_set (set_target (Some obj)) con ;;;
  v <- as_str (c_name ik "foot_roll_02") ;;
  con_set (set_subtarget v) con ;;;

  con <- constraints_new (c_p mt_chain "toe") COPY_ROTATION ;;
  con_set (set_target (Some obj)) con ;;;
  v <- as_str (c_name ik_chain "toe") ;;
  con_set (set_subtarget v) con ;;;

  (* others... *)
  con <- constraints_new (c_p ik "foot_roll_01") COPY_ROTATION ;;
  con_set (set_target (Some obj)) con ;;;
  v <- as_str (c_name ik "foot_roll") ;;
  con_set (set_subtarget v) con ;;;

  (* IK *)
  con <- constraints_new (c_p ik_chain "shin") IK ;;
  con_set (set_chain_length 2) con ;;;
  con_set (set_iterations 500) con ;;;
  con_set (set_pole_angle (float_of_Z (-90))) con ;;;
  con_set (set_use_tail true) con ;;;
  con_set (set_use_stretch true) con ;;;
  con_set (set_use_target true) con ;;;
  con_set (set_use_rotation false) con ;;;
  con_set (set_weight (float_of_Z 1)) con ;;;

  con_set (set_target (Some obj)) con ;;;
  v <- as_str (c_name ik "foot_target") ;;
  con_set (set_subtarget v) con ;;;

  con_set (set_pole_target (Some obj)) con ;;;
  v <- as_str (c_name ik "knee_target") ;;
  con_set (set_pole_subtarget v) con ;;;

  mode_set EDIT ;;;

  ret [None; c_name ik_chain "thigh"; c_name ik_chain "shin";
       c_name ik_chain "foot"; c_name ik_chain "toe"].

Definition main (obj : Obj) (bone_definition : list string)
  (base_names : list (string * string)) (options : Options)
  : M (list (option string)) :=
  bones_ik <- ik obj bone_definition base_names options ;;
  ret bones_ik.

(** ** metarig_template *)

(** The float that a decimal literal of the source denotes, by the text of
    the literal. *)
Variable float_literal : string -> scalar.

(** Modelled from the spec: [obj.pose.bones[name]], of the host and not
    under src/: the pose bone of that name, a [KeyError] when there is
    none. *)
Definition pose_bones_getitem (name : string) : M string :=
  p <- pose_bones_get name ;;
  match p with
  | Some pb => ret pb
  | None => raise (KeyError name)
  end.

(** [metarig_template] up to [pbone = obj.pose.bones['thigh']]: the bones
    of the template are created in edit mode, then the rig is put in object
    mode; the result is the pose bone of the thigh. *)
Definition metarig_template_bones : M string :=
  (* generated by rigify.write_meta_rig *)
  mode_set EDIT ;;;
  bone <- edit_bones_new "body" ;;
  ebone_set (on_geom (set_head (Vector (float_literal "-0.0728") (float_literal "-0.2427")
                                       (float_literal "0.0000")))) (Some bone) ;;;
  ebone_set (on_geom (set_tail (Vector (float_literal "-0.0728") (float_literal "-0.2427")
                                       (float_literal "0.2427")))) (Some bone) ;;;
  ebone_set (on_geom (set_roll (float_literal "0.0000"))) (Some bone) ;;;
  ebone_set (set_connected false) (Some bone) ;;;
  bone <- edit_bones_new "thigh" ;;
  ebone_set (on_geom (set_head (Vector (float_literal "0.0000") (float_literal "0.0000")
                                       (float_literal "-0.0000")))) (Some bone) ;;;
  ebone_set (on_geom (set_tail (Vector (float_literal "0.0813") (float_literal "-0.2109")
                                       (float_literal "-0.3374")))) (Some bone) ;;;
  ebone_set (on_geom (set_roll (float_literal "-0.4656"))) (Some bone) ;;;
  ebone_set (set_connected false) (Some bone) ;;;
  parent <- edit_bones_getitem "body" ;;
  ebone_set (set_parent (Some parent)) (Some bone) ;;;
  bone <- edit_bones_new "shin" ;;
  ebone_set (on_geom (set_head (Vector (float_literal "0.0813") (float_literal "-0.2109")
                                       (float_literal "-0.3374")))) (Some bone) ;;;
  ebone_set (on_geom (set_tail (Vector (float_literal "0.0714") (float_literal "-0.0043")
                                       (float_literal "-0.5830")))) (Some bone) ;;;
  ebone_set (on_geom (set_roll (float_literal "-0.2024"))) (Some bone) ;;;
  ebone_set (set_connected true) (Some bone) ;;;
  parent <- edit_bones_getitem "thigh" ;;
  ebone_set (set_parent (Some parent)) (Some bone) ;;;
  bone <- edit_bones_new "foot" ;;
  ebone_set (on_geom (set_head (Vector (float_literal "0.0714") (float_literal "-0.0043")
                                       (float_literal "-0.5830")))) (Some bone) ;;;
  ebone_set (on_geom (set_tail (Vector (float_literal "0.0929") (float_literal "-0.0484")
                                       (float_literal "-0.7652")))) (Some bone) ;;;
  ebone_set (on_geom (set_roll (float_literal "-0.3766"))) (Some bone) ;;;
  ebone_set (set_connected true) (Some bone) ;;;
  parent <- edit_bones_getitem "shin" ;;
  ebone_set (set_parent (Some parent)) (Some bone) ;;;
  bone <- edit_bones_new "toe" ;;
  ebone_set (on_geom (set_head (Vector (float_literal "0.0929") (float_literal "-0.0484")
                                       (float_literal "-0.7652")))) (Some bone) ;;;
  ebone_set (on_geom (set_tail (Vector (float_literal "0.1146") (float_literal "-0.1244")
                                       (float_literal "-0.7652")))) (Some bone) ;;;
  ebone_set (on_geom (set_roll (float_literal "-0.0000"))) (Some bone) ;;;
  ebone_set (set_connected true) (Some bone) ;;;
  parent <- edit_bones_getitem "foot" ;;
  ebone_set (set_parent (Some parent)) (Some bone) ;;;

  mode_set OBJECT ;;;
  pbone <- pose_bones_getitem "thigh" ;;
  ret pbone.

(** The custom properties of the pose bones: by pose bone and key. *)
Definition IdProps := string -> string -> option string.

(** Modelled from the spec: [pbone[key] = value] writes a custom property of
    a pose bone, a host object not under src/. *)
Definition set_id_prop (pbone key value : string) (props : IdProps) : IdProps :=
  fun n k => if String.eqb n pbone && String.eqb k key then Some value else props n k.

Definition metarig_template (st : Scene) (props : IdProps)
  : Result unit * (Scene * IdProps) :=
  match metarig_template_bones st with
  | (Ok pbone, st') => (Ok tt, (st', set_id_prop pbone "type" "leg_quadruped_generic" props))
  | (Raise e, st') => (Raise e, (st', props))
  end.

(** The five names of the template. *)
Definition template_names : list string := ["body"; "thigh"; "shin"; "foot"; "toe"].

(** No bone of the armature has a name of the template. *)
Definition template_names_free (st : Scene) : bool :=
  forallb (fun name => match find_bone name (bones st) with
                       | None => true
                       | Some _ => false
                       end)
          template_names.

(** The five bones of the template, added to an armature of [n] bones. *)
Definition template_bones (n : nat) : list EditBone :=
  let lit := float_literal in
  [ mkEditBone "body"
      (mkGeom (Vector (lit "-0.0728") (lit "-0.2427") (lit "0.0000"))
              (Vector (lit "-0.0728") (lit "-0.2427") (lit "0.2427"))
              (lit "0.0000"))
      None false new_bone_layer;
    mkEditBone "thigh"
      (mkGeom (Vector (lit "0.0000") (lit "0.0000") (lit "-0.0000"))
              (Vector (lit "0.0813") (lit "-0.2109") (lit "-0.3374"))
              (lit "-0.4656"))
      (Some (n + 0)) false new_bone_layer;
    mkEditBone "shin"
      (mkGeom (Vector (lit "0.0813") (lit "-0.2109") (lit "-0.3374"))
              (Vector (lit "0.0714") (lit "-0.0043") (lit "-0.5830"))
              (lit "-0.2024"))
      (Some (n + 1)) true new_bone_layer;
    mkEditBone "foot"
      (mkGeom (Vector (lit "0.0714") (lit "-0.0043") (lit "-0.5830"))
              (Vector (lit "0.0929") (lit "-0.0484") (lit "-0.7652"))
              (lit "-0.3766"))
      (Some (n + 2)) true new_bone_layer;
    mkEditBone "toe"
      (mkGeom (Vector (lit "0.0929") (lit "-0.0484") (lit "-0.7652"))
              (Vector (lit "0.1146") (lit "-0.1244") (lit "-0.7652"))
              (lit "-0.0000"))
      (Some (n + 3)) true new_bone_layer ].

(** ** The expected topology of a leg, in the words of the docstring *)

Definition single_child (l : list EditBone) (h : nat) : option nat :=
  match children_of l h with
  | [c] => Some c
  | _ => None
  end.

Definition bone_name_at (l : list EditBone) (h : nat) : string :=
  match nth_error l h with
  | Some b => eb_name b
  | None => ""
  end.

Definition parent_at (l : list EditBone) (h : nat) : option nat :=
  match nth_error l h with
  | Some b => eb_parent b
  | None => None
  end.

Definition leg_topology (l : list EditBone) (h : nat) : option (nat * nat * nat * nat) :=
  match parent_at l h with
  | None => None
  | Some p =>
      match single_child l h with
      | None => None
      | Some c1 =>
          match single_child l c1 with
          | None => None
          | Some c2 =>
              match single_child l c2 with
              | None => None
              | Some c3 => Some (p, c1, c2, c3)
              end
          end
      end
  end.

Definition wf_bones (l : list EditBone) : bool :=
  forallb (fun b => match eb_parent b with
                    | Some p => Nat.ltb p (length l)
                    | None => true
                    end) l.


(** ** Vocabulary for the properties of [ik] *)

(** What [base_names[key]] gives. *)
Definition lookup_base (base_names : list (string * string)) (key : string) : option string :=
  option_map snd (find (fun kv => String.eqb (fst kv) key) base_names).

Definition distinct (l : list string) : bool := negb (has_duplicates l).

(** The names [ik] asks the host for, from the base names of the thigh,
    shin, foot and toe: the four bones of the IK chain (the foot one after
    its renaming), the knee target, the foot roll, the MCH foot
    (foot_roll_01), the foot IK target and foot_roll_02. *)
Definition ik_bone_names (bt bs bf bo : string) : list string :=
  [bt; bs; bf ++ "_ik"; bo; "knee_target"; bf ++ "_roll"; "MCH-" ++ bf;
   bf ++ "_ik_target"; "MCH-" ++ bf ++ "_02"]%string.

Definition parent_is (l : list EditBone) (child parent : nat) : bool :=
  match parent_at l child with
  | Some p => Nat.eqb p parent
  | None => false
  end.

(** The names of the nine bones [ik] creates. *)
Record IkNames := mkIkNames {
  nm_thigh : string;         (* ik_chain.thigh *)
  nm_shin : string;          (* ik_chain.shin *)
  nm_foot : string;          (* ik_chain.foot, after its renaming *)
  nm_toe : string;           (* ik_chain.toe *)
  nm_knee_target : string;   (* ik.knee_target *)
  nm_foot_roll : string;     (* ik.foot_roll *)
  nm_foot_roll_01 : string;  (* ik.foot_roll_01, the MCH foot *)
  nm_foot_target : string;   (* ik.foot_target *)
  nm_foot_roll_02 : string   (* ik.foot_roll_02 *)
}.

Definition ik_names_list (names : IkNames) : list string :=
  [nm_thigh names; nm_shin names; nm_foot names; nm_toe names; nm_knee_target names;
   nm_foot_roll names; nm_foot_roll_01 names; nm_foot_target names; nm_foot_roll_02 names].

(** The names as [ik] asks for them. *)
Definition ik_asked (bt bs bf bo : string) : IkNames :=
  mkIkNames bt bs (bf ++ "_ik") bo "knee_target" (bf ++ "_roll") ("MCH-" ++ bf)
            (bf ++ "_ik_target") ("MCH-" ++ bf ++ "_02").

(** The names as the host gives them, on an armature whose bones have the
    names [taken], in the order in which [ik] asks: the copies of the thigh,
    shin, foot and toe under their base names; the new name of the copy of
    the foot, the name it was given with "_ik" appended; then the knee
    target, the foot roll, the MCH foot, the foot IK target and
    foot_roll_02. *)
Definition ik_granted (taken : list string) (bt bs bf bo : string) : IkNames :=
  let thigh := unique_name taken bt in
  let shin := unique_name (taken ++ [thigh]) bs in
  let foot_copy := unique_name (taken ++ [thigh; shin]) bf in
  let toe := unique_name (taken ++ [thigh; shin; foot_copy]) bo in
  let foot := unique_name (taken ++ [thigh; shin; foot_copy; toe]) (foot_copy ++ "_ik") in
  let knee_target := unique_name (taken ++ [thigh; shin; foot; toe]) "knee_target" in
  let foot_roll :=
    unique_name (taken ++ [thigh; shin; foot; toe; knee_target]) (bf ++ "_roll") in
  let foot_roll_01 :=
    unique_name (taken ++ [thigh; shin; foot; toe; knee_target; foot_roll]) ("MCH-" ++ bf) in
  let foot_target :=
    unique_name (taken ++ [thigh; shin; foot; toe; knee_target; foot_roll; foot_roll_01])
                (bf ++ "_ik_target") in
  let foot_roll_02 :=
    unique_name (taken ++ [thigh; shin; foot; toe; knee_target; foot_roll; foot_roll_01;
                           foot_target])
                ("MCH-" ++ bf ++ "_02") in
  mkIkNames thigh shin foot toe knee_target foot_roll foot_roll_01 foot_target foot_roll_02.

(** The name under which the foot is first copied, before its renaming. *)
Definition ik_foot_copy (taken : list string) (bt bs bf : string) : string :=
  unique_name (taken ++ [unique_name taken bt;
                         unique_name (taken ++ [unique_name taken bt]) bs]) bf.

(** A valid input of [ik]: the rig is in edit mode; [bone_definition] names
    five different bones of the armature, each the parent of the next; and
    [base_names] has a base name for the four bones of the chain. *)
Definition ik_valid (st : Scene) (bone_definition : list string)
  (base_names : list (string * string)) : bool :=
  match mode st, bone_definition with
  | EDIT, [hips; thigh; shin; foot; toe] =>
      match find_bone hips (bones st), find_bone thigh (bones st),
            find_bone shin (bones st), find_bone foot (bones st),
            find_bone toe (bones st) with
      | Some ih, Some it, Some ish, Some ifo, Some io =>
          match lookup_base base_names thigh, lookup_base base_names shin,
                lookup_base base_names foot, lookup_base base_names toe with
          | Some bt, Some bs, Some bf, Some bo =>
              parent_is (bones st) it ih && parent_is (bones st) ish it
              && parent_is (bones st) ifo ish && parent_is (bones st) io ifo
              && distinct bone_definition
          | _, _, _, _ => false
          end
      | _, _, _, _, _ => false
      end
  | _, _ => false
  end.

(** The names [ik] asks for are free: [base_names] has a base name for the
    thigh, shin, foot and toe of [bone_definition]; the names of the
    armature and the names [ik] asks for are all different; and the base
    name of the foot, under which the foot is copied before its renaming, is
    not in use either. *)
Definition names_free (st : Scene) (bone_definition : list string)
  (base_names : list (string * string)) : bool :=
  match bone_definition with
  | [_; thigh; shin; foot; toe] =>
      match lookup_base base_names thigh, lookup_base base_names shin,
            lookup_base base_names foot, lookup_base base_names toe with
      | Some bt, Some bs, Some bf, Some bo =>
          distinct (map eb_name (bones st) ++ ik_bone_names bt bs bf bo)%list
          && negb (existsb (String.eqb bf) (map eb_name (bones st) ++ [bt; bs; bo])%list)
      | _, _, _, _ => false
      end
  | _ => false
  end.

(** A valid input of [ik] on which the names [ik] asks for are free, so that
    a host that gives free names as asked gives every name as asked. *)
Definition ik_ready (st : Scene) (bone_definition : list string)
  (base_names : list (string * string)) : bool :=
  ik_valid st bone_definition base_names && names_free st bone_definition base_names.

(** The bone of a given name, and what can be asked of it. *)
Definition bone_named (st : Scene) (name : string) : option EditBone :=
  match find_bone name (bones st) with
  | Some h => nth_error (bones st) h
  | None => None
  end.

Definition geom_of (st : Scene) (name : string) : option Geom :=
  option_map eb_geom (bone_named st name).

Definition connected_of (st : Scene) (name : string) : option bool :=
  option_map eb_connected (bone_named st name).

(** [Some None]: the bone has no parent; [Some (Some p)]: its parent is the
    bone named [p]. *)
Definition parent_of (st : Scene) (name : string) : option (option string) :=
  match bone_named st name with
  | Some b =>
      match eb_parent b with
      | None => Some None
      | Some p =>
          match nth_error (bones st) p with
          | Some pb => Some (Some (eb_name pb))
          | None => None
          end
      end
  | None => None
  end.

(** The geometry of the auxiliary foot bones, in the words of the
    comments of [ik]. *)

(** A copy of a bone has its head, tail and roll. *)
Definition copy_geom (g : Geom) : Geom := mkGeom (head g) (tail g) (roll g).

Definition down : Vec := Vector (float_of_Z 0) (float_of_Z 0) (float_of_Z (-1)).

(** The foot roll: a copy of the toe, moved back along the toe by the
    length of the foot, aligned with the foot, flipped, its roll aligned
    with the foot's own down axis. *)
Definition foot_roll_geom (toe foot : Geom) : Geom :=
  let moved :=
    translate (vneg (vscale (vnormalize (bone_vector toe)) (bone_length foot)))
              (copy_geom toe) in
  let aligned := align_orientation foot moved in
  let flipped := set_tail (vsub (head aligned) (bone_vector aligned)) aligned in
  align_roll (mat_vec (bone_rotation foot) down) flipped.

(** The MCH foot: the foot reversed, with the roll of the foot roll. *)
Definition mch_foot_geom (foot foot_roll : Geom) : Geom :=
  mkGeom (tail foot) (head foot) (roll foot_roll).

(** The IK foot: a copy of the foot aligned with the toe. *)
Definition ik_foot_geom (toe foot : Geom) : Geom :=
  align_orientation toe (copy_geom foot).

(** The foot IK target: a copy of the foot aligned with the IK foot, half
    as long as the IK foot. *)
Definition foot_target_geom (foot ik_foot : Geom) : Geom :=
  set_length (fdiv (bone_length ik_foot) (float_of_Z 2))
             (align_orientation ik_foot (copy_geom foot)).

(** The nine bones [ik] adds to an armature of [n] bones whose hips bone is
    [ih] and whose thigh, shin, foot and toe are [Bt], [Bs], [Bf], [Bo],
    under the names [names]. *)
Definition ik_bones_named (n ih : nat) (Bt Bs Bf Bo : EditBone) (names : IkNames)
  : list EditBone :=
  let pole := pole_geom (eb_geom Bs) (eb_geom Bt) in
  let ik_foot := ik_foot_geom (eb_geom Bo) (eb_geom Bf) in
  let foot_roll := foot_roll_geom (eb_geom Bo) (eb_geom Bf) in
  [ mkEditBone (nm_thigh names) (copy_geom (eb_geom Bt)) (Some ih) false (eb_layer Bt);
    mkEditBone (nm_shin names) (copy_geom (eb_geom Bs)) (Some (n + 0)) (eb_connected Bs)
               (eb_layer Bs);
    mkEditBone (nm_foot names) ik_foot None (eb_connected Bf) (eb_layer Bf);
    mkEditBone (nm_toe names) (copy_geom (eb_geom Bo)) (Some (n + 2)) false (eb_layer Bo);
    mkEditBone (nm_knee_target names) (mkGeom (head pole) (tail pole) (roll new_bone_geom))
               (Some ih) false new_bone_layer;
    mkEditBone (nm_foot_roll names) foot_roll (Some (n + 2)) false (eb_layer Bo);
    mkEditBone (nm_foot_roll_01 names) (mch_foot_geom (eb_geom Bf) foot_roll)
               (Some (n + 2)) false (eb_layer Bf);
    mkEditBone (nm_foot_target names) (foot_target_geom (eb_geom Bf) ik_foot)
               (Some (n + 6)) true (eb_layer Bf);
    mkEditBone (nm_foot_roll_02 names) (copy_geom (eb_geom Bf))
               (Some (n + 6)) false (eb_layer Bf) ].

(** The same nine bones under the names as [ik] asks for them. *)
Definition ik_new_bones (n ih : nat) (Bt Bs Bf Bo : EditBone) (bt bs bf bo : string)
  : list EditBone :=
  ik_bones_named n ih Bt Bs Bf Bo (ik_asked bt bs bf bo).

(** A host whose lengths are exact.  Aligning a bone with another keeps its
    length, unless the other has no direction, and then leaves it none;
    a bone that has a direction takes half a length as its length; a bone
    without direction keeps length zero; and half of zero is zero. *)
Definition exact_lengths : Prop :=
  let zero := float_of_Z 0 in
  let half x := fdiv x (float_of_Z 2) in
  (forall other g, bone_length other <> zero ->
                   bone_length (align_orientation other g) = bone_length g) /\
  (forall other g, bone_length other = zero ->
                   bone_length (align_orientation other g) = zero) /\
  (forall other g, bone_length g <> zero ->
                   bone_length (set_length (half (bone_length other)) g)
                   = half (bone_length other)) /\
  (forall g, bone_length g = zero -> bone_length (set_length zero g) = zero) /\
  half zero = zero /\
  (forall g, bone_length g = zero \/ bone_length g <> zero).

(** The constraints [ik] creates. *)
Definition copy_rotation (obj : Obj) (sub : string) : Constraint :=
  mkConstraint COPY_ROTATION
    (set_subtarget sub (set_target (Some obj) (new_con_props COPY_ROTATION))).

Definition ik_constraint (obj : Obj) (sub pole_sub : string) : Constraint :=
  mkConstraint IK
    (set_pole_subtarget pole_sub (set_pole_target (Some obj)
      (set_subtarget sub (set_target (Some obj)
        (set_weight (float_of_Z 1) (set_use_rotation false (set_use_target true
          (set_use_stretch true (set_use_tail true
            (set_pole_angle (float_of_Z (-90)) (set_iterations 500
              (set_chain_length 2 (new_con_props IK))))))))))))).

(** One more constraint at the end of the stack of a pose bone. *)
Definition push_con (pb : string) (c : Constraint) (p : string -> list Constraint)
  : string -> list Constraint :=
  pose_update pb (fun stack => stack ++ [c]) p.

(** A call has added the constraint [c] at the end of the stack of the pose
    bone [pb], and nothing else to that stack. *)
Definition adds_constraint (st st' : Scene) (pb : string) (c : Constraint) : Prop :=
  pose st' pb = pose st pb ++ [c].

Definition is_copy_rotation (obj : Obj) (sub : string) (c : Constraint) : Prop :=
  con_type c = COPY_ROTATION /\
  target (con_props c) = Some obj /\
  subtarget (con_props c) = sub.

(** What a call does to the mode and to the record of mode switches and
    constraint creations: started in mode [pre], if it returns it has added
    the events [evs] and left the mode [post]. *)
Definition traces {A} (pre : Mode) (m : M A) (evs : list Event) (post : Mode) : Prop :=
  forall st a st',
    mode st = pre -> m st = (Ok a, st') -> log st' = log st ++ evs /\ mode st' = post.

Definition is_mode_set (m : Mode) (e : Event) : bool :=
  match e, m with
  | EvModeSet OBJECT, OBJECT => true
  | EvModeSet EDIT, EDIT => true
  | EvModeSet POSE, POSE => true
  | _, _ => false
  end.

Definition is_constraint_new (e : Event) : bool :=
  match e with
  | EvConstraintNew _ => true
  | EvModeSet _ => false
  end.

(** What [update] leaves in a container: each named attribute resolved in
    the state of the host. *)
Definition resolve_slot (st : Scene) (s : Slot) : Slot :=
  match slot_name s with
  | None => s
  | Some name =>
      mkSlot (Some name) (find_bone name (edit_bones st))
             (match find_bone name (bones st) with Some _ => Some name | None => None end)
  end.

Definition resolve (st : Scene) (c : Container) : Container :=
  map (fun e => (fst e, resolve_slot st (snd e))) c.


(** The mode switches and constraint creations of a call of [ik], in
    order. *)
Definition ik_events : list Event :=
  [EvModeSet EDIT; EvModeSet EDIT; EvModeSet OBJECT;
   EvConstraintNew COPY_ROTATION; EvConstraintNew COPY_ROTATION;
   EvConstraintNew COPY_ROTATION; EvConstraintNew COPY_ROTATION;
   EvConstraintNew COPY_ROTATION; EvConstraintNew IK; EvModeSet EDIT].

(** The constraint stacks after [ik], the new bones under the names
    [names]. *)
Definition ik_pose_named (obj : Obj) (t s f o : string) (names : IkNames)
  (p : string -> list Constraint) : string -> list Constraint :=
  push_con (nm_shin names)
    (ik_constraint obj (nm_foot_target names) (nm_knee_target names))
    (push_con (nm_foot_roll_01 names) (copy_rotation obj (nm_foot_roll names))
      (push_con o (copy_rotation obj (nm_toe names))
        (push_con f (copy_rotation obj (nm_foot_roll_02 names))
          (push_con s (copy_rotation obj (nm_shin names))
            (push_con t (copy_rotation obj (nm_thigh names)) p))))).

(** The constraint stacks after [ik], the new bones under the names as
    [ik] asks for them. *)
Definition ik_pose (obj : Obj) (t s f o bs bt bf bo : string) (p : string -> list Constraint)
  : string -> list Constraint :=
  ik_pose_named obj t s f o (ik_asked bt bs bf bo) p.

(** The rig put in edit mode. *)
Definition in_edit_mode (st : Scene) : Scene :=
  mkScene EDIT (bones st) (pose st) (log st).

(** A host call that only reads: whatever it returns or raises, the state
    after it is the state before it. *)
Definition read_only {A} (m : M A) : Prop := forall st, snd (m st) = st.

Definition fork_error : Exn :=
  RigifyError "expected the thigh bone to have 3 children without a fork".

End Host.

(** ** A rig on a line

    An instance of the host in which the model runs: bones lie on one axis,
    floats and vectors are integers, a vector is normalized to its sign and
    the length of a bone is the absolute value of its vector; a name that is
    in use is numbered.  The rig is the metarig of the module's template,
    its five bones laid end to end, renamed as the generator renames the
    bones of a metarig. *)

Definition line_mathutils : Mathutils := {|
  scalar := Z;
  Vec := Z;
  Matrix := Z;
  float_of_Z := fun z => z;
  fdiv := Z.div;
  Vector := fun _ _ z => z;
  vsub := Z.sub;
  vneg := Z.opp;
  vscale := Z.mul;
  vnormalize := Z.sgn;
  mat_vec := Z.mul
|}.

Definition line_geom (h t r : Z) : @Geom line_mathutils :=
  @mkGeom line_mathutils h t r.

Definition line_props : @ConProps line_mathutils :=
  @mkConProps line_mathutils None "" None "" 0%Z 0%Z 0%Z false false false false 0%Z.

Definition line_head (g : @Geom line_mathutils) : Z := @head line_mathutils g.

Definition line_tail (g : @Geom line_mathutils) : Z := @tail line_mathutils g.

Definition line_roll (g : @Geom line_mathutils) : Z := @roll line_mathutils g.

Definition line_geometry : @BoneGeometry line_mathutils := {|
  bone_vector := fun g => (line_tail g - line_head g)%Z;
  bone_length := fun g => Z.abs (line_tail g - line_head g);
  bone_rotation := fun g => Z.sgn (line_tail g - line_head g);
  translate := fun v g => line_geom (line_head g + v) (line_tail g + v) (line_roll g);
  align_orientation := fun o g =>
    line_geom (line_head g)
              (line_head g + Z.sgn (line_tail o - line_head o) * Z.abs (line_tail g - line_head g))
              (line_roll o);
  align_roll := fun v g => line_geom (line_head g) (line_tail g) v;
  set_length := fun x g =>
    line_geom (line_head g) (line_head g + Z.sgn (line_tail g - line_head g) * x)
              (line_roll g);
  new_bone_geom := line_geom 0 0 0;
  new_bone_layer := [];
  pole_geom := fun b p => line_geom (line_head b + 1) (line_head b + 2) 0;
  new_con_props := fun _ => line_props
|}.

Definition line_bone (name : string) (h t : Z) (parent : option nat) (connected : bool)
  : @EditBone line_mathutils :=
  @mkEditBone line_mathutils name (line_geom h t 0) parent connected [true].

Definition line_rig : list (@EditBone line_mathutils) :=
  [ line_bone "ORG-body" 0 24 None false;
    line_bone "ORG-thigh" 24 64 (Some 0) false;
    line_bone "ORG-shin" 64 96 (Some 1) true;
    line_bone "ORG-foot" 96 114 (Some 2) true;
    line_bone "ORG-toe" 114 122 (Some 3) true ].

Definition line_names : list string :=
  ["ORG-body"; "ORG-thigh"; "ORG-shin"; "ORG-foot"; "ORG-toe"].

Definition line_base_names : list (string * string) :=
  [("ORG-body", "body"); ("ORG-thigh", "thigh"); ("ORG-shin", "shin");
   ("ORG-foot", "foot"); ("ORG-toe", "toe")].

Definition line_object_mode : @Scene line_mathutils :=
  @mkScene line_mathutils OBJECT line_rig (fun _ => []) [].

Definition line_edit_mode : @Scene line_mathutils :=
  @mkScene line_mathutils EDIT line_rig (fun _ => []) [].

(** The same rig in which two of the names [ik] asks for are in use
    already: a knee target, child of the body, and a bone named after the
    foot with "_ik". *)
Definition line_rig_again : list (@EditBone line_mathutils) :=
  line_rig ++ [ line_bone "knee_target" 65 66 (Some 0) false;
                line_bone "foot_ik" 96 114 None false ].

Definition line_edit_mode_again : @Scene line_mathutils :=
  @mkScene line_mathutils EDIT line_rig_again (fun _ => []) [].

(** A rig with two legs under one body. *)
Definition line_two_legs : list (@EditBone line_mathutils) :=
  [ line_bone "ORG-body" 0 24 None false;
    line_bone "ORG-thigh.L" 24 64 (Some 0) false;
    line_bone "ORG-shin.L" 64 96 (Some 1) true;
    line_bone "ORG-foot.L" 96 114 (Some 2) true;
    line_bone "ORG-toe.L" 114 122 (Some 3) true;
    line_bone "ORG-thigh.R" 24 64 (Some 0) false;
    line_bone "ORG-shin.R" 64 96 (Some 5) true;
    line_bone "ORG-foot.R" 96 114 (Some 6) true;
    line_bone "ORG-toe.R" 114 122 (Some 7) true ].

Definition line_left_leg : list string :=
  ["ORG-body"; "ORG-thigh.L"; "ORG-shin.L"; "ORG-foot.L"; "ORG-toe.L"].

Definition line_right_leg : list string :=
  ["ORG-body"; "ORG-thigh.R"; "ORG-shin.R"; "ORG-foot.R"; "ORG-toe.R"].

Definition line_leg_base_names : list (string * string) :=
  [("ORG-body", "body");
   ("ORG-thigh.L", "thigh.L"); ("ORG-shin.L", "shin.L");
   ("ORG-foot.L", "foot.L"); ("ORG-toe.L", "toe.L");
   ("ORG-thigh.R", "thigh.R"); ("ORG-shin.R", "shin.R");
   ("ORG-foot.R", "foot.R"); ("ORG-toe.R", "toe.R")].

Definition line_two_legs_edit_mode : @Scene line_mathutils :=
  @mkScene line_mathutils EDIT line_two_legs (fun _ => []) [].

(** The number [k] as the host prints it in a name: in decimal, with at
    least three digits. *)
Definition line_number (k : nat) : string :=
  let digits := DecimalString.NilEmpty.string_of_uint (Nat.to_uint k) in
  match String.length digits with
  | 1 => ("00" ++ digits)%string
  | 2 => ("0" ++ digits)%string
  | _ => digits
  end.

Definition is_digit (c : ascii) : bool :=
  (Nat.leb 48 (nat_of_ascii c) && Nat.leb (nat_of_ascii c) 57)%bool.

(** A name that ends in a dot and digits, read from its end: what is before
    the dot, and the digits. *)
Fixpoint line_split_rev (rev_name : list ascii) (digits : list ascii)
  : option (list ascii * list ascii) :=
  match rev_name with
  | [] => None
  | c :: rest =>
      if Ascii.eqb c "."%char then Some (rest, digits)
      else if is_digit c then line_split_rev rest (c :: digits)
      else None
  end.

(** A name and the number it ends in: "foot.002" is "foot" and 2, "foot" is
    "foot" and 0. *)
Definition line_split (name : string) : string * nat :=
  match line_split_rev (List.rev (list_ascii_of_string name)) [] with
  | Some (rest, digits) =>
      (string_of_list_ascii (List.rev rest),
       match DecimalString.NilEmpty.uint_of_string (string_of_list_ascii digits) with
       | Some d => Nat.of_uint d
       | None => 0
       end)
  | None => (name, 0)
  end.

Definition line_taken (taken : list string) (name : string) : bool :=
  existsb (String.eqb name) taken.

Definition line_candidates (stem : string) (from count : nat) : list string :=
  map (fun k => (stem ++ "." ++ line_number k)%string) (seq from count).

(** The name the host gives: the name asked for when it is free, and
    otherwise the name with the first number after its own, after a dot,
    that makes it free: "foot", "foot.001", "foot.002" and so on. *)
Definition line_unique_name (taken : list string) (name : string) : string :=
  if line_taken taken name then
    let (stem, number) := line_split name in
    match find (fun c => negb (line_taken taken c))
               (line_candidates stem (S number) (S (length taken))) with
    | Some c => c
    | None => name
    end
  else name.

Definition line_literal (text : string) : Z := Z.of_nat (String.length text).

Definition line_no_props : string -> string -> option string := fun _ _ => None.

(** * Properties *)

Unset Implicit Arguments.

Section Facts.

Context {MU : Mathutils} {BG : BoneGeometry} {BN : BoneNames}.

Lemma find_bone_some name l h :
  find_bone name l = Some h -> exists b, nth_error l h = Some b /\ eb_name b = name.
Proof.
  revert h. induction l as [|b l IH]; intros h; simpl; [discriminate|].
  destruct (String.eqb (eb_name b) name) eqn:E.
  - intros [= <-]. exists b. split; [reflexivity|]. now apply String.eqb_eq.
  - destruct (find_bone name l) as [i|]; simpl; [|discriminate].
    intros [= <-]. destruct (IH i eq_refl) as (b' & H1 & H2). now exists b'.
Qed.

Lemma children_of_in l h c :
  In c (children_of l h) -> exists b, nth_error l c = Some b /\ eb_parent b = Some h.
Proof.
  unfold children_of. rewrite filter_In. intros [_ H].
  destruct (nth_error l c) as [b|]; [|discriminate].
  exists b. split; [reflexivity|].
  destruct (eb_parent b) as [p|]; [|discriminate].
  apply Nat.eqb_eq in H. now subst.
Qed.

Lemma wf_bones_parent l h b p :
  wf_bones l = true -> nth_error l h = Some b -> eb_parent b = Some p ->
  exists pb, nth_error l p = Some pb.
Proof.
  unfold wf_bones. rewrite forallb_forall. intros Hwf Hb Hp.
  apply nth_error_In in Hb. specialize (Hwf _ Hb). rewrite Hp in Hwf.
  apply Nat.ltb_lt in Hwf.
  destruct (nth_error l p) as [pb|] eqn:E; [now exists pb|].
  apply nth_error_None in E. lia.
Qed.

Lemma single_child_some l h c :
  single_child l h = Some c -> children_of l h = [c].
Proof.
  unfold single_child. destruct (children_of l h) as [|x [|y r]]; try discriminate.
  now intros [= ->].
Qed.

Lemma single_child_none l h :
  single_child l h = None -> Nat.eqb (length (children_of l h)) 1 = false.
Proof.
  unfold single_child. destruct (children_of l h) as [|x [|y r]]; try discriminate; reflexivity.
Qed.

Lemma walk_step_ok n st h c acc :
  single_child (bones st) h = Some c ->
  walk_chain (S n) h acc st = walk_chain n c (acc ++ [bone_name_at (bones st) c]) st.
Proof.
  intros H. pose proof (single_child_some _ _ _ H) as Hc.
  assert (Hin : In c (children_of (bones st) h)) by (rewrite Hc; now left).
  destruct (children_of_in _ _ _ Hin) as (b & Hb & _).
  cbn [walk_chain]. unfold bind, bone_children, gets. rewrite Hc. cbn.
  unfold bone_attr, bone_name_at. rewrite Hb. reflexivity.
Qed.

Lemma walk_step_fork n st h acc :
  single_child (bones st) h = None ->
  walk_chain (S n) h acc st =
  (Raise (RigifyError "expected the thigh bone to have 3 children without a fork"), st).
Proof.
  intros H. apply single_child_none in H.
  cbn [walk_chain]. unfold bind, bone_children, gets. rewrite H. reflexivity.
Qed.


(** ** metarig_definition *)

Lemma metarig_collect_cases name st h :
  wf_bones (bones st) = true ->
  find_bone name (bones st) = Some h ->
  match parent_at (bones st) h with
  | None =>
      metarig_collect name st =
      (Raise (RigifyError "expected the thigh bone to have a parent hip bone"), st)
  | Some p =>
      match single_child (bones st) h with
      | None => metarig_collect name st = (Raise fork_error, st)
      | Some c1 =>
          match single_child (bones st) c1 with
          | None => metarig_collect name st = (Raise fork_error, st)
          | Some c2 =>
              match single_child (bones st) c2 with
              | None => metarig_collect name st = (Raise fork_error, st)
              | Some c3 =>
                  metarig_collect name st =
                  (Ok [bone_name_at (bones st) p; name; bone_name_at (bones st) c1;
                       bone_name_at (bones st) c2; bone_name_at (bones st) c3], st)
              end
          end
      end
  end.
Proof.
  intros Hwf Hfind.
  destruct (find_bone_some _ _ _ Hfind) as (b & Hb & Hname).
  unfold metarig_collect, bind, bones_getitem, parent_at. rewrite Hfind.
  unfold bone_attr. rewrite Hb.
  destruct (eb_parent b) as [p|] eqn:Hp; [|reflexivity].
  destruct (wf_bones_parent _ _ _ _ Hwf Hb Hp) as (pb & Hpb).
  rewrite Hpb, Hb, Hname. cbn [app].
  replace (eb_name pb) with (bone_name_at (bones st) p)
    by (unfold bone_name_at; now rewrite Hpb).
  destruct (single_child (bones st) h) as [c1|] eqn:H1;
    [rewrite (walk_step_ok _ _ _ _ _ H1) | now rewrite (walk_step_fork _ _ _ _ H1)].
  destruct (single_child (bones st) c1) as [c2|] eqn:H2;
    [rewrite (walk_step_ok _ _ _ _ _ H2) | now rewrite (walk_step_fork _ _ _ _ H2)].
  destruct (single_child (bones st) c2) as [c3|] eqn:H3;
    [rewrite (walk_step_ok _ _ _ _ _ H3) | now rewrite (walk_step_fork _ _ _ _ H3)].
  reflexivity.
Qed.

Lemma metarig_definition_collect obj name st :
  metarig_definition obj name st =
  match metarig_collect name st with
  | (Ok bone_definition, st') =>
      if negb (Nat.eqb (length bone_definition) (length METARIG_NAMES))
      then (Raise (RigifyError "internal problem, expected 5 bones"), st')
      else (Ok bone_definition, st')
  | (Raise e, st') => (Raise e, st')
  end.
Proof.
  unfold metarig_definition, bind.
  destruct (metarig_collect name st) as [[d|e] st']; [|reflexivity].
  now destruct (negb _).
Qed.

Lemma walk_chain_length n : forall h acc st defn st',
  walk_chain n h acc st = (Ok defn, st') -> length defn = length acc + n.
Proof.
  induction n as [|n IH]; intros h acc st defn st'; cbn [walk_chain].
  - unfold ret. intros [= <- _]. lia.
  - unfold bind, bone_children, gets.
    destruct (negb (Nat.eqb (length (children_of (bones st) h)) 1)); [discriminate|].
    destruct (children_of (bones st) h) as [|c cs]; [discriminate|].
    unfold bone_attr. destruct (nth_error (bones st) c) as [b|]; [|discriminate].
    intros H. apply IH in H. rewrite length_app in H. cbn in H. lia.
Qed.

Lemma metarig_collect_length name st defn st' :
  metarig_collect name st = (Ok defn, st') -> length defn = 5.
Proof.
  unfold metarig_collect, bind, bones_getitem, bone_attr.
  destruct (find_bone name (bones st)) as [h|]; [|discriminate].
  destruct (nth_error (bones st) h) as [b|] eqn:Hb; [|discriminate].
  destruct (eb_parent b) as [p|]; [|discriminate].
  destruct (nth_error (bones st) p) as [pb|]; [|discriminate].
  rewrite Hb. intros H. apply walk_chain_length in H. exact H.
Qed.

(** C5. For a bone of the armature, [metarig_definition] raises a
    [RigifyError] exactly when the expected topology is absent: the bone has
    no parent, or the bone, its child or its grandchild does not have exactly
    one child. *)
Theorem metarig_definition_raises_iff obj name st h :
  wf_bones (bones st) = true ->
  find_bone name (bones st) = Some h ->
  (exists msg, fst (metarig_definition obj name st) = Raise (RigifyError msg)) <->
  leg_topology (bones st) h = None.
Proof.
  intros Hwf Hfind. pose proof (metarig_collect_cases _ _ _ Hwf Hfind) as H.
  rewrite metarig_definition_collect. unfold leg_topology, fork_error in *.
  destruct (parent_at (bones st) h) as [p|];
    [|rewrite H; split; [reflexivity | intros _; eexists; reflexivity]].
  destruct (single_child (bones st) h) as [c1|];
    [|rewrite H; split; [reflexivity | intros _; eexists; reflexivity]].
  destruct (single_child (bones st) c1) as [c2|];
    [|rewrite H; split; [reflexivity | intros _; eexists; reflexivity]].
  destruct (single_child (bones st) c2) as [c3|];
    [|rewrite H; split; [reflexivity | intros _; eexists; reflexivity]].
  rewrite H. cbn. split; [intros [msg Hm]; discriminate | discriminate].
Qed.

(** C6. When the bone has a parent and the bone, its child and its
    grandchild each have exactly one child, [metarig_definition] returns the
    five names hips, thigh, shin, foot, toe: the parent's name, the bone's
    own, then those of the three successive single children. *)
Theorem metarig_definition_returns obj name st h hips shin foot toe :
  wf_bones (bones st) = true ->
  find_bone name (bones st) = Some h ->
  leg_topology (bones st) h = Some (hips, shin, foot, toe) ->
  fst (metarig_definition obj name st) =
  Ok [bone_name_at (bones st) hips; name; bone_name_at (bones st) shin;
      bone_name_at (bones st) foot; bone_name_at (bones st) toe].
Proof.
  intros Hwf Hfind Htop. pose proof (metarig_collect_cases _ _ _ Hwf Hfind) as H.
  rewrite metarig_definition_collect. unfold leg_topology in Htop.
  destruct (parent_at (bones st) h) as [p|]; [|discriminate].
  destruct (single_child (bones st) h) as [c1|]; [|discriminate].
  destruct (single_child (bones st) c1) as [c2|]; [|discriminate].
  destruct (single_child (bones st) c2) as [c3|]; [|discriminate].
  injection Htop as <- <- <- <-. rewrite H. reflexivity.
Qed.

(** C8. The internal consistency error is unreachable: whenever the parent
    check and the three steps of the walk succeed the accumulated list has
    five entries, as many as [METARIG_NAMES], so [metarig_definition] never
    raises "internal problem, expected 5 bones". *)
Theorem metarig_internal_error_unreachable obj name st :
  (forall defn st', metarig_collect name st = (Ok defn, st') ->
                    length defn = length METARIG_NAMES) /\
  fst (metarig_definition obj name st) <>
  Raise (RigifyError "internal problem, expected 5 bones").
Proof.
  split.
  - intros defn st' H. apply metarig_collect_length in H. exact H.
  - rewrite metarig_definition_collect.
    destruct (metarig_collect name st) as [[defn|e] st'] eqn:H.
    + rewrite (metarig_collect_length _ _ _ _ H). cbn. discriminate.
    + cbn. intros [= ->]. revert H.
      unfold metarig_collect, bind, bones_getitem, bone_attr.
      destruct (find_bone name (bones st)) as [h|]; [|discriminate].
      destruct (nth_error (bones st) h) as [b|] eqn:Hb; [|discriminate].
      destruct (eb_parent b) as [p|]; [|discriminate].
      destruct (nth_error (bones st) p) as [pb|]; [|discriminate].
      rewrite Hb.
      generalize (([] ++ [eb_name pb]) ++ [eb_name b]). generalize 3. generalize h.
      clear. intros h n. revert h st.
      induction n as [|n IH]; intros h st acc; cbn [walk_chain].
      * discriminate.
      * unfold bind, bone_children, gets.
        destruct (negb (Nat.eqb (length (children_of (bones st) h)) 1)); [discriminate|].
        destruct (children_of (bones st) h) as [|c cs]; [discriminate|].
        unfold bone_attr. destruct (nth_error (bones st) c) as [b|]; [|discriminate].
        apply IH.
Qed.

Lemma read_only_bind {A B} (m : M A) (f : A -> M B) :
  read_only m -> (forall a, read_only (f a)) -> read_only (bind m f).
Proof.
  intros Hm Hf st. unfold bind. specialize (Hm st).
  destruct (m st) as [[a|e] st1]; cbn in Hm; subst st1; [apply Hf | reflexivity].
Qed.

Lemma read_only_bone_attr {A} (f : EditBone -> A) h : read_only (bone_attr f h).
Proof. intros st. unfold bone_attr. now destruct (nth_error (bones st) h). Qed.

Lemma read_only_bones_getitem name : read_only (bones_getitem name).
Proof. intros st. unfold bones_getitem. now destruct (find_bone name (bones st)). Qed.

Lemma read_only_walk_chain n : forall h acc, read_only (walk_chain n h acc).
Proof.
  induction n as [|n IH]; intros h acc; cbn [walk_chain].
  - intros st. reflexivity.
  - apply read_only_bind; [intros st; reflexivity|]. intros children.
    destruct (negb _); [intros st; reflexivity|].
    destruct children as [|c cs]; [intros st; reflexivity|].
    apply read_only_bind; [apply read_only_bone_attr|]. intros name. apply IH.
Qed.

(** C10. [metarig_definition] mutates nothing: on every input, whether it
    returns or raises, the host state after the call is the state before
    it. *)
Theorem metarig_definition_read_only obj name :
  read_only (metarig_definition obj name).
Proof.
  unfold metarig_definition. apply read_only_bind.
  - unfold metarig_collect. apply read_only_bind; [apply read_only_bones_getitem|].
    intros h. apply read_only_bind; [apply read_only_bone_attr|].
    intros [p|]; [|intros st; reflexivity].
    apply read_only_bind; [apply read_only_bone_attr|]. intros pn.
    apply read_only_bind; [apply read_only_bone_attr|]. intros on.
    apply read_only_walk_chain.
  - intros d. destruct (negb _); intros st; reflexivity.
Qed.

(** ** Running host calls on an armature that has grown

    Throughout [ik] the armature is the one it was given, [l], followed by
    the bones created so far, [news]. *)

Lemma bind_step {A B} (m : M A) (k : A -> M B) st a st1 res :
  m st = (Ok a, st1) -> k a st1 = res -> bind m k st = res.
Proof. intros Hm Hk. unfold bind. now rewrite Hm. Qed.

Lemma find_bone_app_old name l news h :
  find_bone name l = Some h -> find_bone name (l ++ news) = Some h.
Proof.
  revert h. induction l as [|b l IH]; intros h; cbn; [discriminate|].
  destruct (String.eqb (eb_name b) name); [easy|].
  destruct (find_bone name l) as [i|]; cbn; [|discriminate].
  intros [= <-]. now rewrite (IH i eq_refl).
Qed.

Lemma find_bone_app_new name l news :
  find_bone name l = None ->
  find_bone name (l ++ news) = option_map (Nat.add (length l)) (find_bone name news).
Proof.
  induction l as [|b l IH]; cbn.
  - intros _. now destruct (find_bone name news).
  - destruct (String.eqb (eb_name b) name); [discriminate|].
    destruct (find_bone name l) as [i|]; cbn; [discriminate|].
    intros _. rewrite IH by reflexivity. now destruct (find_bone name news).
Qed.

Lemma find_bone_none name l :
  ~ In name (map eb_name l) -> find_bone name l = None.
Proof.
  induction l as [|b l IH]; cbn; [reflexivity|]. intros H.
  destruct (String.eqb (eb_name b) name) eqn:E.
  - apply String.eqb_eq in E. tauto.
  - rewrite IH by tauto. reflexivity.
Qed.

Lemma find_bone_in name l :
  In name (map eb_name l) -> exists h, find_bone name l = Some h.
Proof.
  induction l as [|b l IH]; cbn; [tauto|]. intros H.
  destruct (String.eqb (eb_name b) name) eqn:E; [now exists 0|].
  apply String.eqb_neq in E. destruct H as [H|H]; [tauto|].
  destruct (IH H) as [h ->]. now exists (S h).
Qed.

Lemma nth_error_app_old {A} (l news : list A) h b :
  nth_error l h = Some b -> nth_error (l ++ news) h = Some b.
Proof.
  intros H. rewrite nth_error_app1; [exact H|].
  apply nth_error_Some. now rewrite H.
Qed.

Lemma nth_error_app_new {A} (l news : list A) k :
  nth_error (l ++ news) (length l + k) = nth_error news k.
Proof.
  rewrite nth_error_app2 by lia. f_equal. lia.
Qed.

Lemma update_nth_app_new {A} (f : A -> A) (l news : list A) k :
  update_nth (length l + k) f (l ++ news) = l ++ update_nth k f news.
Proof.
  induction l as [|x l IH]; cbn; [reflexivity|]. now rewrite IH.
Qed.

Lemma update_nth_last {A} (f : A -> A) (l : list A) x :
  update_nth (length l) f (l ++ [x]) = l ++ [f x].
Proof.
  induction l as [|y l IH]; cbn; [reflexivity|]. now rewrite IH.
Qed.

Lemma nth_error_last {A} (l : list A) x : nth_error (l ++ [x]) (length l) = Some x.
Proof.
  rewrite nth_error_app2 by lia. now rewrite Nat.sub_diag.
Qed.

Lemma run_edit_bones_getitem_old name l news p lg h :
  find_bone name l = Some h ->
  edit_bones_getitem name (mkScene EDIT (l ++ news) p lg) =
  (Ok h, mkScene EDIT (l ++ news) p lg).
Proof.
  intros H. unfold edit_bones_getitem, edit_bones. cbn.
  now rewrite (find_bone_app_old _ _ news _ H).
Qed.

(** [edit_bones.new]: one more bone, under the name the host gives. *)
Lemma run_edit_bones_new name l news p lg n :
  n = unique_name (map eb_name l ++ map eb_name news) name ->
  edit_bones_new name (mkScene EDIT (l ++ news) p lg) =
  (Ok (length l + length news),
   mkScene EDIT (l ++ (news ++ [mkEditBone n new_bone_geom None false new_bone_layer]))
           p lg).
Proof.
  intros ->. unfold edit_bones_new. cbn. now rewrite length_app, app_assoc, map_app.
Qed.

Lemma run_bone_attr_old {A} (f : EditBone -> A) m l news p lg h b :
  nth_error l h = Some b ->
  bone_attr f h (mkScene m (l ++ news) p lg) = (Ok (f b), mkScene m (l ++ news) p lg).
Proof.
  intros H. unfold bone_attr. cbn. now rewrite (nth_error_app_old _ news _ _ H).
Qed.

Lemma run_bone_attr_new {A} (f : EditBone -> A) m l news p lg k b :
  nth_error news k = Some b ->
  bone_attr f (length l + k) (mkScene m (l ++ news) p lg) =
  (Ok (f b), mkScene m (l ++ news) p lg).
Proof.
  intros H. unfold bone_attr. cbn. now rewrite nth_error_app_new, H.
Qed.

Lemma run_ebone_get_old {A} (f : EditBone -> A) m l news p lg h b :
  nth_error l h = Some b ->
  ebone_get f (Some h) (mkScene m (l ++ news) p lg) = (Ok (f b), mkScene m (l ++ news) p lg).
Proof. intros H. unfold ebone_get, bind, deref, ret. now apply run_bone_attr_old. Qed.

Lemma run_ebone_get_new {A} (f : EditBone -> A) m l news p lg k b :
  nth_error news k = Some b ->
  ebone_get f (Some (length l + k)) (mkScene m (l ++ news) p lg) =
  (Ok (f b), mkScene m (l ++ news) p lg).
Proof. intros H. unfold ebone_get, bind, deref, ret. now apply run_bone_attr_new. Qed.

Lemma run_ebone_set_new f m l news p lg k b :
  nth_error news k = Some b ->
  ebone_set f (Some (length l + k)) (mkScene m (l ++ news) p lg) =
  (Ok tt, mkScene m (l ++ update_nth k f news) p lg).
Proof.
  intros H. unfold ebone_set, bind, deref, ret, modify.
  rewrite (run_bone_attr_new eb_name m l news p lg k b H). cbn.
  now rewrite update_nth_app_new.
Qed.

Lemma run_ebone_set_last f m l news b p lg :
  ebone_set f (Some (length l + length news)) (mkScene m (l ++ (news ++ [b])) p lg) =
  (Ok tt, mkScene m (l ++ (news ++ [f b])) p lg).
Proof.
  rewrite (run_ebone_set_new f m l (news ++ [b]) p lg (length news) b (nth_error_last _ _)).
  now rewrite update_nth_last.
Qed.

Lemma run_bone_attr_last {A} (f : EditBone -> A) m l news b p lg :
  bone_attr f (length l + length news) (mkScene m (l ++ (news ++ [b])) p lg) =
  (Ok (f b), mkScene m (l ++ (news ++ [b])) p lg).
Proof. apply run_bone_attr_new, nth_error_last. Qed.

Lemma eqb_append_false (s t : string) :
  t <> "" -> String.eqb s (s ++ t) = false.
Proof.
  intros Ht. apply String.eqb_neq. intros H. apply Ht. clear Ht.
  induction s as [|c s IH]; cbn in H; [now symmetry|]. injection H as H. now apply IH.
Qed.

(** Renaming a new bone: it gets the name the host gives. *)
Lemma run_ebone_set_name_new v m l news p lg k b n :
  nth_error news k = Some b ->
  String.eqb (eb_name b) v = false ->
  n = unique_name (map eb_name l ++ map eb_name news) v ->
  ebone_set_name v (Some (length l + k)) (mkScene m (l ++ news) p lg) =
  (Ok tt, mkScene m (l ++ update_nth k (set_name n) news) p lg).
Proof.
  intros Hb Hne ->. unfold ebone_set_name, bind, deref, ret, modify.
  rewrite (run_bone_attr_new eb_name m l news p lg k b Hb). rewrite Hne. cbn.
  now rewrite update_nth_app_new, map_app.
Qed.

(** [copy_bone_simple] of a bone of the armature [ik] was given: one more
    bone, with the geometry and layers of the original and, when [parent]
    is set, its parent and connection. *)
Lemma run_copy_bone_simple from name parent l news p lg h b n :
  find_bone from l = Some h ->
  nth_error l h = Some b ->
  n = unique_name (map eb_name l ++ map eb_name news) name ->
  copy_bone_simple (Some from) name parent (mkScene EDIT (l ++ news) p lg) =
  (Ok (length l + length news),
   mkScene EDIT
     (l ++ (news ++ [mkEditBone n
                       (mkGeom (head (eb_geom b)) (tail (eb_geom b)) (roll (eb_geom b)))
                       (if parent then eb_parent b else None)
                       (if parent then eb_connected b else false)
                       (eb_layer b)]))
     p lg).
Proof.
  intros Hf Hb Hn. unfold copy_bone_simple.
  eapply bind_step; [reflexivity|]. cbv beta.
  eapply bind_step; [apply (run_edit_bones_getitem_old _ _ news p lg _ Hf)|]. cbv beta.
  eapply bind_step; [apply (run_edit_bones_new _ _ _ _ _ _ Hn)|]. cbv beta.
  assert (Hold : forall A (f : EditBone -> A) x,
             bone_attr f h (mkScene EDIT (l ++ (news ++ [x])) p lg) =
             (Ok (f b), mkScene EDIT (l ++ (news ++ [x])) p lg))
    by (intros; now apply run_bone_attr_old).
  destruct parent.
  - eapply bind_step.
    { eapply bind_step; [apply Hold|]. cbv beta.
      eapply bind_step; [apply run_ebone_set_last|]. cbv beta.
      eapply bind_step; [apply Hold|]. cbv beta.
      apply run_ebone_set_last. }
    cbv beta.
    eapply bind_step; [apply Hold|]. cbv beta.
    do 3 (eapply bind_step; [apply run_ebone_set_last|]; cbv beta).
    eapply bind_step; [apply Hold|]. cbv beta.
    eapply bind_step; [apply run_ebone_set_last|]. cbv beta.
    reflexivity.
  - eapply bind_step; [reflexivity|]. cbv beta.
    eapply bind_step; [apply Hold|]. cbv beta.
    do 3 (eapply bind_step; [apply run_ebone_set_last|]; cbv beta).
    eapply bind_step; [apply Hold|]. cbv beta.
    eapply bind_step; [apply run_ebone_set_last|]. cbv beta.
    reflexivity.
Qed.

(** ** More on metarig_definition *)

Lemma read_only_metarig_collect name : read_only (metarig_collect name).
Proof.
  unfold metarig_collect. apply read_only_bind; [apply read_only_bones_getitem|].
  intros h. apply read_only_bind; [apply read_only_bone_attr|].
  intros [p|]; [|intros st; reflexivity].
  apply read_only_bind; [apply read_only_bone_attr|]. intros pn.
  apply read_only_bind; [apply read_only_bone_attr|]. intros on.
  apply read_only_walk_chain.
Qed.

Lemma metarig_definition_of_topology obj name st h hips shin foot toe :
  wf_bones (bones st) = true ->
  find_bone name (bones st) = Some h ->
  leg_topology (bones st) h = Some (hips, shin, foot, toe) ->
  fst (metarig_definition obj name st) =
  Ok [bone_name_at (bones st) hips; name; bone_name_at (bones st) shin;
      bone_name_at (bones st) foot; bone_name_at (bones st) toe].
Proof.
  intros Hwf Hfind Htop. pose proof (metarig_collect_cases _ _ _ Hwf Hfind) as H.
  rewrite metarig_definition_collect. unfold leg_topology in Htop.
  destruct (parent_at (bones st) h) as [p|]; [|discriminate].
  destruct (single_child (bones st) h) as [c1|]; [|discriminate].
  destruct (single_child (bones st) c1) as [c2|]; [|discriminate].
  destruct (single_child (bones st) c2) as [c3|]; [|discriminate].
  injection Htop as <- <- <- <-. rewrite H. reflexivity.
Qed.

(** X1. A name that is not a bone of the armature: [metarig_definition]
    raises the [KeyError] of the lookup, not a [RigifyError], and changes
    nothing. *)
Theorem metarig_definition_missing_bone obj name st :
  find_bone name (bones st) = None ->
  metarig_definition obj name st = (Raise (KeyError name), st).
Proof.
  intros H. unfold metarig_definition, metarig_collect, bind, bones_getitem.
  now rewrite H.
Qed.

Lemma metarig_collect_cases_valid_parent name st h :
  (forall p, parent_at (bones st) h = Some p -> exists pb, nth_error (bones st) p = Some pb) ->
  find_bone name (bones st) = Some h ->
  match parent_at (bones st) h with
  | None =>
      metarig_collect name st =
      (Raise (RigifyError "expected the thigh bone to have a parent hip bone"), st)
  | Some p =>
      match single_child (bones st) h with
      | None => metarig_collect name st = (Raise fork_error, st)
      | Some c1 =>
          match single_child (bones st) c1 with
          | None => metarig_collect name st = (Raise fork_error, st)
          | Some c2 =>
              match single_child (bones st) c2 with
              | None => metarig_collect name st = (Raise fork_error, st)
              | Some c3 =>
                  metarig_collect name st =
                  (Ok [bone_name_at (bones st) p; name; bone_name_at (bones st) c1;
                       bone_name_at (bones st) c2; bone_name_at (bones st) c3], st)
              end
          end
      end
  end.
Proof.
  intros Hp Hfind.
  destruct (find_bone_some _ _ _ Hfind) as (b & Hb & Hname).
  unfold metarig_collect, bind, bones_getitem. rewrite Hfind.
  unfold parent_at in *. unfold bone_attr. rewrite Hb in *.
  destruct (eb_parent b) as [p|] eqn:Hpar; [|reflexivity].
  destruct (Hp p eq_refl) as (pb & Hpb).
  rewrite Hpb, Hb, Hname. cbn [app].
  replace (eb_name pb) with (bone_name_at (bones st) p)
    by (unfold bone_name_at; now rewrite Hpb).
  destruct (single_child (bones st) h) as [c1|] eqn:H1;
    [rewrite (walk_step_ok _ _ _ _ _ H1) | now rewrite (walk_step_fork _ _ _ _ H1)].
  destruct (single_child (bones st) c1) as [c2|] eqn:H2;
    [rewrite (walk_step_ok _ _ _ _ _ H2) | now rewrite (walk_step_fork _ _ _ _ H2)].
  destruct (single_child (bones st) c2) as [c3|] eqn:H3;
    [rewrite (walk_step_ok _ _ _ _ _ H3) | now rewrite (walk_step_fork _ _ _ _ H3)].
  reflexivity.
Qed.

(** X2. Which error: a bone without parent gives "expected the thigh bone
    to have a parent hip bone"; a bone with a parent whose chain forks or
    ends within the three steps of the walk gives "expected the thigh bone
    to have 3 children without a fork" -- also when it is the third bone,
    the foot, that has several children. *)
Theorem metarig_definition_error_message obj name st h :
  wf_bones (bones st) = true ->
  find_bone name (bones st) = Some h ->
  leg_topology (bones st) h = None ->
  metarig_definition obj name st =
  (Raise (RigifyError
            match parent_at (bones st) h with
            | None => "expected the thigh bone to have a parent hip bone"
            | Some _ => "expected the thigh bone to have 3 children without a fork"
            end), st).
Proof.
  intros Hwf Hfind Htop. pose proof (metarig_collect_cases _ _ _ Hwf Hfind) as H.
  rewrite metarig_definition_collect. unfold leg_topology, fork_error in *.
  destruct (parent_at (bones st) h) as [p|]; [|now rewrite H].
  destruct (single_child (bones st) h) as [c1|]; [|now rewrite H].
  destruct (single_child (bones st) c1) as [c2|]; [|now rewrite H].
  destruct (single_child (bones st) c2) as [c3|]; [|now rewrite H].
  discriminate.
Qed.

Lemma metarig_definition_ok_inv obj name st bd st' :
  metarig_definition obj name st = (Ok bd, st') ->
  st' = st /\
  exists h hips shin foot toe,
    find_bone name (bones st) = Some h /\
    leg_topology (bones st) h = Some (hips, shin, foot, toe) /\
    parent_at (bones st) h = Some hips /\
    nth_error (bones st) hips <> None /\
    parent_at (bones st) shin = Some h /\
    parent_at (bones st) foot = Some shin /\
    parent_at (bones st) toe = Some foot /\
    bd = [bone_name_at (bones st) hips; name; bone_name_at (bones st) shin;
          bone_name_at (bones st) foot; bone_name_at (bones st) toe].
Proof.
  intros H.
  assert (Hro : st' = st).
  { pose proof (read_only_metarig_collect name st) as Hro.
    rewrite metarig_definition_collect in H.
    destruct (metarig_collect name st) as [[d|e] s1]; cbn in Hro; subst s1;
      [destruct (negb _)|]; congruence. }
  subst st'. split; [reflexivity|].
  destruct (find_bone name (bones st)) as [h|] eqn:Hfind;
    [|revert H; unfold metarig_definition, metarig_collect, bind, bones_getitem;
      rewrite Hfind; discriminate].
  assert (Hp : forall p, parent_at (bones st) h = Some p ->
                         exists pb, nth_error (bones st) p = Some pb).
  { intros p Hp. destruct (nth_error (bones st) p) as [pb|] eqn:Hpb; [now exists pb|].
    exfalso. revert H. rewrite metarig_definition_collect.
    destruct (find_bone_some _ _ _ Hfind) as (b & Hb & _).
    unfold metarig_collect, bind, bones_getitem. rewrite Hfind.
    unfold parent_at in Hp. rewrite Hb in Hp.
    unfold bone_attr. rewrite Hb, Hp, Hpb. discriminate. }
  pose proof (metarig_collect_cases_valid_parent _ _ _ Hp Hfind) as Hc.
  rewrite metarig_definition_collect in H. unfold leg_topology, fork_error in *.
  destruct (parent_at (bones st) h) as [p|] eqn:Hpar; [|rewrite Hc in H; discriminate].
  destruct (single_child (bones st) h) as [c1|] eqn:H1; [|rewrite Hc in H; discriminate].
  destruct (single_child (bones st) c1) as [c2|] eqn:H2; [|rewrite Hc in H; discriminate].
  destruct (single_child (bones st) c2) as [c3|] eqn:H3; [|rewrite Hc in H; discriminate].
  rewrite Hc in H. cbn in H. injection H as <-.
  exists h, p, c1, c2, c3.
  assert (Hchild : forall a c, single_child (bones st) a = Some c ->
                               parent_at (bones st) c = Some a).
  { intros a c Ha. apply single_child_some in Ha.
    destruct (children_of_in (bones st) a c) as (b & Hb & Hbp); [rewrite Ha; now left|].
    unfold parent_at. now rewrite Hb. }
  repeat split; eauto.
  - now rewrite Hpar, H1, H2, H3.
  - destruct (Hp p eq_refl) as (pb & Hpb). now rewrite Hpb.
Qed.

(** X3. What a result of [metarig_definition] guarantees, on any armature:
    the state is unchanged, the name is a bone of the armature with the
    expected topology, and the result lists the names of the parent, the
    bone and its three successive single children, each the parent of the
    next. *)
Theorem metarig_definition_sound obj name st bd st' :
  metarig_definition obj name st = (Ok bd, st') ->
  st' = st /\
  exists h hips shin foot toe,
    find_bone name (bones st) = Some h /\
    leg_topology (bones st) h = Some (hips, shin, foot, toe) /\
    parent_at (bones st) h = Some hips /\
    nth_error (bones st) hips <> None /\
    parent_at (bones st) shin = Some h /\
    parent_at (bones st) foot = Some shin /\
    parent_at (bones st) toe = Some foot /\
    bd = [bone_name_at (bones st) hips; name; bone_name_at (bones st) shin;
          bone_name_at (bones st) foot; bone_name_at (bones st) toe].
Proof. exact (metarig_definition_ok_inv obj name st bd st'). Qed.

(** ** Mode switches and constraint creations *)

Lemma traces_ret {A} (a : A) p : traces p (ret a) [] p.
Proof. intros st x st' Hp [= _ <-]. now rewrite app_nil_r. Qed.

Lemma traces_raise {A} e p evs q : traces p (raise e : M A) evs q.
Proof. intros st x st' _ H. discriminate H. Qed.

Lemma traces_gets {A} (f : Scene -> A) p : traces p (gets f) [] p.
Proof. intros st x st' Hp [= _ <-]. now rewrite app_nil_r. Qed.

Lemma traces_bind {A B} (m : M A) (f : A -> M B) p e1 q e2 r :
  traces p m e1 q -> (forall a, traces q (f a) e2 r) -> traces p (bind m f) (e1 ++ e2) r.
Proof.
  intros Hm Hf st b st' Hp H. unfold bind in H.
  destruct (m st) as [[a|e] st1] eqn:E; [|discriminate].
  destruct (Hm _ _ _ Hp E) as [Hl Hq].
  destruct (Hf a _ _ _ Hq H) as [Hl' Hr].
  split; [|exact Hr]. now rewrite Hl', Hl, app_assoc.
Qed.

Lemma traces_bind_quiet {A B} (m : M A) (f : A -> M B) p q e r :
  traces p m [] q -> (forall a, traces q (f a) e r) -> traces p (bind m f) e r.
Proof. intros Hm Hf. exact (traces_bind m f p [] q e r Hm Hf). Qed.

Lemma traces_gets_mode {B} (f : Mode -> M B) p e r :
  traces p (f p) e r -> traces p (bind (gets mode) f) e r.
Proof.
  intros Hf st b st' Hp H. unfold bind, gets in H. rewrite Hp in H. exact (Hf st b st' Hp H).
Qed.

Lemma traces_deref {A} (o : option A) p : traces p (deref o) [] p.
Proof. destruct o; [apply traces_ret | apply traces_raise]. Qed.

Lemma traces_as_str o p : traces p (as_str o) [] p.
Proof. destruct o; [apply traces_ret | apply traces_raise]. Qed.

Lemma traces_bone_attr {A} (f : EditBone -> A) h p : traces p (bone_attr f h) [] p.
Proof.
  intros st x st' Hp. unfold bone_attr. destruct (nth_error (bones st) h); [|discriminate].
  intros [= _ <-]. now rewrite app_nil_r.
Qed.

Lemma traces_modify_bones (g : Scene -> list EditBone) p :
  traces p (modify (fun st => mkScene (mode st) (g st) (pose st) (log st))) [] p.
Proof. intros st x st' Hp [= _ <-]. cbn. now rewrite app_nil_r. Qed.

Lemma traces_modify_pose (g : Scene -> string -> list Constraint) p :
  traces p (modify (fun st => mkScene (mode st) (bones st) (g st) (log st))) [] p.
Proof. intros st x st' Hp [= _ <-]. cbn. now rewrite app_nil_r. Qed.

Create HintDb traces.
#[local] Hint Resolve traces_ret traces_raise traces_gets traces_deref traces_as_str
  traces_bone_attr traces_modify_bones traces_modify_pose : traces.

Ltac quiet :=
  first
    [ apply traces_ret
    | apply traces_raise
    | solve [auto with traces]
    | eapply traces_bind_quiet; [ quiet | intros; cbv zeta; quiet ] ].

Lemma traces_ebone_get {A} (f : EditBone -> A) e p : traces p (ebone_get f e) [] p.
Proof. unfold ebone_get. quiet. Qed.

Lemma traces_ebone_set f e p : traces p (ebone_set f e) [] p.
Proof. unfold ebone_set. quiet. Qed.

Lemma traces_ebone_set_name v e p : traces p (ebone_set_name v e) [] p.
Proof.
  unfold ebone_set_name.
  eapply traces_bind_quiet; [apply traces_deref|]. intros h.
  eapply traces_bind_quiet; [apply traces_bone_attr|]. intros current.
  destruct (String.eqb current v); [apply traces_ret | apply traces_modify_bones].
Qed.

Lemma traces_con_set f con p : traces p (con_set f con) [] p.
Proof. unfold con_set. apply traces_modify_pose. Qed.

Lemma traces_edit_bones_getitem name p : traces p (edit_bones_getitem name) [] p.
Proof.
  intros st x st' Hp. unfold edit_bones_getitem.
  destruct (find_bone name (edit_bones st)); [|discriminate].
  intros [= _ <-]. now rewrite app_nil_r.
Qed.

Lemma traces_edit_bones_new name p : traces p (edit_bones_new name) [] p.
Proof.
  intros st x st' Hp. unfold edit_bones_new.
  destruct (mode st) eqn:E; try discriminate.
  intros [= _ <-]. cbn. rewrite app_nil_r. split; congruence.
Qed.

Lemma traces_dict_getitem d k p : traces p (dict_getitem d k) [] p.
Proof.
  unfold dict_getitem. eapply traces_bind_quiet; [apply traces_as_str|]. intros s.
  destruct (find _ d); quiet.
Qed.

Lemma traces_mode_set m p : traces p (mode_set m) [EvModeSet m] m.
Proof. intros st x st' Hp [= _ <-]. cbn. now split. Qed.

Lemma traces_constraints_new pb t p :
  traces p (constraints_new pb t) [EvConstraintNew t] p.
Proof.
  unfold constraints_new. intros st x st' Hp. unfold bind, deref.
  destruct pb as [pb|]; [|discriminate]. cbn. intros [= _ <-]. cbn. now split.
Qed.

#[local] Hint Resolve traces_ebone_get traces_ebone_set traces_ebone_set_name traces_con_set
  traces_edit_bones_getitem
  traces_edit_bones_new traces_dict_getitem : traces.

Lemma traces_bone_class_instance obj slots p : traces p (bone_class_instance obj slots) [] p.
Proof. unfold bone_class_instance. destruct (has_duplicates slots); quiet. Qed.

Lemma traces_update c p : traces p (update c) [] p.
Proof.
  induction c as [|[a s] c IH]; cbn [update]; [quiet|].
  eapply traces_bind_quiet.
  - destruct (slot_name s); [|quiet]. unfold pose_bones_get, edit_bones_get. quiet.
  - intros s'. eapply traces_bind_quiet; [exact IH|]. intros. quiet.
Qed.

Lemma traces_attr_initialize_names attrs attr_names bone_names p :
  forall c, traces p (attr_initialize_names attrs attr_names bone_names c) [] p.
Proof.
  induction attrs as [|a attrs IH]; intros c; cbn [attr_initialize_names]; [quiet|].
  destruct (index_of a attr_names) as [i|]; [|quiet].
  destruct (nth_error bone_names i); [apply IH | quiet].
Qed.

#[local] Hint Resolve traces_bone_class_instance traces_update traces_attr_initialize_names : traces.

Lemma traces_attr_initialize c attr_names bone_names p :
  traces p (attr_initialize c attr_names bone_names) [] p.
Proof. unfold attr_initialize. quiet. Qed.

Lemma traces_copy_bone_simple from name parent p :
  traces p (copy_bone_simple from name parent) [] p.
Proof. unfold copy_bone_simple. destruct parent; quiet. Qed.

#[local] Hint Resolve traces_attr_initialize traces_copy_bone_simple : traces.

Lemma traces_copy_each from_bones p :
  forall to_bones, traces p (copy_each from_bones to_bones) [] p.
Proof.
  induction from_bones as [|f from_bones IH]; intros [|t to_bones]; cbn [copy_each]; quiet.
Qed.

Lemma traces_reparent_each from_bones copy_bones p :
  forall todo, traces p (reparent_each from_bones copy_bones todo) [] p.
Proof.
  induction todo as [|e todo IH]; cbn [reparent_each]; [quiet|].
  eapply traces_bind_quiet; [apply traces_bone_attr|]. intros parent.
  eapply traces_bind_quiet.
  - destruct parent as [ph|]; [|quiet].
    eapply traces_bind_quiet; [apply traces_gets|]. intros [pname|]; quiet.
  - intros [i|]; (eapply traces_bind_quiet; [apply traces_ebone_set|]); intros; exact IH.
Qed.

#[local] Hint Resolve traces_copy_each traces_reparent_each : traces.

Lemma traces_copy_bone_simple_list from_bones to_bones p :
  traces p (copy_bone_simple_list from_bones to_bones) [] p.
Proof. unfold copy_bone_simple_list. destruct (negb _); quiet. Qed.

Lemma traces_copy_names c bn p : forall attrs, traces p (copy_names c attrs bn) [] p.
Proof.
  induction attrs as [|a attrs IH]; cbn [copy_names]; [quiet|].
  eapply traces_bind_quiet; [apply traces_as_str|]. intros bone_name.
  eapply traces_bind_quiet; [destruct bn; quiet|]. intros new_name.
  eapply traces_bind_quiet; [exact IH|]. intros. quiet.
Qed.

Lemma traces_fill_copy p : forall attrs new_bones c, traces p (fill_copy attrs new_bones c) [] p.
Proof.
  induction attrs as [|a attrs IH]; intros [|e new_bones] c; cbn [fill_copy]; quiet.
Qed.

#[local] Hint Resolve traces_copy_bone_simple_list traces_copy_names traces_fill_copy : traces.

Lemma traces_copy obj c bn p : traces p (copy obj c bn) [] p.
Proof. unfold copy. quiet. Qed.

(** [rename] returns in edit mode only. *)
Lemma traces_rename c attr new_name p : traces p (rename c attr new_name) [] EDIT.
Proof.
  unfold rename. apply traces_gets_mode. destruct p; try apply traces_raise. quiet.
Qed.

Lemma traces_add_pole_target_bone obj base name :
  traces EDIT (add_pole_target_bone obj base name) [EvModeSet EDIT; EvModeSet EDIT] EDIT.
Proof.
  unfold add_pole_target_bone. apply traces_gets_mode.
  eapply (traces_bind _ _ EDIT [EvModeSet EDIT] EDIT [EvModeSet EDIT] EDIT);
    [apply traces_mode_set|]. intros _.
  do 9 (eapply traces_bind_quiet; [solve [auto with traces]|]; intros).
  eapply (traces_bind _ _ EDIT [EvModeSet EDIT] EDIT [] EDIT); [apply traces_mode_set|].
  intros _. apply traces_ret.
Qed.

#[local] Hint Resolve traces_copy : traces.

Lemma traces_ik (Options : Type) obj bd bn (opts : Options) p :
  traces p (ik obj bd bn opts) ik_events EDIT.
Proof.
  unfold ik, ik_events.
  do 5 (eapply traces_bind_quiet; [solve [auto with traces]|]; intros).
  do 4 (eapply traces_bind_quiet; [solve [auto with traces]|]; intros).
  eapply traces_bind_quiet; [apply traces_rename|]. intros.
  do 4 (eapply traces_bind_quiet; [solve [auto with traces]|]; intros).
  eapply (traces_bind _ _ EDIT [_; _] EDIT); [apply traces_add_pole_target_bone|].
  intros; cbv zeta.
  repeat first
    [ eapply traces_bind_quiet; [solve [auto with traces]|]; intros; cbv zeta
    | eapply (traces_bind _ _ _ [_] _);
      [ first [apply traces_mode_set | apply traces_constraints_new] | intros; cbv zeta ] ].
  apply traces_ret.
Qed.


(** C7. Every call of [ik] that returns leaves the rig in edit mode; it
    switches to object mode exactly once, before it creates any constraint,
    and its last host call switches back to edit mode: whatever precedes the
    switch to object mode neither switches to object mode nor creates a
    constraint, and between the two switches there are only constraint
    creations. *)
Theorem ik_mode_discipline (Options : Type) obj bd bn (opts : Options) st r st' :
  ik obj bd bn opts st = (Ok r, st') ->
  mode st' = EDIT /\
  exists before constraints,
    log st' = log st ++ before ++ [EvModeSet OBJECT] ++ constraints ++ [EvModeSet EDIT] /\
    existsb (is_mode_set OBJECT) before = false /\
    existsb is_constraint_new before = false /\
    forallb is_constraint_new constraints = true.
Proof.
  intros H. destruct (traces_ik Options obj bd bn opts (mode st) st r st' eq_refl H) as [Hl Hm].
  split; [exact Hm|].
  exists [EvModeSet EDIT; EvModeSet EDIT].
  exists [EvConstraintNew COPY_ROTATION; EvConstraintNew COPY_ROTATION;
          EvConstraintNew COPY_ROTATION; EvConstraintNew COPY_ROTATION;
          EvConstraintNew COPY_ROTATION; EvConstraintNew IK].
  repeat split. exact Hl.
Qed.

(** ** Running [ik] on a valid input

    The call is run command by command; [exec] picks for each command the
    lemma that runs it on the grown armature and simplifies what it
    leaves. *)

Arguments bind : simpl never.
Arguments ebone_set : simpl never.
Arguments ebone_set_name : simpl never.
Arguments ebone_get : simpl never.
Arguments unique_name : simpl never.
Arguments bone_attr : simpl never.
Arguments edit_bones_new : simpl never.
Arguments edit_bones_getitem : simpl never.
Arguments edit_bones_get : simpl never.
Arguments pose_bones_get : simpl never.
Arguments constraints_new : simpl never.
Arguments con_set : simpl never.
Arguments mode_set : simpl never.
Arguments dict_getitem : simpl never.
Arguments copy_bone_simple : simpl never.
Arguments add_pole_target_bone : simpl never.
Arguments rename : simpl never.
Arguments update : simpl never.
Arguments attr_initialize : simpl never.
Arguments copy : simpl never.
Arguments bone_class_instance : simpl never.
Arguments as_str : simpl never.
Arguments ret : simpl never.
Arguments gets : simpl never.
Arguments String.append : simpl never.
Arguments pose_update : simpl never.


Lemma run_update c st : update c st = (Ok (resolve st c), st).
Proof.
  induction c as [|[a s] c IH]; [reflexivity|].
  change (update ((a, s) :: c)) with
    (bind (match slot_name s with
           | None => ret s
           | Some name =>
               bind (pose_bones_get name) (fun p =>
               bind (edit_bones_get name) (fun e => ret (mkSlot (Some name) e p)))
           end)
          (fun s' => bind (update c) (fun c'' => ret ((a, s') :: c'')))).
  unfold resolve, resolve_slot. cbn [map fst snd].
  destruct (slot_name s) as [name|];
    cbv [bind pose_bones_get edit_bones_get gets ret]; rewrite IH; reflexivity.
Qed.

Lemma nodup_eqb_false (L : list string) :
  NoDup L -> forall i j a b,
  nth_error L i = Some a -> nth_error L j = Some b -> i <> j -> String.eqb a b = false.
Proof.
  intros HL i j a b Ha Hb Hij. apply String.eqb_neq. intros ->.
  apply Hij. apply (proj1 (NoDup_nth_error L) HL); [|congruence].
  apply nth_error_Some. congruence.
Qed.

Ltac index_in x L :=
  lazymatch L with
  | x :: _ => constr:(0)
  | _ :: ?L' => let n := index_in x L' in constr:(S n)
  end.

Ltac kill_eqb HND :=
  repeat match goal with
  | |- context [String.eqb ?a ?b] =>
      first
        [ rewrite (String.eqb_refl a)
        | lazymatch type of HND with
          | NoDup ?L =>
              let i := index_in a L in
              let j := index_in b L in
              rewrite (nodup_eqb_false L HND i j a b eq_refl eq_refl ltac:(discriminate))
          end ]
  end.

Lemma run_base_name bn k v st :
  lookup_base bn k = Some v ->
  (match bn with [] => ret k | _ :: _ => dict_getitem bn (Some k) end) st = (Ok v, st).
Proof.
  unfold lookup_base, dict_getitem. destruct bn as [|kv bn]; [discriminate|].
  intros H. unfold bind, as_str, ret.
  destruct (find _ (kv :: bn)) as [x|]; [|discriminate]. cbn in H. now injection H as ->.
Qed.

Lemma run_dict_getitem bn k v st :
  lookup_base bn k = Some v -> dict_getitem bn (Some k) st = (Ok v, st).
Proof.
  unfold lookup_base, dict_getitem. intros H. unfold bind, as_str, ret.
  destruct (find _ bn) as [x|]; [|discriminate]. cbn in H. now injection H as ->.
Qed.

Lemma bind_assoc_step {A B C} (m : M A) (f : A -> M B) (k : B -> M C) st res :
  bind m (fun a => bind (f a) k) st = res -> bind (bind m f) k st = res.
Proof. unfold bind. destruct (m st) as [[a|e] st1]; [|easy]. easy. Qed.

Lemma pose_update_same k f (m : string -> list Constraint) :
  pose_update k f m k = f (m k).
Proof. unfold pose_update. now rewrite String.eqb_refl. Qed.

Lemma pose_update_other k f (m : string -> list Constraint) x :
  String.eqb x k = false -> pose_update k f m x = m x.
Proof. unfold pose_update. now intros ->. Qed.

Ltac in_names := unfold ik_bone_names; cbn [In]; repeat first [left; reflexivity | right].

Ltac tidy HND :=
  progress (
    repeat match goal with
    | H : nth_error ?l ?i = Some ?b |- context [nth_error (?l ++ ?news) ?i] =>
        rewrite (nth_error_app_old l news i b H)
    | H : find_bone ?n ?l = Some ?i |- context [find_bone ?n (?l ++ ?news)] =>
        rewrite (find_bone_app_old n l news i H)
    | H : forall x, In x _ -> find_bone x ?l = None |- context [find_bone ?n (?l ++ ?news)] =>
        rewrite (find_bone_app_new n l news (H n ltac:(in_names)))
    end;
    kill_eqb HND;
    repeat match goal with
    | |- context [pose_update ?k ?f ?m ?x] =>
        first
          [ rewrite (pose_update_same k f m)
          | lazymatch type of HND with
            | NoDup ?L =>
                let i := index_in x L in
                let j := index_in k L in
                rewrite (pose_update_other k f m x
                           (nodup_eqb_false L HND i j x k eq_refl eq_refl ltac:(discriminate)))
            end ]
    end;
    cbn).


Arguments set_name {MU} _ !_ /.
Arguments set_geom {MU} _ !_ /.
Arguments set_parent {MU} _ !_ /.
Arguments set_connected {MU} _ !_ /.
Arguments set_layer {MU} _ !_ /.
Arguments on_geom {MU} _ !_ /.

Ltac exec HND :=
  repeat first
    [ tidy HND
    | lazymatch goal with
      | |- bind (bind _ _) _ _ = _ => apply bind_assoc_step
      end
    | lazymatch goal with
      | |- bind _ _ _ = _ => eapply bind_step; [ solve [prim HND] | cbv beta; cbn ]
      end ];
  try (lazymatch goal with |- ret _ _ = _ => reflexivity end)
with prim HND :=
  lazymatch goal with
  | |- edit_bones_new _ _ = _ =>
      eapply run_edit_bones_new; cbn [map eb_name app]; eassumption
  | |- ebone_set_name _ _ _ = _ =>
      eapply run_ebone_set_name_new;
      [ reflexivity
      | apply eqb_append_false; discriminate
      | cbn [map eb_name app]; eassumption ]
  | |- ebone_set _ _ _ = _ => eapply run_ebone_set_new; reflexivity
  | |- ebone_get _ _ _ = _ =>
      first [ eapply run_ebone_get_new; reflexivity
            | eapply run_ebone_get_old; eassumption ]
  | |- bone_attr _ _ _ = _ =>
      first [ eapply run_bone_attr_new; reflexivity
            | eapply run_bone_attr_old; eassumption ]
  | |- copy_bone_simple _ _ _ _ = _ =>
      eapply run_copy_bone_simple;
      [ eassumption | eassumption | cbn [map eb_name app]; eassumption ]
  | |- update _ _ = _ => apply run_update
  | |- dict_getitem _ _ _ = _ => eapply run_dict_getitem; eassumption
  | |- match _ with [] => _ | _ :: _ => _ end _ = _ => eapply run_base_name; eassumption
  | |- rename _ _ _ _ = _ => unfold rename; exec HND
  | |- add_pole_target_bone _ _ _ _ = _ => unfold add_pole_target_bone; exec HND
  | |- edit_bones_getitem _ _ = _ => eapply run_edit_bones_getitem_old; eassumption
  | |- ret _ _ = _ => reflexivity
  | |- as_str _ _ = _ => reflexivity
  | |- gets _ _ = _ => reflexivity
  | |- bone_class_instance _ _ _ = _ => reflexivity
  | |- attr_initialize_names _ _ _ _ _ = _ => reflexivity
  | |- mode_set _ _ = _ => reflexivity
  | |- constraints_new _ _ _ = _ => reflexivity
  | |- con_set _ _ _ = _ => reflexivity
  end.

Ltac peel HND :=
  repeat match goal with
  | |- context [pose_update ?k ?f ?m ?x] =>
      first
        [ rewrite (pose_update_same k f m)
        | match goal with
          | H : String.eqb x k = false |- _ => rewrite (pose_update_other k f m x H)
          end
        | lazymatch type of HND with
          | NoDup ?L =>
              let i := index_in x L in
              let j := index_in k L in
              rewrite (pose_update_other k f m x
                         (nodup_eqb_false L HND i j x k eq_refl eq_refl ltac:(discriminate)))
          end ]
  end.


Lemma ik_run_grown (Options : Type) obj (opts : Options) l p lg h t s f o ih it ish ifo io bn bt bs bf bo
  gh ph ch lh gt ct lt gs cs ls gf cf lf go co lo n1 n2 n3 n4 n3' n5 n6 n7 n8 n9 :
  find_bone h l = Some ih -> find_bone t l = Some it -> find_bone s l = Some ish ->
  find_bone f l = Some ifo -> find_bone o l = Some io ->
  nth_error l ih = Some (mkEditBone h gh ph ch lh) ->
  nth_error l it = Some (mkEditBone t gt (Some ih) ct lt) ->
  nth_error l ish = Some (mkEditBone s gs (Some it) cs ls) ->
  nth_error l ifo = Some (mkEditBone f gf (Some ish) cf lf) ->
  nth_error l io = Some (mkEditBone o go (Some ifo) co lo) ->
  lookup_base bn t = Some bt -> lookup_base bn s = Some bs ->
  lookup_base bn f = Some bf -> lookup_base bn o = Some bo ->
  n1 = unique_name (map eb_name l ++ []) bt ->
  n2 = unique_name (map eb_name l ++ [n1]) bs ->
  n3 = unique_name (map eb_name l ++ [n1; n2]) bf ->
  n4 = unique_name (map eb_name l ++ [n1; n2; n3]) bo ->
  n3' = unique_name (map eb_name l ++ [n1; n2; n3; n4]) (n3 ++ "_ik") ->
  n5 = unique_name (map eb_name l ++ [n1; n2; n3'; n4]) "knee_target" ->
  n6 = unique_name (map eb_name l ++ [n1; n2; n3'; n4; n5]) (bf ++ "_roll") ->
  n7 = unique_name (map eb_name l ++ [n1; n2; n3'; n4; n5; n6]) ("MCH-" ++ bf) ->
  n8 = unique_name (map eb_name l ++ [n1; n2; n3'; n4; n5; n6; n7]) (bf ++ "_ik_target") ->
  n9 = unique_name (map eb_name l ++ [n1; n2; n3'; n4; n5; n6; n7; n8])
                   ("MCH-" ++ bf ++ "_02") ->
  NoDup [h; t; s; f; o; n1; n2; n3'; n4; n5; n6; n7; n8; n9] ->
  (forall x, In x [n1; n2; n3'; n4; n5; n6; n7; n8; n9] -> find_bone x l = None) ->
  exists pose' lg',
    ik obj [h;t;s;f;o] bn opts (mkScene EDIT (l ++ []) p lg) =
    (Ok [None; Some n1; Some n2; Some n3'; Some n4],
     mkScene EDIT
       (l ++ ik_bones_named (length l) ih
               (mkEditBone t gt (Some ih) ct lt) (mkEditBone s gs (Some it) cs ls)
               (mkEditBone f gf (Some ish) cf lf) (mkEditBone o go (Some ifo) co lo)
               (mkIkNames n1 n2 n3' n4 n5 n6 n7 n8 n9))
       pose' lg') /\
    lg' = lg ++ ik_events /\
    forall n, pose' n =
              ik_pose_named obj t s f o (mkIkNames n1 n2 n3' n4 n5 n6 n7 n8 n9) p n.
Proof.
  intros Hh Ht Hs Hf Ho HBh HBt HBs HBf HBo Lt Ls Lf Lo
         Hn1 Hn2 Hn3 Hn4 Hn3' Hn5 Hn6 Hn7 Hn8 Hn9 HND Hfresh.
  do 2 eexists. split; [|split].
  - unfold ik, attr_initialize, copy. exec HND.
  - unfold ik_events. cbn [app]. rewrite <- !app_assoc. reflexivity.
  - intros n. unfold ik_pose_named, push_con.
    cbn [nm_thigh nm_shin nm_foot nm_toe nm_knee_target nm_foot_roll nm_foot_roll_01
         nm_foot_target nm_foot_roll_02].
    destruct (String.eqb_spec n n2) as [->|Hbs];
      [peel HND; rewrite !update_nth_last; reflexivity | apply String.eqb_neq in Hbs].
    destruct (String.eqb_spec n n7) as [->|Hmch];
      [peel HND; rewrite !update_nth_last; reflexivity | apply String.eqb_neq in Hmch].
    destruct (String.eqb_spec n o) as [->|Hno];
      [peel HND; rewrite !update_nth_last; reflexivity | apply String.eqb_neq in Hno].
    destruct (String.eqb_spec n f) as [->|Hnf];
      [peel HND; rewrite !update_nth_last; reflexivity | apply String.eqb_neq in Hnf].
    destruct (String.eqb_spec n s) as [->|Hns];
      [peel HND; rewrite !update_nth_last; reflexivity | apply String.eqb_neq in Hns].
    destruct (String.eqb_spec n t) as [->|Hnt];
      [peel HND; rewrite !update_nth_last; reflexivity | apply String.eqb_neq in Hnt].
    peel HND. reflexivity.
Qed.

(** ** From a valid input to the run of [ik] *)

Lemma has_duplicates_NoDup l : has_duplicates l = false -> NoDup l.
Proof.
  induction l as [|x l IH]; cbn; [constructor|].
  intros H. apply orb_false_iff in H. destruct H as [H1 H2].
  constructor; [|now apply IH].
  intros Hin. assert (existsb (String.eqb x) l = true); [|congruence].
  apply existsb_exists. exists x. split; [exact Hin | apply String.eqb_refl].
Qed.

Lemma distinct_NoDup l : distinct l = true -> NoDup l.
Proof. unfold distinct. intros H. apply has_duplicates_NoDup. now apply negb_true_iff. Qed.

Lemma parent_is_true l c p :
  parent_is l c p = true -> exists b, nth_error l c = Some b /\ eb_parent b = Some p.
Proof.
  unfold parent_is, parent_at. destruct (nth_error l c) as [b|]; [|discriminate].
  destruct (eb_parent b) as [q|] eqn:E; [|discriminate]. intros H. apply Nat.eqb_eq in H.
  subst. now exists b.
Qed.

Lemma ik_valid_shape st bd bn :
  ik_valid st bd bn = true ->
  exists h t s f o ih it ish ifo io gh ph ch lh gt ct lt gs cs ls gf cf lf go co lo bt bs bf bo,
    mode st = EDIT /\ bd = [h; t; s; f; o] /\
    find_bone h (bones st) = Some ih /\ find_bone t (bones st) = Some it /\
    find_bone s (bones st) = Some ish /\ find_bone f (bones st) = Some ifo /\
    find_bone o (bones st) = Some io /\
    nth_error (bones st) ih = Some (mkEditBone h gh ph ch lh) /\
    nth_error (bones st) it = Some (mkEditBone t gt (Some ih) ct lt) /\
    nth_error (bones st) ish = Some (mkEditBone s gs (Some it) cs ls) /\
    nth_error (bones st) ifo = Some (mkEditBone f gf (Some ish) cf lf) /\
    nth_error (bones st) io = Some (mkEditBone o go (Some ifo) co lo) /\
    lookup_base bn t = Some bt /\ lookup_base bn s = Some bs /\
    lookup_base bn f = Some bf /\ lookup_base bn o = Some bo /\
    NoDup bd.
Proof.
  unfold ik_valid. destruct (mode st) eqn:Hmode; try discriminate.
  destruct bd as [|h [|t [|s [|f [|o [|x bd]]]]]]; try discriminate.
  destruct (find_bone h (bones st)) as [ih|] eqn:Hh; [|discriminate].
  destruct (find_bone t (bones st)) as [it|] eqn:Ht; [|discriminate].
  destruct (find_bone s (bones st)) as [ish|] eqn:Hs; [|discriminate].
  destruct (find_bone f (bones st)) as [ifo|] eqn:Hf; [|discriminate].
  destruct (find_bone o (bones st)) as [io|] eqn:Ho; [|discriminate].
  destruct (lookup_base bn t) as [bt|] eqn:Lt; [|discriminate].
  destruct (lookup_base bn s) as [bs|] eqn:Ls; [|discriminate].
  destruct (lookup_base bn f) as [bf|] eqn:Lf; [|discriminate].
  destruct (lookup_base bn o) as [bo|] eqn:Lo; [|discriminate].
  intros H. repeat (apply andb_true_iff in H; destruct H as [H ?]).
  destruct (find_bone_some _ _ _ Hh) as ([nh gh ph ch lh] & HBh & Hnh).
  destruct (find_bone_some _ _ _ Ht) as ([nt gt pt ct lt] & HBt & Hnt).
  destruct (find_bone_some _ _ _ Hs) as ([ns gs ps cs ls] & HBs & Hns).
  destruct (find_bone_some _ _ _ Hf) as ([nf gf pf cf lf] & HBf & Hnf).
  destruct (find_bone_some _ _ _ Ho) as ([no go po co lo] & HBo & Hno).
  cbn in Hnh, Hnt, Hns, Hnf, Hno. subst nh nt ns nf no.
  repeat match goal with
  | Hp : parent_is _ _ _ = true |- _ =>
      destruct (parent_is_true _ _ _ Hp) as (? & ? & ?); clear Hp
  end.
  repeat match goal with
  | H1 : nth_error ?l ?i = Some ?a, H2 : nth_error ?l ?i = Some ?b |- _ =>
      rewrite H1 in H2; injection H2 as <-
  end.
  cbn in *. subst.
  do 30 eexists.
  repeat (split; [first [eassumption | reflexivity]|]).
  now apply distinct_NoDup.
Qed.

Lemma find_bone_nth L : NoDup (map eb_name L) ->
  forall i b, nth_error L i = Some b -> find_bone (eb_name b) L = Some i.
Proof.
  induction L as [|x L IH]; intros HL i b Hi; [now destruct i|].
  cbn in HL. inversion HL as [|? ? Hx HL']; subst. cbn.
  destruct i as [|i]; cbn in Hi.
  - injection Hi as ->. now rewrite String.eqb_refl.
  - destruct (String.eqb_spec (eb_name x) (eb_name b)) as [E|_].
    + exfalso. apply Hx. rewrite E. apply in_map. eapply nth_error_In; eassumption.
    + now rewrite (IH HL' i b Hi).
Qed.

Lemma find_bone_in_names name l i :
  find_bone name l = Some i -> In name (map eb_name l).
Proof.
  intros H. destruct (find_bone_some _ _ _ H) as (b & Hb & <-).
  apply in_map. eapply nth_error_In; eassumption.
Qed.

(** The names the host gives in a call of [ik] are different from each
    other and from the names the armature had. *)
Lemma ik_granted_fresh taken bt bs bf bo :
  NoDup (ik_names_list (ik_granted taken bt bs bf bo)) /\
  forall x, In x (ik_names_list (ik_granted taken bt bs bf bo)) -> ~ In x taken.
Proof.
  unfold ik_granted, ik_names_list.
  cbn [nm_thigh nm_shin nm_foot nm_toe nm_knee_target nm_foot_roll nm_foot_roll_01
       nm_foot_target nm_foot_roll_02].
  set (n1 := unique_name taken bt).
  set (n2 := unique_name (taken ++ [n1]) bs).
  set (n3 := unique_name (taken ++ [n1; n2]) bf).
  set (n4 := unique_name (taken ++ [n1; n2; n3]) bo).
  set (n3' := unique_name (taken ++ [n1; n2; n3; n4]) (n3 ++ "_ik")).
  set (n5 := unique_name (taken ++ [n1; n2; n3'; n4]) "knee_target").
  set (n6 := unique_name (taken ++ [n1; n2; n3'; n4; n5]) (bf ++ "_roll")).
  set (n7 := unique_name (taken ++ [n1; n2; n3'; n4; n5; n6]) ("MCH-" ++ bf)).
  set (n8 := unique_name (taken ++ [n1; n2; n3'; n4; n5; n6; n7]) (bf ++ "_ik_target")).
  set (n9 := unique_name (taken ++ [n1; n2; n3'; n4; n5; n6; n7; n8])
                         ("MCH-" ++ bf ++ "_02")).
  pose proof (unique_name_fresh taken bt : ~ In n1 _) as F1.
  pose proof (unique_name_fresh (taken ++ [n1]) bs : ~ In n2 _) as F2.
  pose proof (unique_name_fresh (taken ++ [n1; n2; n3]) bo : ~ In n4 _) as F4.
  pose proof (unique_name_fresh (taken ++ [n1; n2; n3; n4]) (n3 ++ "_ik") : ~ In n3' _) as F3.
  pose proof (unique_name_fresh (taken ++ [n1; n2; n3'; n4]) "knee_target" : ~ In n5 _) as F5.
  pose proof (unique_name_fresh (taken ++ [n1; n2; n3'; n4; n5]) (bf ++ "_roll")
              : ~ In n6 _) as F6.
  pose proof (unique_name_fresh (taken ++ [n1; n2; n3'; n4; n5; n6]) ("MCH-" ++ bf)
              : ~ In n7 _) as F7.
  pose proof (unique_name_fresh (taken ++ [n1; n2; n3'; n4; n5; n6; n7]) (bf ++ "_ik_target")
              : ~ In n8 _) as F8.
  pose proof (unique_name_fresh (taken ++ [n1; n2; n3'; n4; n5; n6; n7; n8])
                                ("MCH-" ++ bf ++ "_02") : ~ In n9 _) as F9.
  clearbody n1 n2 n3 n4 n3' n5 n6 n7 n8 n9.
  rewrite in_app_iff in F2, F4, F3, F5, F6, F7, F8, F9. cbn [In] in *.
  split.
  - repeat constructor; cbn [In]; intuition congruence.
  - intros x Hx. intuition congruence.
Qed.

Lemma NoDup_app_disjoint (A B : list string) :
  NoDup A -> NoDup B -> (forall x, In x B -> ~ In x A) -> NoDup (A ++ B).
Proof.
  intros HA HB H. apply NoDup_app; [exact HA | exact HB |].
  intros a Ha Hb. exact (H a Hb Ha).
Qed.

(** The run of [ik] on a valid input, whatever names are in use: the
    armature grows by the nine bones, under the names the host gives. *)
Lemma ik_run_valid (Options : Type) obj (opts : Options) st bd bn :
  ik_valid st bd bn = true ->
  exists h t s f o ih it ish ifo io gh ph ch lh gt ct lt gs cs ls gf cf lf go co lo
         bt bs bf bo names pose',
    bd = [h; t; s; f; o] /\
    find_bone h (bones st) = Some ih /\ find_bone t (bones st) = Some it /\
    find_bone s (bones st) = Some ish /\ find_bone f (bones st) = Some ifo /\
    find_bone o (bones st) = Some io /\
    nth_error (bones st) ih = Some (mkEditBone h gh ph ch lh) /\
    nth_error (bones st) it = Some (mkEditBone t gt (Some ih) ct lt) /\
    nth_error (bones st) ish = Some (mkEditBone s gs (Some it) cs ls) /\
    nth_error (bones st) ifo = Some (mkEditBone f gf (Some ish) cf lf) /\
    nth_error (bones st) io = Some (mkEditBone o go (Some ifo) co lo) /\
    lookup_base bn t = Some bt /\ lookup_base bn s = Some bs /\
    lookup_base bn f = Some bf /\ lookup_base bn o = Some bo /\
    names = ik_granted (map eb_name (bones st)) bt bs bf bo /\
    NoDup ([h; t; s; f; o] ++ ik_names_list names) /\
    NoDup (ik_names_list names) /\
    (forall x, In x (ik_names_list names) -> find_bone x (bones st) = None) /\
    ik obj bd bn opts st =
    (Ok [None; Some (nm_thigh names); Some (nm_shin names); Some (nm_foot names);
         Some (nm_toe names)],
     mkScene EDIT
       (bones st ++ ik_bones_named (length (bones st)) ih
          (mkEditBone t gt (Some ih) ct lt) (mkEditBone s gs (Some it) cs ls)
          (mkEditBone f gf (Some ish) cf lf) (mkEditBone o go (Some ifo) co lo)
          names)
       pose' (log st ++ ik_events)) /\
    forall n, pose' n = ik_pose_named obj t s f o names (pose st) n.
Proof.
  intros Hvalid.
  destruct (ik_valid_shape _ _ _ Hvalid) as
    (h & t & s & f & o & ih & it & ish & ifo & io & gh & ph & ch & lh & gt & ct & lt
     & gs & cs & ls & gf & cf & lf & go & co & lo & bt & bs & bf & bo
     & Hmode & Hbd & Hh & Ht & Hs & Hf & Ho & HBh & HBt & HBs & HBf & HBo
     & Lt & Ls & Lf & Lo & HNbd).
  destruct st as [m l p lg]. cbn [mode bones pose log] in *. subst m bd.
  destruct (ik_granted_fresh (map eb_name l) bt bs bf bo) as [HNn Hnew].
  assert (Hfresh : forall x, In x (ik_names_list (ik_granted (map eb_name l) bt bs bf bo)) ->
                             find_bone x l = None)
    by (intros x Hx; apply find_bone_none; now apply Hnew).
  assert (HND : NoDup ([h; t; s; f; o] ++
                       ik_names_list (ik_granted (map eb_name l) bt bs bf bo))).
  { apply NoDup_app_disjoint; [exact HNbd | exact HNn |].
    intros x Hx Hin. apply (Hnew x Hx). cbn in Hin.
    destruct Hin as [<-|[<-|[<-|[<-|[<-|[]]]]]]; eapply find_bone_in_names; eassumption. }
  destruct (ik_run_grown Options obj opts l p lg h t s f o ih it ish ifo io bn bt bs bf bo
              gh ph ch lh gt ct lt gs cs ls gf cf lf go co lo
              (nm_thigh (ik_granted (map eb_name l) bt bs bf bo))
              (nm_shin (ik_granted (map eb_name l) bt bs bf bo))
              (ik_foot_copy (map eb_name l) bt bs bf)
              (nm_toe (ik_granted (map eb_name l) bt bs bf bo))
              (nm_foot (ik_granted (map eb_name l) bt bs bf bo))
              (nm_knee_target (ik_granted (map eb_name l) bt bs bf bo))
              (nm_foot_roll (ik_granted (map eb_name l) bt bs bf bo))
              (nm_foot_roll_01 (ik_granted (map eb_name l) bt bs bf bo))
              (nm_foot_target (ik_granted (map eb_name l) bt bs bf bo))
              (nm_foot_roll_02 (ik_granted (map eb_name l) bt bs bf bo))
              Hh Ht Hs Hf Ho HBh HBt HBs HBf HBo Lt Ls Lf Lo
              ltac:(now rewrite app_nil_r)
              eq_refl eq_refl eq_refl eq_refl eq_refl eq_refl eq_refl eq_refl eq_refl
              HND Hfresh)
    as (pose' & lg' & Hrun & Hlg & Hpose).
  rewrite app_nil_r in Hrun. subst lg'.
  exists h, t, s, f, o, ih, it, ish, ifo, io, gh, ph, ch, lh, gt, ct, lt, gs, cs, ls,
    gf, cf, lf, go, co, lo, bt, bs, bf, bo, (ik_granted (map eb_name l) bt bs bf bo), pose'.
  repeat (split; [first [assumption | reflexivity]|]). exact Hpose.
Qed.

Lemma copy_geom_id (g : Geom) : copy_geom g = g.
Proof. now destruct g. Qed.

(** ** The armature after [ik] *)

Lemma ik_bone_named_new m l p lg ih Bt Bs Bf Bo names :
  NoDup (ik_names_list names) ->
  (forall x, In x (ik_names_list names) -> find_bone x l = None) ->
  forall k b,
    nth_error (ik_bones_named (length l) ih Bt Bs Bf Bo names) k = Some b ->
    bone_named (mkScene m (l ++ ik_bones_named (length l) ih Bt Bs Bf Bo names) p lg)
               (eb_name b) = Some b.
Proof.
  intros HN Hfresh k b Hk. unfold bone_named. cbn [bones].
  assert (Hin : In (eb_name b) (ik_names_list names)).
  { change (ik_names_list names)
      with (map eb_name (ik_bones_named (length l) ih Bt Bs Bf Bo names)).
    apply in_map. eapply nth_error_In; eassumption. }
  rewrite (find_bone_app_new _ _ _ (Hfresh _ Hin)).
  rewrite (find_bone_nth (ik_bones_named (length l) ih Bt Bs Bf Bo names) HN k b Hk).
  cbn [option_map]. now rewrite nth_error_app_new.
Qed.

Lemma ik_old_bone_named m l news p lg name i :
  find_bone name l = Some i ->
  bone_named (mkScene m (l ++ news) p lg) name = nth_error l i.
Proof.
  intros H. unfold bone_named. cbn [bones]. rewrite (find_bone_app_old _ _ news _ H).
  destruct (find_bone_some _ _ _ H) as (b & Hb & _).
  now rewrite (nth_error_app_old _ news _ _ Hb).
Qed.

Ltac named_bone HNn Hfresh k :=
  rewrite (ik_bone_named_new _ _ _ _ _ _ _ _ _ _ HNn Hfresh k _ eq_refl).

(** The run of [ik] on a valid input, with the bones of the chain and their
    base names as the statement at hand calls them. *)
Ltac ik_valid_cases Options obj opts st bd bn Hvalid Hbd L1 L2 L3 L4 :=
  let h := fresh "h" in
  destruct (ik_run_valid Options obj opts st bd bn Hvalid) as
    (h & t & s & f & o & ih & it & ish & ifo & io & gh & ph & ch & lh & gt & ct & lt
     & gs & cs & ls & gf & cf & lf & go & co & lo & bt' & bs' & bf' & bo' & names & pose'
     & Hbd' & Hh & Ht & Hs & Hf & Ho & HBh & HBt & HBs & HBf & HBo
     & Lt & Ls & Lf & Lo & Hnames & HND & HNn & Hfresh & Hrun & Hpose);
  rewrite Hbd in Hbd'; injection Hbd' as <- <- <- <- <-;
  rewrite L1 in Lt; injection Lt as <-;
  rewrite L2 in Ls; injection Ls as <-;
  rewrite L3 in Lf; injection Lf as <-;
  rewrite L4 in Lo; injection Lo as <-;
  unfold ik_names_list in HND; cbn [app] in HND.

(** C2. After [ik] on a valid input, whatever names are in use: the IK
    thigh is a disconnected child of the hips; the IK foot has no parent,
    and its name is the name the host gives when asked for the name of the
    copy of the foot with "_ik" appended: in a host that gives free names
    as asked that very name when no bone has it, and in every host another
    name when a bone has it already; the IK
    toe is disconnected and a child of the IK foot; the knee target is a
    child of the hips; the foot roll and the MCH foot (foot_roll_01) are
    children of the IK foot; the foot IK target is a connected child of the
    MCH foot; foot_roll_02 is a child of the MCH foot. *)
Theorem ik_parenting (Options : Type) obj (opts : Options) st bd bn
  hips thigh shin foot toe bt bs bf bo :
  ik_valid st bd bn = true ->
  bd = [hips; thigh; shin; foot; toe] ->
  lookup_base bn thigh = Some bt ->
  lookup_base bn shin = Some bs ->
  lookup_base bn foot = Some bf ->
  lookup_base bn toe = Some bo ->
  exists names foot_copy in_use st',
    names = ik_granted (map eb_name (bones st)) bt bs bf bo /\
    foot_copy = ik_foot_copy (map eb_name (bones st)) bt bs bf /\
    in_use = (map eb_name (bones st)
              ++ [nm_thigh names; nm_shin names; foot_copy; nm_toe names])%list /\
    ik obj bd bn opts st =
    (Ok [None; Some (nm_thigh names); Some (nm_shin names); Some (nm_foot names);
         Some (nm_toe names)], st') /\
    parent_of st' (nm_thigh names) = Some (Some hips) /\
    connected_of st' (nm_thigh names) = Some false /\
    nm_foot names = unique_name in_use (foot_copy ++ "_ik") /\
    (forall GF : GrantsFreeNames,
       ~ In (foot_copy ++ "_ik")%string in_use ->
       nm_foot names = (foot_copy ++ "_ik")%string) /\
    (In (foot_copy ++ "_ik")%string in_use ->
     nm_foot names <> (foot_copy ++ "_ik")%string) /\
    parent_of st' (nm_foot names) = Some None /\
    parent_of st' (nm_toe names) = Some (Some (nm_foot names)) /\
    connected_of st' (nm_toe names) = Some false /\
    parent_of st' (nm_knee_target names) = Some (Some hips) /\
    parent_of st' (nm_foot_roll names) = Some (Some (nm_foot names)) /\
    parent_of st' (nm_foot_roll_01 names) = Some (Some (nm_foot names)) /\
    parent_of st' (nm_foot_target names) = Some (Some (nm_foot_roll_01 names)) /\
    connected_of st' (nm_foot_target names) = Some true /\
    parent_of st' (nm_foot_roll_02 names) = Some (Some (nm_foot_roll_01 names)).
Proof.
  intros Hvalid Hbd L1 L2 L3 L4.
  ik_valid_cases Options obj opts st bd bn Hvalid Hbd L1 L2 L3 L4.
  exists names. do 3 eexists.
  split; [exact Hnames|]. split; [reflexivity|]. split; [reflexivity|].
  split; [exact Hrun|].
  assert (Hname : nm_foot names =
                  unique_name
                    (map eb_name (bones st)
                     ++ [nm_thigh names; nm_shin names;
                         ik_foot_copy (map eb_name (bones st)) bt bs bf; nm_toe names])
                    (ik_foot_copy (map eb_name (bones st)) bt bs bf ++ "_ik"))
    by (rewrite Hnames; reflexivity).
  unfold parent_of, connected_of.
  repeat split.
  all: try exact Hname.
  all: try (intros GF Hfree; rewrite Hname; now apply unique_name_free).
  all: try (intros Htaken E; rewrite Hname in E;
            apply (unique_name_fresh
                     (map eb_name (bones st)
                      ++ [nm_thigh names; nm_shin names;
                          ik_foot_copy (map eb_name (bones st)) bt bs bf; nm_toe names])
                     (ik_foot_copy (map eb_name (bones st)) bt bs bf ++ "_ik"));
            rewrite E; exact Htaken).
  all: first [ named_bone HNn Hfresh 0 | named_bone HNn Hfresh 2 | named_bone HNn Hfresh 3
             | named_bone HNn Hfresh 4 | named_bone HNn Hfresh 5 | named_bone HNn Hfresh 6
             | named_bone HNn Hfresh 7 | named_bone HNn Hfresh 8 ].
  all: cbn [eb_parent eb_connected option_map bones].
  all: rewrite ?nth_error_app_new, ?(nth_error_app_old _ _ _ _ HBh); reflexivity.
Qed.



(** C3. On a valid input, whatever names are in use, [ik] adds exactly one
    constraint, a COPY_ROTATION whose target is the rig object, to the pose
    bones of the original thigh, shin, foot and toe and of the MCH foot
    (foot_roll_01); their subtargets are the IK thigh, the IK shin,
    foot_roll_02, the IK toe and the foot roll, by the names these bones
    have. *)
Theorem ik_copy_rotation_constraints (Options : Type) obj (opts : Options) st bd bn
  hips thigh shin foot toe bt bs bf bo :
  ik_valid st bd bn = true ->
  bd = [hips; thigh; shin; foot; toe] ->
  lookup_base bn thigh = Some bt ->
  lookup_base bn shin = Some bs ->
  lookup_base bn foot = Some bf ->
  lookup_base bn toe = Some bo ->
  exists names st' c_thigh c_shin c_foot c_toe c_mch,
    names = ik_granted (map eb_name (bones st)) bt bs bf bo /\
    ik obj bd bn opts st =
    (Ok [None; Some (nm_thigh names); Some (nm_shin names); Some (nm_foot names);
         Some (nm_toe names)], st') /\
    adds_constraint st st' thigh c_thigh /\
    is_copy_rotation obj (nm_thigh names) c_thigh /\
    adds_constraint st st' shin c_shin /\
    is_copy_rotation obj (nm_shin names) c_shin /\
    adds_constraint st st' foot c_foot /\
    is_copy_rotation obj (nm_foot_roll_02 names) c_foot /\
    adds_constraint st st' toe c_toe /\
    is_copy_rotation obj (nm_toe names) c_toe /\
    adds_constraint st st' (nm_foot_roll_01 names) c_mch /\
    is_copy_rotation obj (nm_foot_roll names) c_mch /\
    (forall sub, In sub [nm_thigh names; nm_shin names; nm_foot_roll_02 names;
                         nm_toe names; nm_foot_roll names] ->
                 bone_named st' sub <> None).
Proof.
  intros Hvalid Hbd L1 L2 L3 L4.
  ik_valid_cases Options obj opts st bd bn Hvalid Hbd L1 L2 L3 L4.
  exists names. eexists.
  exists (copy_rotation obj (nm_thigh names)), (copy_rotation obj (nm_shin names)),
    (copy_rotation obj (nm_foot_roll_02 names)), (copy_rotation obj (nm_toe names)),
    (copy_rotation obj (nm_foot_roll names)).
  split; [exact Hnames|]. split; [exact Hrun|].
  unfold adds_constraint, is_copy_rotation. cbn [pose].
  rewrite !Hpose. unfold ik_pose_named, push_con.
  repeat split; try (peel HND; reflexivity).
  intros sub Hsub. cbn [In] in Hsub.
  destruct Hsub as [<-|[<-|[<-|[<-|[<-|[]]]]]];
    [ named_bone HNn Hfresh 0 | named_bone HNn Hfresh 1 | named_bone HNn Hfresh 8
    | named_bone HNn Hfresh 3 | named_bone HNn Hfresh 5 ]; discriminate.
Qed.

(** C4. On a valid input, whatever names are in use, [ik] adds exactly one
    constraint to the pose bone of the IK shin: an IK constraint with
    chain_length 2, iterations 500, pole_angle -90.0, use_tail, use_stretch
    and use_target set, use_rotation unset and weight 1.0, whose target is
    the rig object with the foot IK target as subtarget and whose pole
    target is the rig object with the knee target as pole subtarget, by the
    names these bones have. *)
Theorem ik_ik_constraint (Options : Type) obj (opts : Options) st bd bn
  hips thigh shin foot toe bt bs bf bo :
  ik_valid st bd bn = true ->
  bd = [hips; thigh; shin; foot; toe] ->
  lookup_base bn thigh = Some bt ->
  lookup_base bn shin = Some bs ->
  lookup_base bn foot = Some bf ->
  lookup_base bn toe = Some bo ->
  exists names st' c,
    names = ik_granted (map eb_name (bones st)) bt bs bf bo /\
    ik obj bd bn opts st =
    (Ok [None; Some (nm_thigh names); Some (nm_shin names); Some (nm_foot names);
         Some (nm_toe names)], st') /\
    adds_constraint st st' (nm_shin names) c /\
    con_type c = IK /\
    chain_length (con_props c) = 2%Z /\
    iterations (con_props c) = 500%Z /\
    pole_angle (con_props c) = float_of_Z (-90) /\
    use_tail (con_props c) = true /\
    use_stretch (con_props c) = true /\
    use_target (con_props c) = true /\
    use_rotation (con_props c) = false /\
    weight (con_props c) = float_of_Z 1 /\
    target (con_props c) = Some obj /\
    subtarget (con_props c) = nm_foot_target names /\
    pole_target (con_props c) = Some obj /\
    pole_subtarget (con_props c) = nm_knee_target names /\
    parent_of st' (nm_foot_target names) = Some (Some (nm_foot_roll_01 names)) /\
    parent_of st' (nm_knee_target names) = Some (Some hips).
Proof.
  intros Hvalid Hbd L1 L2 L3 L4.
  ik_valid_cases Options obj opts st bd bn Hvalid Hbd L1 L2 L3 L4.
  exists names. eexists.
  exists (ik_constraint obj (nm_foot_target names) (nm_knee_target names)).
  split; [exact Hnames|]. split; [exact Hrun|].
  unfold adds_constraint. cbn [pose].
  rewrite !Hpose. unfold ik_pose_named, push_con.
  repeat split; try (peel HND; reflexivity).
  - unfold parent_of. named_bone HNn Hfresh 7. cbn [eb_parent bones].
    now rewrite nth_error_app_new.
  - unfold parent_of. named_bone HNn Hfresh 4. cbn [eb_parent bones].
    now rewrite (nth_error_app_old _ _ _ _ HBh).
Qed.

(** C9. On a valid input, whatever names are in use, [ik] leaves the five
    bones of the metarig as they were, head, tail and roll included: the
    armature after the call is the armature before it followed by nine new
    bones.  Of their pose bones, the hips keeps its constraints and the
    thigh, shin, foot and toe each get one COPY_ROTATION constraint. *)
Theorem ik_preserves_metarig (Options : Type) obj (opts : Options) st bd bn
  hips thigh shin foot toe :
  ik_valid st bd bn = true ->
  bd = [hips; thigh; shin; foot; toe] ->
  exists r st' news,
    ik obj bd bn opts st = (Ok r, st') /\
    bones st' = bones st ++ news /\ length news = 9 /\
    (forall x, In x bd ->
       exists b, bone_named st x = Some b /\ bone_named st' x = Some b /\
                 geom_of st' x = Some (eb_geom b)) /\
    pose st' hips = pose st hips /\
    (forall x, In x [thigh; shin; foot; toe] ->
       exists c, adds_constraint st st' x c /\ con_type c = COPY_ROTATION).
Proof.
  intros Hvalid Hbd.
  destruct (ik_run_valid Options obj opts st bd bn Hvalid) as
    (h & t & s & f & o & ih & it & ish & ifo & io & gh & ph & ch & lh & gt & ct & lt
     & gs & cs & ls & gf & cf & lf & go & co & lo & bt & bs & bf & bo & names & pose'
     & Hbd' & Hh & Ht & Hs & Hf & Ho & HBh & HBt & HBs & HBf & HBo
     & Lt & Ls & Lf & Lo & Hnames & HND & HNn & Hfresh & Hrun & Hpose).
  rewrite Hbd in Hbd'. injection Hbd' as <- <- <- <- <-.
  unfold ik_names_list in HND; cbn [app] in HND.
  do 3 eexists. split; [exact Hrun|]. cbn [bones pose].
  split; [reflexivity|]. split; [reflexivity|].
  unfold adds_constraint, geom_of. cbn [pose]. split; [|split].
  - intros x Hx. rewrite Hbd in Hx. cbn in Hx.
    destruct Hx as [<-|[<-|[<-|[<-|[<-|[]]]]]]; eexists; unfold bone_named at 1;
      [ rewrite Hh, (ik_old_bone_named _ _ _ _ _ _ _ Hh)
      | rewrite Ht, (ik_old_bone_named _ _ _ _ _ _ _ Ht)
      | rewrite Hs, (ik_old_bone_named _ _ _ _ _ _ _ Hs)
      | rewrite Hf, (ik_old_bone_named _ _ _ _ _ _ _ Hf)
      | rewrite Ho, (ik_old_bone_named _ _ _ _ _ _ _ Ho) ];
      repeat split; try eassumption;
      match goal with H : nth_error _ _ = Some _ |- option_map _ _ = _ => now rewrite H end.
  - rewrite Hpose. unfold ik_pose_named, push_con. peel HND. reflexivity.
  - intros x Hx. cbn in Hx.
    destruct Hx as [<-|[<-|[<-|[<-|[]]]]]; rewrite Hpose; unfold ik_pose_named, push_con;
      peel HND; eexists; split; reflexivity.
Qed.

(** X13. Legs can be generated one after the other: after [ik] on a valid
    input, every bone chain that was a valid input is one still, and [ik] on
    it returns, although names that it asks for may now be in use. *)
Theorem ik_keeps_valid_chains (Options : Type) obj (opts : Options) st bd bn bd2 bn2 :
  ik_valid st bd bn = true ->
  ik_valid st bd2 bn2 = true ->
  exists r st',
    ik obj bd bn opts st = (Ok r, st') /\
    ik_valid st' bd2 bn2 = true /\
    exists r2 st2, ik obj bd2 bn2 opts st' = (Ok r2, st2).
Proof.
  intros Hvalid Hvalid2.
  destruct (ik_run_valid Options obj opts st bd bn Hvalid) as
    (h & t & s & f & o & ih & it & ish & ifo & io & gh & ph & ch & lh & gt & ct & lt
     & gs & cs & ls & gf & cf & lf & go & co & lo & bt & bs & bf & bo & names & pose'
     & _ & _ & _ & _ & _ & _ & _ & _ & _ & _ & _ & _ & _ & _ & _ & _ & _ & _ & _
     & Hrun & _).
  do 2 eexists. split; [exact Hrun|].
  match type of Hrun with _ = (_, mkScene _ (_ ++ ?N) _ _) => set (news := N) in * end.
  assert (Hvalid' : ik_valid (mkScene EDIT (bones st ++ news) pose' (log st ++ ik_events))
                             bd2 bn2 = true).
  { destruct (ik_valid_shape _ _ _ Hvalid2) as
      (h2 & t2 & s2 & f2 & o2 & ih2 & it2 & ish2 & ifo2 & io2 & gh2 & ph2 & ch2 & lh2
       & gt2 & ct2 & lt2 & gs2 & cs2 & ls2 & gf2 & cf2 & lf2 & go2 & co2 & lo2
       & bt2 & bs2 & bf2 & bo2
       & _ & Hbd2 & Hh2 & Ht2 & Hs2 & Hf2 & Ho2 & HBh2 & HBt2 & HBs2 & HBf2 & HBo2
       & Lt2 & Ls2 & Lf2 & Lo2 & HN2).
    subst bd2. unfold ik_valid. cbn [mode bones].
    rewrite (find_bone_app_old _ _ news _ Hh2), (find_bone_app_old _ _ news _ Ht2),
      (find_bone_app_old _ _ news _ Hs2), (find_bone_app_old _ _ news _ Hf2),
      (find_bone_app_old _ _ news _ Ho2), Lt2, Ls2, Lf2, Lo2.
    unfold parent_is, parent_at.
    rewrite (nth_error_app_old _ news _ _ HBt2), (nth_error_app_old _ news _ _ HBs2),
      (nth_error_app_old _ news _ _ HBf2), (nth_error_app_old _ news _ _ HBo2).
    cbn [eb_parent]. rewrite !Nat.eqb_refl. cbn [andb].
    unfold ik_valid in Hvalid2.
    destruct (mode st); try discriminate.
    rewrite Hh2, Ht2, Hs2, Hf2, Ho2, Lt2, Ls2, Lf2, Lo2 in Hvalid2.
    apply andb_true_iff in Hvalid2. now destruct Hvalid2 as [_ ->]. }
  split; [exact Hvalid'|].
  destruct (ik_run_valid Options obj opts _ bd2 bn2 Hvalid') as
    (h2 & t2 & s2 & f2 & o2 & ih2 & it2 & ish2 & ifo2 & io2 & gh2 & ph2 & ch2 & lh2
     & gt2 & ct2 & lt2 & gs2 & cs2 & ls2 & gf2 & cf2 & lf2 & go2 & co2 & lo2
     & bt2 & bs2 & bf2 & bo2 & names2 & pose2
     & _ & _ & _ & _ & _ & _ & _ & _ & _ & _ & _ & _ & _ & _ & _ & _ & _ & _ & _
     & Hrun2 & _).
  eauto.
Qed.

(** ** Where the names asked for are free *)

(** From here on the host gives a name as it is asked whenever the name is
    not in use, so that [ik] on an input on which the names it asks for are
    free ([ik_ready]) gets every name as asked. *)
Section Free.

Context {GF : GrantsFreeNames}.

Lemma NoDup_app_not_in (A B : list string) :
  NoDup (A ++ B) -> forall x, In x B -> ~ In x A.
Proof.
  intros HN x Hx Hin. induction A as [|y A IH]; [easy|].
  cbn in HN. inversion HN as [|? ? Hy HN']; subst.
  destruct Hin as [->|Hin]; [|now apply IH].
  apply Hy. rewrite in_app_iff. now right.
Qed.

(** A host that gives free names as asked gives [ik] every name as asked
    when all of them are free. *)
Lemma ik_granted_free taken bt bs bf bo :
  NoDup (taken ++ ik_bone_names bt bs bf bo) ->
  ~ In bf (taken ++ [bt; bs; bo]) ->
  ik_granted taken bt bs bf bo = ik_asked bt bs bf bo.
Proof.
  intros HN Hbf.
  pose proof (NoDup_app_not_in _ _ HN) as Hout.
  apply NoDup_app_remove_l in HN. unfold ik_bone_names in *.
  pose proof (Hout bt ltac:(in_names)) as O1.
  pose proof (Hout bs ltac:(in_names)) as O2.
  pose proof (Hout (bf ++ "_ik")%string ltac:(in_names)) as O3.
  pose proof (Hout bo ltac:(in_names)) as O4.
  pose proof (Hout "knee_target" ltac:(in_names)) as O5.
  pose proof (Hout (bf ++ "_roll")%string ltac:(in_names)) as O6.
  pose proof (Hout ("MCH-" ++ bf)%string ltac:(in_names)) as O7.
  pose proof (Hout (bf ++ "_ik_target")%string ltac:(in_names)) as O8.
  pose proof (Hout ("MCH-" ++ bf ++ "_02")%string ltac:(in_names)) as O9.
  clear Hout.
  assert (Hik : bf <> (bf ++ "_ik")%string).
  { apply String.eqb_neq. apply eqb_append_false. discriminate. }
  repeat (apply NoDup_cons_iff in HN; destruct HN as [? HN]). clear HN.
  rewrite in_app_iff in Hbf. cbn [In] in *.
  unfold ik_granted, ik_asked.
  rewrite (unique_name_free taken bt) by assumption.
  rewrite (unique_name_free (taken ++ [bt]) bs)
    by (rewrite in_app_iff; cbn [In]; intuition congruence).
  rewrite (unique_name_free (taken ++ [bt; bs]) bf)
    by (rewrite in_app_iff; cbn [In]; intuition congruence).
  rewrite (unique_name_free (taken ++ [bt; bs; bf]) bo)
    by (rewrite in_app_iff; cbn [In]; intuition congruence).
  rewrite (unique_name_free (taken ++ [bt; bs; bf; bo]) (bf ++ "_ik"))
    by (rewrite in_app_iff; cbn [In]; intuition congruence).
  rewrite (unique_name_free (taken ++ [bt; bs; (bf ++ "_ik")%string; bo]) "knee_target")
    by (rewrite in_app_iff; cbn [In]; intuition congruence).
  rewrite (unique_name_free _ (bf ++ "_roll"))
    by (rewrite in_app_iff; cbn [In]; intuition congruence).
  rewrite (unique_name_free _ ("MCH-" ++ bf))
    by (rewrite in_app_iff; cbn [In]; intuition congruence).
  rewrite (unique_name_free _ (bf ++ "_ik_target"))
    by (rewrite in_app_iff; cbn [In]; intuition congruence).
  rewrite (unique_name_free _ ("MCH-" ++ bf ++ "_02"))
    by (rewrite in_app_iff; cbn [In]; intuition congruence).
  reflexivity.
Qed.

Lemma existsb_eqb_false x (l : list string) :
  existsb (String.eqb x) l = false -> ~ In x l.
Proof.
  intros H Hin. assert (existsb (String.eqb x) l = true); [|congruence].
  apply existsb_exists. exists x. split; [exact Hin | apply String.eqb_refl].
Qed.

Lemma ik_run (Options : Type) obj (opts : Options) st bd bn :
  ik_ready st bd bn = true ->
  exists h t s f o ih it ish ifo io gh ph ch lh gt ct lt gs cs ls gf cf lf go co lo
         bt bs bf bo pose',
    bd = [h; t; s; f; o] /\
    find_bone h (bones st) = Some ih /\ find_bone t (bones st) = Some it /\
    find_bone s (bones st) = Some ish /\ find_bone f (bones st) = Some ifo /\
    find_bone o (bones st) = Some io /\
    nth_error (bones st) ih = Some (mkEditBone h gh ph ch lh) /\
    nth_error (bones st) it = Some (mkEditBone t gt (Some ih) ct lt) /\
    nth_error (bones st) ish = Some (mkEditBone s gs (Some it) cs ls) /\
    nth_error (bones st) ifo = Some (mkEditBone f gf (Some ish) cf lf) /\
    nth_error (bones st) io = Some (mkEditBone o go (Some ifo) co lo) /\
    lookup_base bn t = Some bt /\ lookup_base bn s = Some bs /\
    lookup_base bn f = Some bf /\ lookup_base bn o = Some bo /\
    NoDup ([h; t; s; f; o] ++ ik_bone_names bt bs bf bo) /\
    NoDup (map eb_name (bones st) ++ ik_bone_names bt bs bf bo) /\
    ik obj bd bn opts st =
    (Ok [None; Some bt; Some bs; Some (bf ++ "_ik")%string; Some bo],
     mkScene EDIT
       (bones st ++ ik_new_bones (length (bones st)) ih
          (mkEditBone t gt (Some ih) ct lt) (mkEditBone s gs (Some it) cs ls)
          (mkEditBone f gf (Some ish) cf lf) (mkEditBone o go (Some ifo) co lo)
          bt bs bf bo)
       pose' (log st ++ ik_events)) /\
    forall n, pose' n = ik_pose obj t s f o bs bt bf bo (pose st) n.
Proof.
  intros Hready. unfold ik_ready in Hready. apply andb_true_iff in Hready.
  destruct Hready as [Hvalid Hfree].
  destruct (ik_run_valid Options obj opts st bd bn Hvalid) as
    (h & t & s & f & o & ih & it & ish & ifo & io & gh & ph & ch & lh & gt & ct & lt
     & gs & cs & ls & gf & cf & lf & go & co & lo & bt & bs & bf & bo & names & pose'
     & Hbd & Hh & Ht & Hs & Hf & Ho & HBh & HBt & HBs & HBf & HBo
     & Lt & Ls & Lf & Lo & Hnames & HND & HNn & Hfresh & Hrun & Hpose).
  unfold names_free in Hfree. rewrite Hbd, Lt, Ls, Lf, Lo in Hfree.
  apply andb_true_iff in Hfree. destruct Hfree as [HN Hbf].
  apply distinct_NoDup in HN. apply negb_true_iff, existsb_eqb_false in Hbf.
  rewrite (ik_granted_free _ _ _ _ _ HN Hbf) in Hnames. subst names.
  exists h, t, s, f, o, ih, it, ish, ifo, io, gh, ph, ch, lh, gt, ct, lt, gs, cs, ls,
    gf, cf, lf, go, co, lo, bt, bs, bf, bo, pose'.
  repeat (split; [first [assumption | exact HND | exact HN | exact Hrun]|]).
  exact Hpose.
Qed.

Lemma ik_new_bone_named m l p lg ih Bt Bs Bf Bo bt bs bf bo :
  NoDup (map eb_name l ++ ik_bone_names bt bs bf bo) ->
  forall k b,
    nth_error (ik_new_bones (length l) ih Bt Bs Bf Bo bt bs bf bo) k = Some b ->
    bone_named (mkScene m (l ++ ik_new_bones (length l) ih Bt Bs Bf Bo bt bs bf bo) p lg)
               (eb_name b) = Some b.
Proof.
  intros HN k b Hk. unfold bone_named. cbn [bones].
  assert (Hk' : nth_error (l ++ ik_new_bones (length l) ih Bt Bs Bf Bo bt bs bf bo)
                          (length l + k) = Some b)
    by now rewrite nth_error_app_new.
  assert (HL : NoDup (map eb_name (l ++ ik_new_bones (length l) ih Bt Bs Bf Bo bt bs bf bo)))
    by now rewrite map_app.
  now rewrite (find_bone_nth _ HL _ _ Hk').
Qed.

Ltac new_bone HN k :=
  rewrite (ik_new_bone_named _ _ _ _ _ _ _ _ _ _ _ _ _ HN k _ eq_refl).

Ltac ik_run_cases Options obj opts st bd bn Hready Hbd Lbf :=
  let h := fresh "h" in
  destruct (ik_run Options obj opts st bd bn Hready) as
    (h & t & s & f & o & ih & it & ish & ifo & io & gh & ph & ch & lh & gt & ct & lt
     & gs & cs & ls & gf & cf & lf & go & co & lo & bt & bs & bf' & bo & pose'
     & Hbd' & Hh & Ht & Hs & Hf & Ho & HBh & HBt & HBs & HBf & HBo
     & Lt & Ls & Lf & Lo & HND & HN & Hrun & Hpose);
  rewrite Hbd in Hbd'; injection Hbd' as <- <- <- <- <-;
  rewrite Lbf in Lf; injection Lf as <-;
  unfold ik_bone_names in HND; cbn [app] in HND.

(** ** More on ik and main *)

Lemma main_is_ik (Options : Type) obj bd bn (opts : Options) st :
  main obj bd bn opts st = ik obj bd bn opts st.
Proof.
  unfold main, bind, ret. now destruct (ik obj bd bn opts st) as [[r|e] st'].
Qed.

(** X4. On a valid input on which the names asked for are free, [main]
    returns [None] and the names of the IK chain: the base names of the
    thigh, the shin and the toe, and the base name of the foot with "_ik"
    appended. *)
Theorem main_returns_names (Options : Type) obj (opts : Options) st bd bn
  hips thigh shin foot toe b_thigh b_shin b_foot b_toe :
  ik_ready st bd bn = true ->
  bd = [hips; thigh; shin; foot; toe] ->
  lookup_base bn thigh = Some b_thigh ->
  lookup_base bn shin = Some b_shin ->
  lookup_base bn foot = Some b_foot ->
  lookup_base bn toe = Some b_toe ->
  fst (main obj bd bn opts st) =
  Ok [None; Some b_thigh; Some b_shin; Some (b_foot ++ "_ik")%string; Some b_toe].
Proof.
  intros Hready Hbd L1 L2 L3 L4. rewrite main_is_ik.
  ik_run_cases Options obj opts st bd bn Hready Hbd L3.
  rewrite Hrun. cbn [fst]. congruence.
Qed.

(** X5. The IK chain on a valid input on which the names asked for are
    free: the IK thigh, shin and toe have the
    head, tail and roll of the originals; the IK foot is the foot aligned
    with the toe; foot_roll_02 has the head, tail and roll of the foot; the
    IK shin is a child of the IK thigh and is connected as the original
    shin is. *)
Theorem ik_chain_geometry (Options : Type) obj (opts : Options) st bd bn
  hips thigh shin foot toe b_thigh b_shin b_foot b_toe g_thigh g_shin g_foot g_toe :
  ik_ready st bd bn = true ->
  bd = [hips; thigh; shin; foot; toe] ->
  lookup_base bn thigh = Some b_thigh ->
  lookup_base bn shin = Some b_shin ->
  lookup_base bn foot = Some b_foot ->
  lookup_base bn toe = Some b_toe ->
  geom_of st thigh = Some g_thigh ->
  geom_of st shin = Some g_shin ->
  geom_of st foot = Some g_foot ->
  geom_of st toe = Some g_toe ->
  exists r st',
    ik obj bd bn opts st = (Ok r, st') /\
    geom_of st' b_thigh = Some g_thigh /\
    geom_of st' b_shin = Some g_shin /\
    geom_of st' b_toe = Some g_toe /\
    geom_of st' (b_foot ++ "_ik") = Some (align_orientation g_toe g_foot) /\
    geom_of st' ("MCH-" ++ b_foot ++ "_02") = Some g_foot /\
    parent_of st' b_shin = Some (Some b_thigh) /\
    connected_of st' b_shin = connected_of st shin.
Proof.
  intros Hready Hbd L1 L2 L3 L4 G1 G2 G3 G4.
  ik_run_cases Options obj opts st bd bn Hready Hbd L3.
  rewrite L1 in Lt. injection Lt as <-. rewrite L2 in Ls. injection Ls as <-.
  rewrite L4 in Lo. injection Lo as <-.
  assert (Hcs : connected_of st shin = Some cs)
    by (unfold connected_of, bone_named; now rewrite Hs, HBs).
  rewrite Hcs.
  unfold geom_of, bone_named in G1, G2, G3, G4.
  rewrite Ht, HBt in G1. rewrite Hs, HBs in G2. rewrite Hf, HBf in G3.
  rewrite Ho, HBo in G4. cbn in G1, G2, G3, G4.
  injection G1 as <-. injection G2 as <-. injection G3 as <-. injection G4 as <-.
  do 2 eexists. split; [exact Hrun|].
  unfold geom_of, connected_of, parent_of.
  repeat split.
  all: first [ new_bone HN 0 | new_bone HN 1 | new_bone HN 2 | new_bone HN 3 | new_bone HN 8 ].
  all: cbn [eb_geom eb_parent eb_connected option_map bones].
  all: unfold ik_foot_geom; rewrite ?copy_geom_id, ?nth_error_app_new; reflexivity.
Qed.

(** X6. On a valid input on which the names asked for are free, [ik]
    touches the constraint stacks of six pose bones only: every other pose
    bone keeps its stack. *)
Theorem ik_other_pose_bones (Options : Type) obj (opts : Options) st bd bn
  hips thigh shin foot toe b_shin b_foot :
  ik_ready st bd bn = true ->
  bd = [hips; thigh; shin; foot; toe] ->
  lookup_base bn shin = Some b_shin ->
  lookup_base bn foot = Some b_foot ->
  exists r st',
    ik obj bd bn opts st = (Ok r, st') /\
    forall n,
      ~ In n [thigh; shin; foot; toe; ("MCH-" ++ b_foot)%string; b_shin] ->
      pose st' n = pose st n.
Proof.
  intros Hready Hbd L2 L3.
  ik_run_cases Options obj opts st bd bn Hready Hbd L3.
  rewrite L2 in Ls. injection Ls as <-.
  do 2 eexists. split; [exact Hrun|]. intros n Hn. cbn [pose].
  rewrite Hpose. unfold ik_pose, ik_pose_named, ik_asked, push_con, pose_update.
  cbn [nm_thigh nm_shin nm_foot nm_toe nm_knee_target nm_foot_roll nm_foot_roll_01
       nm_foot_target nm_foot_roll_02].
  cbn [In] in Hn.
  repeat match goal with
  | |- context [String.eqb n ?k] =>
      destruct (String.eqb_spec n k) as [->|_]; [exfalso; tauto|]
  end.
  reflexivity.
Qed.

Lemma ik_armature_after (Options : Type) obj (opts : Options) st bd bn
  hips thigh shin foot toe b_thigh b_shin b_foot b_toe :
  ik_ready st bd bn = true ->
  bd = [hips; thigh; shin; foot; toe] ->
  lookup_base bn thigh = Some b_thigh ->
  lookup_base bn shin = Some b_shin ->
  lookup_base bn foot = Some b_foot ->
  lookup_base bn toe = Some b_toe ->
  wf_bones (bones st) = true ->
  exists r st',
    ik obj bd bn opts st = (Ok r, st') /\
    map eb_name (bones st') =
    map eb_name (bones st) ++ ik_bone_names b_thigh b_shin b_foot b_toe /\
    NoDup (map eb_name (bones st')) /\
    wf_bones (bones st') = true.
Proof.
  intros Hready Hbd L1 L2 L3 L4 Hwf.
  ik_run_cases Options obj opts st bd bn Hready Hbd L3.
  rewrite L1 in Lt. injection Lt as <-. rewrite L2 in Ls. injection Ls as <-.
  rewrite L4 in Lo. injection Lo as <-.
  do 2 eexists. split; [exact Hrun|]. cbn [bones].
  assert (Hnames : map eb_name
            (bones st ++ ik_new_bones (length (bones st)) ih
               (mkEditBone thigh gt (Some ih) ct lt) (mkEditBone shin gs (Some it) cs ls)
               (mkEditBone foot gf (Some ish) cf lf) (mkEditBone toe go (Some ifo) co lo)
               b_thigh b_shin b_foot b_toe) =
          map eb_name (bones st) ++ ik_bone_names b_thigh b_shin b_foot b_toe)
    by now rewrite map_app.
  split; [exact Hnames|]. split; [now rewrite Hnames|].
  assert (Hih : ih < length (bones st)) by (apply nth_error_Some; now rewrite HBh).
  unfold wf_bones in *. rewrite forallb_app. apply andb_true_iff. split.
  - rewrite forallb_forall in *. intros b Hb. specialize (Hwf b Hb).
    destruct (eb_parent b) as [q|]; [|reflexivity].
    apply Nat.ltb_lt in Hwf. apply Nat.ltb_lt. rewrite length_app. lia.
  - rewrite length_app. cbn [ik_new_bones ik_bones_named forallb eb_parent length].
    repeat (apply andb_true_iff; split); try reflexivity; apply Nat.ltb_lt; lia.
Qed.

(** X7. Invariants of the armature that [ik] keeps on a valid input on
    which the names asked for are free: the
    names of the armature after the call are the names before it followed by
    the nine names asked for, all names are still different, and every
    parent is still a bone of the armature. *)
Theorem ik_keeps_armature_well_formed (Options : Type) obj (opts : Options) st bd bn
  hips thigh shin foot toe b_thigh b_shin b_foot b_toe :
  ik_ready st bd bn = true ->
  bd = [hips; thigh; shin; foot; toe] ->
  lookup_base bn thigh = Some b_thigh ->
  lookup_base bn shin = Some b_shin ->
  lookup_base bn foot = Some b_foot ->
  lookup_base bn toe = Some b_toe ->
  wf_bones (bones st) = true ->
  exists r st',
    ik obj bd bn opts st = (Ok r, st') /\
    map eb_name (bones st') =
    map eb_name (bones st) ++ ik_bone_names b_thigh b_shin b_foot b_toe /\
    NoDup (map eb_name (bones st')) /\
    wf_bones (bones st') = true.
Proof.
  exact (ik_armature_after Options obj opts st bd bn hips thigh shin foot toe
           b_thigh b_shin b_foot b_toe).
Qed.

(** ** From metarig_definition to ik, and back *)

Lemma bone_name_at_found l i :
  NoDup (map eb_name l) -> nth_error l i <> None ->
  find_bone (bone_name_at l i) l = Some i.
Proof.
  intros HL Hi. unfold bone_name_at.
  destruct (nth_error l i) as [b|] eqn:Hb; [|congruence].
  exact (find_bone_nth l HL i b Hb).
Qed.

Lemma parent_at_valid l c p : parent_at l c = Some p -> nth_error l c <> None.
Proof. unfold parent_at. now destruct (nth_error l c). Qed.

(** X8. What [metarig_definition] returns is a valid bone chain for [ik]:
    when its five names are different and the names [ik] asks for are free,
    [ik] on the rig in edit mode returns. *)
Theorem metarig_definition_feeds_ik (Options : Type) obj (opts : Options) name st bd st' bn :
  metarig_definition obj name st = (Ok bd, st') ->
  distinct bd = true ->
  names_free st bd bn = true ->
  ik_ready (in_edit_mode st) bd bn = true /\
  exists r st'', ik obj bd bn opts (in_edit_mode st) = (Ok r, st'').
Proof.
  intros Hdef Hdist Hfree.
  assert (Hready : ik_ready (in_edit_mode st) bd bn = true).
  { destruct (metarig_definition_ok_inv _ _ _ _ _ Hdef)
      as (_ & h & hips & shin & foot & toe & Hfind & _ & Hp0 & Hhips & Hp1 & Hp2 & Hp3 & Hbd).
    subst bd. unfold ik_ready. apply andb_true_iff. split; [|exact Hfree].
    unfold names_free in Hfree. unfold ik_valid, in_edit_mode. cbn [mode bones].
    destruct (lookup_base bn name) as [bt|]; [|discriminate].
    destruct (lookup_base bn (bone_name_at (bones st) shin)) as [bs|]; [|discriminate].
    destruct (lookup_base bn (bone_name_at (bones st) foot)) as [bf|]; [|discriminate].
    destruct (lookup_base bn (bone_name_at (bones st) toe)) as [bo|]; [|discriminate].
    apply andb_true_iff in Hfree. destruct Hfree as [Hfree _].
    assert (HL : NoDup (map eb_name (bones st)))
      by (apply distinct_NoDup in Hfree; now apply NoDup_app_remove_r in Hfree).
    rewrite (bone_name_at_found _ hips HL Hhips).
    rewrite Hfind.
    rewrite (bone_name_at_found _ shin HL (parent_at_valid _ _ _ Hp1)).
    rewrite (bone_name_at_found _ foot HL (parent_at_valid _ _ _ Hp2)).
    rewrite (bone_name_at_found _ toe HL (parent_at_valid _ _ _ Hp3)).
    unfold parent_is. rewrite Hp0, Hp1, Hp2, Hp3, !Nat.eqb_refl, Hdist.
    reflexivity. }
  split; [exact Hready|].
  destruct (ik_run Options obj opts _ bd bn Hready) as
    (h & t & s & f & o & ih & it & ish & ifo & io & gh & ph & ch & lh & gt & ct & lt
     & gs & cs & ls & gf & cf & lf & go & co & lo & bt & bs & bf' & bo & pose'
     & _ & _ & _ & _ & _ & _ & _ & _ & _ & _ & _ & _ & _ & _ & _ & _ & _ & Hrun & _).
  eauto.
Qed.

(** X12. What [metarig_definition] returns is a valid input of [ik],
    whatever names are in use: when its five names are different, the names
    of the armature are different and [base_names] has a base name for the
    thigh, shin, foot and toe, [ik] on the rig in edit mode returns. *)
Theorem metarig_definition_gives_valid_chain (Options : Type) obj (opts : Options)
  name st bd st' bn :
  metarig_definition obj name st = (Ok bd, st') ->
  distinct bd = true ->
  distinct (map eb_name (bones st)) = true ->
  (forall x, In x (tl bd) -> lookup_base bn x <> None) ->
  ik_valid (in_edit_mode st) bd bn = true /\
  exists r st'', ik obj bd bn opts (in_edit_mode st) = (Ok r, st'').
Proof.
  intros Hdef Hdist Hnames Hbase.
  assert (Hvalid : ik_valid (in_edit_mode st) bd bn = true).
  { destruct (metarig_definition_ok_inv _ _ _ _ _ Hdef)
      as (_ & h & hips & shin & foot & toe & Hfind & _ & Hp0 & Hhips & Hp1 & Hp2 & Hp3 & Hbd).
    subst bd. unfold ik_valid, in_edit_mode. cbn [mode bones].
    cbn [tl] in Hbase.
    pose proof (Hbase name ltac:(cbn; tauto)) as B1.
    pose proof (Hbase (bone_name_at (bones st) shin) ltac:(cbn; tauto)) as B2.
    pose proof (Hbase (bone_name_at (bones st) foot) ltac:(cbn; tauto)) as B3.
    pose proof (Hbase (bone_name_at (bones st) toe) ltac:(cbn; tauto)) as B4.
    destruct (lookup_base bn name) as [bt|]; [|congruence].
    destruct (lookup_base bn (bone_name_at (bones st) shin)) as [bs|]; [|congruence].
    destruct (lookup_base bn (bone_name_at (bones st) foot)) as [bf|]; [|congruence].
    destruct (lookup_base bn (bone_name_at (bones st) toe)) as [bo|]; [|congruence].
    assert (HL : NoDup (map eb_name (bones st))) by now apply distinct_NoDup.
    rewrite (bone_name_at_found _ hips HL Hhips).
    rewrite Hfind.
    rewrite (bone_name_at_found _ shin HL (parent_at_valid _ _ _ Hp1)).
    rewrite (bone_name_at_found _ foot HL (parent_at_valid _ _ _ Hp2)).
    rewrite (bone_name_at_found _ toe HL (parent_at_valid _ _ _ Hp3)).
    unfold parent_is. rewrite Hp0, Hp1, Hp2, Hp3, !Nat.eqb_refl, Hdist.
    reflexivity. }
  split; [exact Hvalid|].
  destruct (ik_run_valid Options obj opts _ bd bn Hvalid) as
    (h & t & s & f & o & ih & it & ish & ifo & io & gh & ph & ch & lh & gt & ct & lt
     & gs & cs & ls & gf & cf & lf & go & co & lo & bt & bs & bf & bo & names & pose'
     & _ & _ & _ & _ & _ & _ & _ & _ & _ & _ & _ & _ & _ & _ & _ & _ & _ & _ & _
     & Hrun & _).
  eauto.
Qed.

Lemma children_of_spec l x c :
  In c (children_of l x) <-> parent_at l c = Some x.
Proof.
  unfold children_of, parent_at. rewrite filter_In, in_seq. split.
  - intros [_ H]. destruct (nth_error l c) as [b|]; [|discriminate].
    destruct (eb_parent b) as [q|]; [|discriminate]. apply Nat.eqb_eq in H. now subst.
  - intros H. destruct (nth_error l c) as [b|] eqn:Hb; [|discriminate].
    rewrite H, Nat.eqb_refl. split; [|reflexivity].
    assert (c < length l) by (apply nth_error_Some; now rewrite Hb). lia.
Qed.

Lemma seq_offset a : forall b, seq a b = map (Nat.add a) (seq 0 b).
Proof.
  intros b. revert a. induction b as [|b IH]; intros a; [reflexivity|].
  cbn [seq map]. rewrite Nat.add_0_r. f_equal.
  rewrite (IH (S a)), (IH 1), map_map. apply map_ext. intros i. lia.
Qed.

Lemma filter_nil_forall {A} (P : A -> bool) (l : list A) :
  (forall x, In x l -> P x = false) -> filter P l = [].
Proof.
  induction l as [|x l IH]; intros H; [reflexivity|]. cbn.
  rewrite (H x (or_introl eq_refl)). apply IH. intros y Hy. apply H. now right.
Qed.

(** The children of a bone among the bones added to an armature. *)
Lemma children_of_app l news x :
  children_of (l ++ news) x =
  children_of l x ++
  map (Nat.add (length l))
      (filter (fun i => match nth_error news i with
                        | Some b => match eb_parent b with
                                    | Some p => Nat.eqb p x
                                    | None => false
                                    end
                        | None => false
                        end)
              (seq 0 (length news))).
Proof.
  unfold children_of. rewrite length_app, seq_app, filter_app. cbn [Nat.add]. f_equal.
  - apply filter_ext_in. intros i Hi. apply in_seq in Hi.
    rewrite nth_error_app1 by lia. reflexivity.
  - rewrite seq_offset.
    induction (seq 0 (length news)) as [|i r IH]; [reflexivity|].
    cbn [map filter]. rewrite nth_error_app_new.
    destruct (nth_error news i) as [b|]; [|exact IH].
    destruct (eb_parent b) as [q|]; [|exact IH].
    destruct (Nat.eqb q x); [cbn [map]; now rewrite IH | exact IH].
Qed.

Lemma ik_new_bones_children n ih Bt Bs Bf Bo bt bs bf bo l x :
  n = length l -> x < n -> x <> ih ->
  children_of (l ++ ik_new_bones n ih Bt Bs Bf Bo bt bs bf bo) x = children_of l x.
Proof.
  intros -> Hx Hih. rewrite children_of_app.
  rewrite filter_nil_forall; [now rewrite app_nil_r|].
  intros i Hi. cbn [ik_new_bones ik_bones_named length seq] in Hi |- *.
  assert (Hne : forall k, Nat.eqb (length l + k) x = false)
    by (intros k; apply Nat.eqb_neq; lia).
  assert (Hne' : Nat.eqb ih x = false) by (apply Nat.eqb_neq; congruence).
  repeat (destruct Hi as [<-|Hi]; [cbn; now rewrite ?Hne, ?Hne'|]).
  destruct Hi.
Qed.

(** X9. [ik] keeps the metarig valid: on a valid input on which the names
    asked for are free and a well-formed armature, [metarig_definition] for
    the thigh answers after [ik] what it answered before. *)
Theorem ik_keeps_metarig_valid (Options : Type) obj (opts : Options) st bd bn
  hips thigh shin foot toe :
  ik_ready st bd bn = true ->
  bd = [hips; thigh; shin; foot; toe] ->
  wf_bones (bones st) = true ->
  exists r st',
    ik obj bd bn opts st = (Ok r, st') /\
    fst (metarig_definition obj thigh st') = fst (metarig_definition obj thigh st).
Proof.
  intros Hready Hbd Hwf.
  assert (Lbf : exists bf, lookup_base bn foot = Some bf).
  { destruct (ik_run Options obj opts st bd bn Hready) as
      (h & t & s & f & o & ih & it & ish & ifo & io & gh & ph & ch & lh & gt & ct & lt
       & gs & cs & ls & gf & cf & lf & go & co & lo & bt & bs & bf' & bo & pose'
       & Hbd' & _ & _ & _ & _ & _ & _ & _ & _ & _ & _ & _ & _ & Lf & _).
    rewrite Hbd in Hbd'. injection Hbd' as <- <- <- <- <-. now exists bf'. }
  destruct Lbf as [bf Lbf].
  destruct (ik_armature_after Options obj opts st bd bn) with
    (hips := hips) (thigh := thigh) (shin := shin) (foot := foot) (toe := toe)
    (b_foot := bf) (b_thigh := match lookup_base bn thigh with Some x => x | None => "" end)
    (b_shin := match lookup_base bn shin with Some x => x | None => "" end)
    (b_toe := match lookup_base bn toe with Some x => x | None => "" end)
    as (r0 & st0 & Hrun0 & _ & _ & Hwf'); try assumption.
  1-3: destruct (ik_run Options obj opts st bd bn Hready) as
      (h & t & s & f & o & ih & it & ish & ifo & io & gh & ph & ch & lh & gt & ct & lt
       & gs & cs & ls & gf & cf & lf & go & co & lo & bt & bs & bf' & bo & pose'
       & Hbd' & _ & _ & _ & _ & _ & _ & _ & _ & _ & _ & Lt & Ls & Lf & Lo & _);
    rewrite Hbd in Hbd'; injection Hbd' as <- <- <- <- <-;
    first [now rewrite Lt | now rewrite Ls | now rewrite Lo].
  ik_run_cases Options obj opts st bd bn Hready Hbd Lbf.
  rewrite Hrun in Hrun0. injection Hrun0 as <- <-.
  do 2 eexists. split; [exact Hrun|].
  set (N := ik_new_bones (length (bones st)) ih
              (mkEditBone thigh gt (Some ih) ct lt) (mkEditBone shin gs (Some it) cs ls)
              (mkEditBone foot gf (Some ish) cf lf) (mkEditBone toe go (Some ifo) co lo)
              bt bs bf bo) in *.
  set (st' := mkScene EDIT (bones st ++ N) pose' (log st ++ ik_events)) in *.
  assert (Hfind' : find_bone thigh (bones st') = Some it)
    by (unfold st'; cbn [bones]; now apply find_bone_app_old).
  pose proof (metarig_collect_cases thigh st it Hwf Ht) as C.
  pose proof (metarig_collect_cases thigh st' it Hwf' Hfind') as C'.
  rewrite !metarig_definition_collect.
  assert (Hlt : forall i b, nth_error (bones st) i = Some b -> i < length (bones st))
    by (intros i b Hi; apply nth_error_Some; now rewrite Hi).
  assert (Hother : forall x g p c l0 k,
             nth_error (bones st) x = Some (mkEditBone (nth k [thigh; shin; foot] "") g p c l0) ->
             k < 3 -> x <> ih).
  { intros x g p c l0 k Hx Hk ->. rewrite HBh in Hx. injection Hx as Hname _ _ _ _.
    destruct k as [|[|[|k]]]; cbn [nth] in Hname; [| | |lia].
    - pose proof (nodup_eqb_false _ HND 0 1 hips thigh eq_refl eq_refl
                    ltac:(discriminate)) as Hn.
      rewrite Hname, String.eqb_refl in Hn. discriminate.
    - pose proof (nodup_eqb_false _ HND 0 2 hips shin eq_refl eq_refl
                    ltac:(discriminate)) as Hn.
      rewrite Hname, String.eqb_refl in Hn. discriminate.
    - pose proof (nodup_eqb_false _ HND 0 3 hips foot eq_refl eq_refl
                    ltac:(discriminate)) as Hn.
      rewrite Hname, String.eqb_refl in Hn. discriminate. }
  assert (Hsame : forall x g p c l0 k,
             nth_error (bones st) x = Some (mkEditBone (nth k [thigh; shin; foot] "") g p c l0) ->
             k < 3 -> single_child (bones st') x = single_child (bones st) x).
  { intros x g p c l0 k Hx Hk. unfold single_child. unfold st'; cbn [bones]. unfold N.
    rewrite ik_new_bones_children; [reflexivity | reflexivity | eapply Hlt; eassumption |].
    eapply Hother; eassumption. }
  assert (Hname : forall x b, nth_error (bones st) x = Some b ->
                              bone_name_at (bones st') x = bone_name_at (bones st) x).
  { intros x b Hx. unfold bone_name_at. unfold st'; cbn [bones].
    now rewrite (nth_error_app_old _ N _ _ Hx), Hx. }
  assert (Hpar : forall x b, nth_error (bones st) x = Some b ->
                             parent_at (bones st') x = parent_at (bones st) x).
  { intros x b Hx. unfold parent_at. unfold st'; cbn [bones].
    now rewrite (nth_error_app_old _ N _ _ Hx), Hx. }
  assert (Hchild : forall x c y b,
             single_child (bones st) x = Some c ->
             nth_error (bones st) y = Some b -> eb_parent b = Some x -> c = y).
  { intros x c y b Hs' Hy Hp. apply single_child_some in Hs'.
    assert (Hin : In y (children_of (bones st) x)).
    { apply children_of_spec. unfold parent_at. now rewrite Hy. }
    rewrite Hs' in Hin. destruct Hin as [Hin|[]]. exact Hin. }
  rewrite (Hpar _ _ HBt) in C'.
  rewrite (Hsame it gt (Some ih) ct lt 0 HBt ltac:(lia)) in C'.
  unfold parent_at in C, C'. rewrite HBt in C, C'. cbn [eb_parent] in C, C'.
  rewrite (Hname _ _ HBh) in C'.
  destruct (single_child (bones st) it) as [c1|] eqn:H1; [|now rewrite C, C'].
  assert (c1 = ish) by (eapply Hchild; [exact H1 | exact HBs | reflexivity]). subst c1.
  rewrite (Hsame ish gs (Some it) cs ls 1 HBs ltac:(lia)) in C'.
  rewrite (Hname _ _ HBs) in C'.
  destruct (single_child (bones st) ish) as [c2|] eqn:H2; [|now rewrite C, C'].
  assert (c2 = ifo) by (eapply Hchild; [exact H2 | exact HBf | reflexivity]). subst c2.
  rewrite (Hsame ifo gf (Some ish) cf lf 2 HBf ltac:(lia)) in C'.
  rewrite (Hname _ _ HBf) in C'.
  destruct (single_child (bones st) ifo) as [c3|] eqn:H3; [|now rewrite C, C'].
  assert (c3 = io) by (eapply Hchild; [exact H3 | exact HBo | reflexivity]). subst c3.
  rewrite (Hname _ _ HBo) in C'.
  now rewrite C, C'.
Qed.

(** ** metarig_template *)

Section Template.

Variable float_literal : string -> scalar.

Lemma run_edit_bones_getitem_new name l news p lg k :
  find_bone name l = None ->
  find_bone name news = Some k ->
  edit_bones_getitem name (mkScene EDIT (l ++ news) p lg) =
  (Ok (length l + k), mkScene EDIT (l ++ news) p lg).
Proof.
  intros Hl Hn. unfold edit_bones_getitem, edit_bones. cbn [mode bones].
  now rewrite (find_bone_app_new _ _ news Hl), Hn.
Qed.

Lemma run_pose_bones_getitem_new name m l news p lg k :
  find_bone name l = None ->
  find_bone name news = Some k ->
  pose_bones_getitem name (mkScene m (l ++ news) p lg) =
  (Ok name, mkScene m (l ++ news) p lg).
Proof.
  intros Hl Hn. unfold pose_bones_getitem, bind, pose_bones_get, gets. cbn [bones].
  now rewrite (find_bone_app_new _ _ news Hl), Hn.
Qed.

Lemma template_names_free_inv st :
  template_names_free st = true ->
  forall x, In x template_names -> find_bone x (bones st) = None.
Proof.
  unfold template_names_free. rewrite forallb_forall. intros H x Hx.
  specialize (H x Hx). now destruct (find_bone x (bones st)).
Qed.

Lemma run_metarig_template_bones m l p lg :
  (forall x, In x template_names -> find_bone x l = None) ->
  metarig_template_bones float_literal (mkScene m (l ++ []) p lg) =
  (Ok "thigh",
   mkScene OBJECT (l ++ template_bones float_literal (length l)) p
           ((lg ++ [EvModeSet EDIT]) ++ [EvModeSet OBJECT])).
Proof.
  intros Hfresh.
  assert (HND : NoDup (@nil string)) by constructor.
  assert (Hin : forall x, In x template_names -> In x template_names) by auto.
  assert (Hout : forall x, In x template_names -> ~ In x (map eb_name l)).
  { intros x Hx Hl. destruct (find_bone_in _ _ Hl) as [i Hi].
    rewrite (Hfresh x Hx) in Hi. discriminate. }
  assert (N1 : "body" = unique_name (map eb_name l ++ []) "body").
  { symmetry. apply unique_name_free. rewrite app_nil_r. apply Hout. cbn; tauto. }
  assert (N2 : "thigh" = unique_name (map eb_name l ++ ["body"]) "thigh").
  { symmetry. apply unique_name_free. rewrite in_app_iff. cbn [In].
    intros [H|[H|[]]]; [revert H; apply Hout; cbn; tauto | discriminate]. }
  assert (N3 : "shin" = unique_name (map eb_name l ++ ["body"; "thigh"]) "shin").
  { symmetry. apply unique_name_free. rewrite in_app_iff. cbn [In].
    intros [H|[H|[H|[]]]]; [revert H; apply Hout; cbn; tauto | discriminate..]. }
  assert (N4 : "foot" = unique_name (map eb_name l ++ ["body"; "thigh"; "shin"]) "foot").
  { symmetry. apply unique_name_free. rewrite in_app_iff. cbn [In].
    intros [H|[H|[H|[H|[]]]]]; [revert H; apply Hout; cbn; tauto | discriminate..]. }
  assert (N5 : "toe" = unique_name (map eb_name l ++ ["body"; "thigh"; "shin"; "foot"]) "toe").
  { symmetry. apply unique_name_free. rewrite in_app_iff. cbn [In].
    intros [H|[H|[H|[H|[H|[]]]]]]; [revert H; apply Hout; cbn; tauto | discriminate..]. }
  unfold metarig_template_bones.
  exec HND.
  eapply bind_step;
    [eapply run_edit_bones_getitem_new; [apply Hfresh; cbn; tauto | reflexivity]
    | cbv beta; cbn].
  exec HND.
  eapply bind_step;
    [eapply run_edit_bones_getitem_new; [apply Hfresh; cbn; tauto | reflexivity]
    | cbv beta; cbn].
  exec HND.
  eapply bind_step;
    [eapply run_edit_bones_getitem_new; [apply Hfresh; cbn; tauto | reflexivity]
    | cbv beta; cbn].
  exec HND.
  eapply bind_step;
    [eapply run_edit_bones_getitem_new; [apply Hfresh; cbn; tauto | reflexivity]
    | cbv beta; cbn].
  exec HND.
  eapply bind_step;
    [eapply run_pose_bones_getitem_new; [apply Hfresh; cbn; tauto | reflexivity]
    | cbv beta; cbn].
  reflexivity.
Qed.

Lemma children_of_beyond l x :
  wf_bones l = true -> length l <= x -> children_of l x = [].
Proof.
  intros Hwf Hx. unfold children_of. apply filter_nil_forall. intros i _.
  destruct (nth_error l i) as [b|] eqn:Hb; [|reflexivity].
  destruct (eb_parent b) as [q|] eqn:Hq; [|reflexivity].
  unfold wf_bones in Hwf. rewrite forallb_forall in Hwf.
  specialize (Hwf b (nth_error_In _ _ Hb)). rewrite Hq in Hwf.
  apply Nat.ltb_lt in Hwf. apply Nat.eqb_neq. lia.
Qed.

Lemma eqb_add_l n a b : Nat.eqb (n + a) (n + b) = Nat.eqb a b.
Proof.
  destruct (Nat.eqb_spec a b) as [->|H]; [apply Nat.eqb_refl|].
  apply Nat.eqb_neq. lia.
Qed.

Lemma template_bones_wf l :
  wf_bones l = true -> wf_bones (l ++ template_bones float_literal (length l)) = true.
Proof.
  intros Hwf. unfold wf_bones in *. rewrite forallb_app. apply andb_true_iff. split.
  - rewrite forallb_forall in *. intros b Hb. specialize (Hwf b Hb).
    destruct (eb_parent b) as [q|]; [|reflexivity].
    apply Nat.ltb_lt in Hwf. apply Nat.ltb_lt. rewrite length_app. lia.
  - rewrite length_app. cbn [template_bones forallb eb_parent length].
    repeat (apply andb_true_iff; split); try reflexivity; apply Nat.ltb_lt; lia.
Qed.

Lemma template_single_child l k :
  wf_bones l = true -> k < 3 ->
  single_child (l ++ template_bones float_literal (length l)) (length l + S k) =
  Some (length l + S (S k)).
Proof.
  intros Hwf Hk. unfold single_child. rewrite children_of_app.
  rewrite (children_of_beyond _ _ Hwf) by lia.
  cbn [template_bones length seq filter nth_error eb_parent app map].
  rewrite !eqb_add_l.
  destruct k as [|[|[|k]]]; [reflexivity | reflexivity | reflexivity | lia].
Qed.

(** X10. On an armature without bones of the names of the template,
    [metarig_template] returns with the rig in object mode and five more
    bones, body, thigh, shin, foot and toe, each the parent of the next; it
    gives the pose bone of the thigh the type "leg_quadruped_generic" and
    leaves every other custom property, every constraint stack and every
    bone it found as they were. *)
Theorem metarig_template_result st props :
  template_names_free st = true ->
  exists st' props',
    metarig_template float_literal st props = (Ok tt, (st', props')) /\
    mode st' = OBJECT /\
    bones st' = bones st ++ template_bones float_literal (length (bones st)) /\
    map eb_name (template_bones float_literal (length (bones st))) = template_names /\
    parent_of st' "body" = Some None /\
    parent_of st' "thigh" = Some (Some "body") /\
    parent_of st' "shin" = Some (Some "thigh") /\
    parent_of st' "foot" = Some (Some "shin") /\
    parent_of st' "toe" = Some (Some "foot") /\
    pose st' = pose st /\
    props' "thigh" "type" = Some "leg_quadruped_generic" /\
    (forall n k, ~ (n = "thigh" /\ k = "type") -> props' n k = props n k).
Proof.
  intros Hfree. pose proof (template_names_free_inv _ Hfree) as Hfresh.
  destruct st as [m l p lg]. cbn [bones] in *.
  pose proof (run_metarig_template_bones m l p lg Hfresh) as Hrun.
  rewrite app_nil_r in Hrun.
  unfold metarig_template. rewrite Hrun.
  do 2 eexists. split; [reflexivity|]. cbn [mode bones pose].
  assert (Hf : forall x, In x template_names -> find_bone x l = None) by exact Hfresh.
  assert (Hp : forall name k b,
             find_bone name l = None ->
             find_bone name (template_bones float_literal (length l)) = Some k ->
             nth_error (template_bones float_literal (length l)) k = Some b ->
             bone_named (mkScene OBJECT (l ++ template_bones float_literal (length l)) p
                                 ((lg ++ [EvModeSet EDIT]) ++ [EvModeSet OBJECT])) name
             = Some b).
  { intros name k b Hl Hk Hb. unfold bone_named. cbn [bones].
    rewrite (find_bone_app_new _ _ _ Hl), Hk. cbn [option_map].
    now rewrite nth_error_app_new. }
  unfold parent_of.
  rewrite (Hp "body" 0 _ (Hf "body" ltac:(cbn; tauto)) eq_refl eq_refl).
  rewrite (Hp "thigh" 1 _ (Hf "thigh" ltac:(cbn; tauto)) eq_refl eq_refl).
  rewrite (Hp "shin" 2 _ (Hf "shin" ltac:(cbn; tauto)) eq_refl eq_refl).
  rewrite (Hp "foot" 3 _ (Hf "foot" ltac:(cbn; tauto)) eq_refl eq_refl).
  rewrite (Hp "toe" 4 _ (Hf "toe" ltac:(cbn; tauto)) eq_refl eq_refl).
  cbn [eb_parent bones]. rewrite !nth_error_app_new.
  repeat split.
  intros n k Hnk. unfold set_id_prop.
  destruct (String.eqb_spec n "thigh") as [->|_]; [|reflexivity].
  destruct (String.eqb_spec k "type") as [->|_]; [tauto | reflexivity].
Qed.

(** X11. The template is a valid metarig: after [metarig_template] on a
    well-formed armature without bones of the names of the template,
    [metarig_definition] for "thigh" returns body, thigh, shin, foot,
    toe. *)
Theorem metarig_template_is_valid_metarig obj st props :
  template_names_free st = true ->
  wf_bones (bones st) = true ->
  exists st' props',
    metarig_template float_literal st props = (Ok tt, (st', props')) /\
    fst (metarig_definition obj "thigh" st') = Ok template_names.
Proof.
  intros Hfree Hwf. pose proof (template_names_free_inv _ Hfree) as Hfresh.
  destruct st as [m l p lg]. cbn [bones] in *.
  pose proof (run_metarig_template_bones m l p lg Hfresh) as Hrun.
  rewrite app_nil_r in Hrun.
  unfold metarig_template. rewrite Hrun.
  do 2 eexists. split; [reflexivity|].
  rewrite (metarig_definition_of_topology obj "thigh" _ (length l + 1)
             (length l + 0) (length l + 2) (length l + 3) (length l + 4)).
  - cbn [bones]. unfold bone_name_at. rewrite !nth_error_app_new. reflexivity.
  - cbn [bones]. now apply template_bones_wf.
  - cbn [bones]. rewrite (find_bone_app_new _ _ _ (Hfresh "thigh" ltac:(cbn; tauto))).
    reflexivity.
  - cbn [bones]. unfold leg_topology, parent_at. rewrite nth_error_app_new.
    cbn [template_bones nth_error eb_parent].
    rewrite (template_single_child l 0 Hwf ltac:(lia)).
    rewrite (template_single_child l 1 Hwf ltac:(lia)).
    rewrite (template_single_child l 2 Hwf ltac:(lia)).
    reflexivity.
Qed.

End Template.

End Free.

End Facts.

(** * The properties on the rig on a line *)

(** ** The names of the host *)

Lemma line_taken_spec taken name : line_taken taken name = true <-> In name taken.
Proof.
  unfold line_taken. rewrite existsb_exists. split.
  - intros (x & Hx & E). apply String.eqb_eq in E. now subst.
  - intros H. exists name. split; [exact H | apply String.eqb_refl].
Qed.

Lemma line_number_value k :
  option_map Nat.of_uint (DecimalString.NilEmpty.uint_of_string (line_number k)) = Some k.
Proof.
  unfold line_number.
  assert (H : option_map Nat.of_uint
                (DecimalString.NilEmpty.uint_of_string
                   (DecimalString.NilEmpty.string_of_uint (Nat.to_uint k))) = Some k)
    by (rewrite DecimalString.NilEmpty.usu; cbn; now rewrite DecimalNat.Unsigned.of_to).
  destruct (String.length _) as [|[|[|n]]]; try exact H.
  - cbn. destruct (DecimalString.NilEmpty.uint_of_string _) as [d|]; [|discriminate]. exact H.
  - cbn. destruct (DecimalString.NilEmpty.uint_of_string _) as [d|]; [|discriminate]. exact H.
Qed.

Lemma append_inj_l (s a b : string) : (s ++ a)%string = (s ++ b)%string -> a = b.
Proof. induction s as [|c s IH]; cbn; [easy|]. intros [= H]. now apply IH. Qed.

Lemma NoDup_map_injective {A B} (f : A -> B) (l : list A) :
  (forall a b, f a = f b -> a = b) -> NoDup l -> NoDup (map f l).
Proof.
  intros Hf. induction 1 as [|x l Hx Hl IH]; cbn; constructor; [|exact IH].
  rewrite in_map_iff. intros (y & E & Hy). apply Hf in E. now subst.
Qed.

Lemma line_candidates_NoDup stem from count : NoDup (line_candidates stem from count).
Proof.
  unfold line_candidates. apply NoDup_map_injective; [|apply seq_NoDup].
  intros a b H. apply append_inj_l in H. apply append_inj_l in H.
  pose proof (line_number_value a) as Ha. rewrite H, line_number_value in Ha. congruence.
Qed.

(** The numbering never runs out: among one more candidates than there are
    names in use, one is free. *)
Lemma line_unique_name_fresh taken name : ~ In (line_unique_name taken name) taken.
Proof.
  unfold line_unique_name. destruct (line_taken taken name) eqn:E.
  - destruct (line_split name) as [stem number].
    destruct (find _ _) as [c|] eqn:F.
    + apply find_some in F. destruct F as [_ F]. apply negb_true_iff in F.
      intros H. apply line_taken_spec in H. congruence.
    + exfalso.
      assert (Hincl : incl (line_candidates stem (S number) (S (length taken))) taken).
      { intros c Hc. apply line_taken_spec.
        pose proof (find_none _ _ F c Hc) as Hn. now apply negb_false_iff in Hn. }
      apply NoDup_incl_length in Hincl; [|apply line_candidates_NoDup].
      unfold line_candidates in Hincl. rewrite length_map, length_seq in Hincl. lia.
  - intros H. apply line_taken_spec in H. congruence.
Qed.

Lemma line_unique_name_free taken name :
  ~ In name taken -> line_unique_name taken name = name.
Proof.
  intros H. unfold line_unique_name.
  destruct (line_taken taken name) eqn:E; [|reflexivity].
  apply line_taken_spec in E. tauto.
Qed.

Definition line_bone_names : BoneNames :=
  Build_BoneNames line_unique_name line_unique_name_fresh.

Definition line_grants_free_names : @GrantsFreeNames line_bone_names :=
  @Build_GrantsFreeNames line_bone_names line_unique_name_free.

Definition line_after_ik : @Scene line_mathutils :=
  snd (@ik line_mathutils line_geometry line_bone_names unit "rig" line_names
         line_base_names tt line_edit_mode).

Definition line_after_ik_again : @Scene line_mathutils :=
  snd (@ik line_mathutils line_geometry line_bone_names unit "rig" line_names
         line_base_names tt line_edit_mode_again).

(** The rig with two legs after [ik] on the left leg, and after [ik] on the
    right leg then. *)
Definition line_after_left : @Scene line_mathutils :=
  snd (@ik line_mathutils line_geometry line_bone_names unit "rig" line_left_leg
         line_leg_base_names tt line_two_legs_edit_mode).

Definition line_after_both : @Scene line_mathutils :=
  snd (@ik line_mathutils line_geometry line_bone_names unit "rig" line_right_leg
         line_leg_base_names tt line_after_left).

Example line_unique_name_numbers :
  line_unique_name ["foot"; "foot.001"; "knee_target"] "toe" = "toe" /\
  line_unique_name ["foot"; "foot.001"; "knee_target"] "knee_target" = "knee_target.001" /\
  line_unique_name ["foot"; "foot.001"; "knee_target"] "foot" = "foot.002" /\
  line_unique_name ["foot"; "foot.001"; "knee_target"] "foot.001" = "foot.002".
Proof. repeat split. Qed.

(** ** Runs *)

Lemma pair_eta {A B} (x : A * B) (a : A) : fst x = a -> x = (a, snd x).
Proof. destruct x. cbn. now intros ->. Qed.

Example line_metarig_definition :
  fst (@metarig_definition line_mathutils "rig" "ORG-thigh" line_object_mode) = Ok line_names.
Proof. reflexivity. Qed.

Example line_ik_returns :
  fst (@ik line_mathutils line_geometry line_bone_names unit "rig" line_names line_base_names tt
         line_edit_mode)
  = Ok [None; Some "thigh"; Some "shin"; Some "foot_ik"; Some "toe"].
Proof. reflexivity. Qed.

Example line_ik_object_mode :
  fst (@ik line_mathutils line_geometry line_bone_names unit "rig" line_names line_base_names tt
         line_object_mode)
  = Raise (KeyError "ORG-thigh").
Proof. reflexivity. Qed.

(** On the line, lengths are exact. *)
Lemma line_exact_lengths : @exact_lengths line_mathutils line_geometry.
Proof.
  unfold exact_lengths. cbn.
  repeat split.
  - intros [oh ot r1] [gh gt r2]. cbn. nia.
  - intros [oh ot r1] [gh gt r2]. cbn. nia.
  - intros [oh ot r1] [gh gt r2]. cbn. intros H.
    assert (0 <= Z.abs (ot - oh) / 2)%Z by (apply Z.div_pos; lia).
    nia.
  - intros [gh gt r2]. cbn. nia.
  - intros [gh gt r2]. cbn. lia.
Qed.

(** The names the host gives when a knee target and a "foot_ik" are there
    already. *)
Example line_granted_again :
  @ik_granted line_bone_names (map (@eb_name line_mathutils) line_rig_again)
    "thigh" "shin" "foot" "toe"
  = mkIkNames "thigh" "shin" "foot_ik.001" "toe" "knee_target.001" "foot_roll" "MCH-foot"
              "foot_ik_target" "MCH-foot_02".
Proof. reflexivity. Qed.

Example line_ik_again_returns :
  fst (@ik line_mathutils line_geometry line_bone_names unit "rig" line_names
         line_base_names tt line_edit_mode_again)
  = Ok [None; Some "thigh"; Some "shin"; Some "foot_ik.001"; Some "toe"].
Proof. vm_compute. reflexivity. Qed.

Example line_ik_again_not_ready :
  @ik_valid line_mathutils line_edit_mode_again line_names line_base_names = true /\
  @ik_ready line_mathutils line_edit_mode_again line_names line_base_names = false.
Proof. split; reflexivity. Qed.


(** On the line the foot IK target is 9 long and the IK foot 18. *)
Example line_foot_target_length :
  geom_of line_after_ik_again "foot_ik.001" = Some (line_geom 96 114 0) /\
  geom_of line_after_ik_again "foot_ik_target" = Some (line_geom 96 105 0) /\
  @bone_length line_mathutils line_geometry (line_geom 96 105 0) =
  fdiv (@bone_length line_mathutils line_geometry (line_geom 96 114 0)) (float_of_Z 2).
Proof. repeat split; vm_compute; reflexivity. Qed.

Lemma ik_parenting_witness :
  @ik_valid line_mathutils line_edit_mode_again line_names line_base_names = true /\
  exists names foot_copy in_use st',
    names = @ik_granted line_bone_names
              (map (@eb_name line_mathutils) (bones line_edit_mode_again))
              "thigh" "shin" "foot" "toe" /\
    foot_copy = @ik_foot_copy line_bone_names
                  (map (@eb_name line_mathutils) (bones line_edit_mode_again))
                  "thigh" "shin" "foot" /\
    in_use = (map (@eb_name line_mathutils) (bones line_edit_mode_again)
              ++ [nm_thigh names; nm_shin names; foot_copy; nm_toe names])%list /\
    @ik line_mathutils line_geometry line_bone_names unit "rig" line_names line_base_names
      tt line_edit_mode_again =
    (Ok [None; Some (nm_thigh names); Some (nm_shin names); Some (nm_foot names);
         Some (nm_toe names)], st') /\
    parent_of st' (nm_thigh names) = Some (Some "ORG-body") /\
    connected_of st' (nm_thigh names) = Some false /\
    nm_foot names = @unique_name line_bone_names in_use (foot_copy ++ "_ik") /\
    (forall GF : @GrantsFreeNames line_bone_names,
       ~ In (foot_copy ++ "_ik")%string in_use ->
       nm_foot names = (foot_copy ++ "_ik")%string) /\
    (In (foot_copy ++ "_ik")%string in_use ->
     nm_foot names <> (foot_copy ++ "_ik")%string) /\
    parent_of st' (nm_foot names) = Some None /\
    parent_of st' (nm_toe names) = Some (Some (nm_foot names)) /\
    connected_of st' (nm_toe names) = Some false /\
    parent_of st' (nm_knee_target names) = Some (Some "ORG-body") /\
    parent_of st' (nm_foot_roll names) = Some (Some (nm_foot names)) /\
    parent_of st' (nm_foot_roll_01 names) = Some (Some (nm_foot names)) /\
    parent_of st' (nm_foot_target names) = Some (Some (nm_foot_roll_01 names)) /\
    connected_of st' (nm_foot_target names) = Some true /\
    parent_of st' (nm_foot_roll_02 names) = Some (Some (nm_foot_roll_01 names)).
Proof.
  split; [reflexivity|].
  exact (@ik_parenting line_mathutils line_geometry line_bone_names unit "rig" tt
           line_edit_mode_again line_names line_base_names
           "ORG-body" "ORG-thigh" "ORG-shin" "ORG-foot" "ORG-toe"
           "thigh" "shin" "foot" "toe"
           eq_refl eq_refl eq_refl eq_refl eq_refl eq_refl).
Defined.

Lemma not_suffix_ik (copied : string) : "foot_ik.001" <> (copied ++ "_ik")%string.
Proof.
  intros H.
  repeat (destruct copied as [|? copied]; [discriminate H|]; cbn in H;
          first [discriminate H | injection H as _ H]).
Qed.

(** On a rig that has a bone "foot_ik" already, the copy of the foot is
    named "foot" and the IK foot, which [ik] returns fourth and leaves
    without parent, is not named "foot_ik": the host gives it the name
    "foot_ik.001", which is no name with "_ik" appended. *)
Lemma ik_parenting_counterexample :
  @ik_valid line_mathutils line_edit_mode_again line_names line_base_names = true /\
  @ik line_mathutils line_geometry line_bone_names unit "rig" line_names line_base_names
    tt line_edit_mode_again =
  (Ok [None; Some "thigh"; Some "shin"; Some "foot_ik.001"; Some "toe"],
   line_after_ik_again) /\
  @ik_foot_copy line_bone_names
    (map (@eb_name line_mathutils) (bones line_edit_mode_again)) "thigh" "shin" "foot"
  = "foot" /\
  parent_of line_after_ik_again "foot_ik.001" = Some None /\
  bone_named line_after_ik_again "foot_ik" = bone_named line_edit_mode_again "foot_ik" /\
  "foot_ik.001" <> ("foot" ++ "_ik")%string /\
  forall copied : string, "foot_ik.001" <> (copied ++ "_ik")%string.
Proof.
  split; [reflexivity|].
  split; [exact (pair_eta _ _ line_ik_again_returns)|].
  split; [reflexivity|].
  split; [vm_compute; reflexivity|].
  split; [vm_compute; reflexivity|].
  split; [discriminate | exact not_suffix_ik].
Qed.

Lemma ik_copy_rotation_constraints_witness :
  @ik_valid line_mathutils line_edit_mode_again line_names line_base_names = true /\
  exists names st' c_thigh c_shin c_foot c_toe c_mch,
    names = @ik_granted line_bone_names
              (map (@eb_name line_mathutils) (bones line_edit_mode_again))
              "thigh" "shin" "foot" "toe" /\
    @ik line_mathutils line_geometry line_bone_names unit "rig" line_names line_base_names
      tt line_edit_mode_again =
    (Ok [None; Some (nm_thigh names); Some (nm_shin names); Some (nm_foot names);
         Some (nm_toe names)], st') /\
    adds_constraint line_edit_mode_again st' "ORG-thigh" c_thigh /\
    is_copy_rotation "rig" (nm_thigh names) c_thigh /\
    adds_constraint line_edit_mode_again st' "ORG-shin" c_shin /\
    is_copy_rotation "rig" (nm_shin names) c_shin /\
    adds_constraint line_edit_mode_again st' "ORG-foot" c_foot /\
    is_copy_rotation "rig" (nm_foot_roll_02 names) c_foot /\
    adds_constraint line_edit_mode_again st' "ORG-toe" c_toe /\
    is_copy_rotation "rig" (nm_toe names) c_toe /\
    adds_constraint line_edit_mode_again st' (nm_foot_roll_01 names) c_mch /\
    is_copy_rotation "rig" (nm_foot_roll names) c_mch /\
    (forall sub, In sub [nm_thigh names; nm_shin names; nm_foot_roll_02 names;
                         nm_toe names; nm_foot_roll names] ->
                 bone_named st' sub <> None).
Proof.
  split; [reflexivity|].
  exact (@ik_copy_rotation_constraints line_mathutils line_geometry line_bone_names unit
           "rig" tt line_edit_mode_again line_names line_base_names
           "ORG-body" "ORG-thigh" "ORG-shin" "ORG-foot" "ORG-toe"
           "thigh" "shin" "foot" "toe"
           eq_refl eq_refl eq_refl eq_refl eq_refl eq_refl).
Defined.

Lemma ik_ik_constraint_witness :
  @ik_valid line_mathutils line_edit_mode_again line_names line_base_names = true /\
  exists names st' c,
    names = @ik_granted line_bone_names
              (map (@eb_name line_mathutils) (bones line_edit_mode_again))
              "thigh" "shin" "foot" "toe" /\
    @ik line_mathutils line_geometry line_bone_names unit "rig" line_names line_base_names
      tt line_edit_mode_again =
    (Ok [None; Some (nm_thigh names); Some (nm_shin names); Some (nm_foot names);
         Some (nm_toe names)], st') /\
    adds_constraint line_edit_mode_again st' (nm_shin names) c /\
    con_type c = IK /\
    chain_length (con_props c) = 2%Z /\
    iterations (con_props c) = 500%Z /\
    pole_angle (con_props c) = (-90)%Z /\
    use_tail (con_props c) = true /\
    use_stretch (con_props c) = true /\
    use_target (con_props c) = true /\
    use_rotation (con_props c) = false /\
    weight (con_props c) = 1%Z /\
    target (con_props c) = Some "rig" /\
    subtarget (con_props c) = nm_foot_target names /\
    pole_target (con_props c) = Some "rig" /\
    pole_subtarget (con_props c) = nm_knee_target names /\
    parent_of st' (nm_foot_target names) = Some (Some (nm_foot_roll_01 names)) /\
    parent_of st' (nm_knee_target names) = Some (Some "ORG-body").
Proof.
  split; [reflexivity|].
  exact (@ik_ik_constraint line_mathutils line_geometry line_bone_names unit
           "rig" tt line_edit_mode_again line_names line_base_names
           "ORG-body" "ORG-thigh" "ORG-shin" "ORG-foot" "ORG-toe"
           "thigh" "shin" "foot" "toe"
           eq_refl eq_refl eq_refl eq_refl eq_refl eq_refl).
Defined.

(** The pole of the second IK constraint is the knee target made in the
    same call, not the one that was there. *)
Example line_ik_again_pole :
  pose line_after_ik_again "shin" =
  [@ik_constraint line_mathutils line_geometry "rig" "foot_ik_target" "knee_target.001"].
Proof. vm_compute. reflexivity. Qed.

Lemma ik_preserves_metarig_witness :
  @ik_valid line_mathutils line_edit_mode_again line_names line_base_names = true /\
  exists r st' news,
    @ik line_mathutils line_geometry line_bone_names unit "rig" line_names line_base_names
      tt line_edit_mode_again = (Ok r, st') /\
    bones st' = bones line_edit_mode_again ++ news /\ length news = 9 /\
    (forall x, In x line_names ->
       exists b, bone_named line_edit_mode_again x = Some b /\ bone_named st' x = Some b /\
                 geom_of st' x = Some (eb_geom b)) /\
    pose st' "ORG-body" = pose line_edit_mode_again "ORG-body" /\
    (forall x, In x ["ORG-thigh"; "ORG-shin"; "ORG-foot"; "ORG-toe"] ->
       exists c, adds_constraint line_edit_mode_again st' x c /\ con_type c = COPY_ROTATION).
Proof.
  split; [reflexivity|].
  exact (@ik_preserves_metarig line_mathutils line_geometry line_bone_names unit "rig" tt
           line_edit_mode_again line_names line_base_names
           "ORG-body" "ORG-thigh" "ORG-shin" "ORG-foot" "ORG-toe" eq_refl eq_refl).
Defined.

Lemma metarig_definition_raises_iff_witness :
  wf_bones (bones line_object_mode) = true /\
  find_bone "ORG-shin" (bones line_object_mode) = Some 2 /\
  ((exists msg, fst (@metarig_definition line_mathutils "rig" "ORG-shin" line_object_mode)
                = Raise (RigifyError msg)) <->
   leg_topology (bones line_object_mode) 2 = None).
Proof.
  split; [reflexivity|]. split; [reflexivity|].
  exact (@metarig_definition_raises_iff line_mathutils "rig" "ORG-shin" line_object_mode 2 eq_refl eq_refl).
Defined.

Lemma metarig_definition_returns_witness :
  wf_bones (bones line_object_mode) = true /\
  find_bone "ORG-thigh" (bones line_object_mode) = Some 1 /\
  leg_topology (bones line_object_mode) 1 = Some (0, 2, 3, 4) /\
  fst (@metarig_definition line_mathutils "rig" "ORG-thigh" line_object_mode) =
  Ok [bone_name_at (bones line_object_mode) 0; "ORG-thigh";
      bone_name_at (bones line_object_mode) 2; bone_name_at (bones line_object_mode) 3;
      bone_name_at (bones line_object_mode) 4].
Proof.
  split; [reflexivity|]. split; [reflexivity|]. split; [reflexivity|].
  exact (@metarig_definition_returns line_mathutils "rig" "ORG-thigh" line_object_mode
           1 0 2 3 4 eq_refl eq_refl eq_refl).
Defined.

Lemma ik_mode_discipline_witness :
  @ik line_mathutils line_geometry line_bone_names unit "rig" line_names line_base_names tt line_edit_mode
  = (Ok [None; Some "thigh"; Some "shin"; Some "foot_ik"; Some "toe"], line_after_ik) /\
  mode line_after_ik = EDIT /\
  exists before constraints,
    log line_after_ik =
    log line_edit_mode ++ before ++ [EvModeSet OBJECT] ++ constraints ++ [EvModeSet EDIT] /\
    existsb (is_mode_set OBJECT) before = false /\
    existsb is_constraint_new before = false /\
    forallb is_constraint_new constraints = true.
Proof.
  assert (H1 :
    fst (@ik line_mathutils line_geometry line_bone_names unit "rig" line_names line_base_names tt
           line_edit_mode)
    = Ok [None; Some "thigh"; Some "shin"; Some "foot_ik"; Some "toe"])
    by (vm_compute; reflexivity).
  assert (Hrun :
    @ik line_mathutils line_geometry line_bone_names unit "rig" line_names line_base_names tt line_edit_mode
    = (Ok [None; Some "thigh"; Some "shin"; Some "foot_ik"; Some "toe"], line_after_ik))
    by exact (pair_eta _ _ H1).
  split; [exact Hrun|].
  exact (@ik_mode_discipline line_mathutils line_geometry line_bone_names unit "rig" line_names
           line_base_names tt line_edit_mode
           [None; Some "thigh"; Some "shin"; Some "foot_ik"; Some "toe"] line_after_ik
           Hrun).
Defined.

Lemma metarig_definition_missing_bone_witness :
  find_bone "ORG-heel" (bones line_object_mode) = None /\
  @metarig_definition line_mathutils "rig" "ORG-heel" line_object_mode =
  (Raise (KeyError "ORG-heel"), line_object_mode).
Proof.
  split; [reflexivity|].
  exact (@metarig_definition_missing_bone line_mathutils "rig" "ORG-heel"
           line_object_mode eq_refl).
Defined.

Lemma metarig_definition_error_message_witness :
  wf_bones (bones line_object_mode) = true /\
  find_bone "ORG-foot" (bones line_object_mode) = Some 3 /\
  leg_topology (bones line_object_mode) 3 = None /\
  @metarig_definition line_mathutils "rig" "ORG-foot" line_object_mode =
  (Raise (RigifyError
            match parent_at (bones line_object_mode) 3 with
            | None => "expected the thigh bone to have a parent hip bone"
            | Some _ => "expected the thigh bone to have 3 children without a fork"
            end), line_object_mode).
Proof.
  split; [reflexivity|]. split; [reflexivity|]. split; [reflexivity|].
  exact (@metarig_definition_error_message line_mathutils "rig" "ORG-foot"
           line_object_mode 3 eq_refl eq_refl eq_refl).
Defined.

Lemma metarig_definition_sound_witness :
  @metarig_definition line_mathutils "rig" "ORG-thigh" line_object_mode =
  (Ok line_names, line_object_mode) /\
  line_object_mode = line_object_mode /\
  exists h hips shin foot toe,
    find_bone "ORG-thigh" (bones line_object_mode) = Some h /\
    leg_topology (bones line_object_mode) h = Some (hips, shin, foot, toe) /\
    parent_at (bones line_object_mode) h = Some hips /\
    nth_error (bones line_object_mode) hips <> None /\
    parent_at (bones line_object_mode) shin = Some h /\
    parent_at (bones line_object_mode) foot = Some shin /\
    parent_at (bones line_object_mode) toe = Some foot /\
    line_names =
    [bone_name_at (bones line_object_mode) hips; "ORG-thigh";
     bone_name_at (bones line_object_mode) shin;
     bone_name_at (bones line_object_mode) foot;
     bone_name_at (bones line_object_mode) toe].
Proof.
  split; [reflexivity|].
  exact (@metarig_definition_sound line_mathutils "rig" "ORG-thigh" line_object_mode
           line_names line_object_mode eq_refl).
Defined.

Lemma main_returns_names_witness :
  @ik_ready line_mathutils line_edit_mode line_names line_base_names = true /\
  lookup_base line_base_names "ORG-thigh" = Some "thigh" /\
  lookup_base line_base_names "ORG-shin" = Some "shin" /\
  lookup_base line_base_names "ORG-foot" = Some "foot" /\
  lookup_base line_base_names "ORG-toe" = Some "toe" /\
  fst (@main line_mathutils line_geometry line_bone_names unit "rig" line_names line_base_names tt
         line_edit_mode) =
  Ok [None; Some "thigh"; Some "shin"; Some ("foot" ++ "_ik")%string; Some "toe"].
Proof.
  split; [reflexivity|]. split; [reflexivity|]. split; [reflexivity|].
  split; [reflexivity|]. split; [reflexivity|].
  exact (@main_returns_names line_mathutils line_geometry line_bone_names
           line_grants_free_names unit "rig" tt line_edit_mode
           line_names line_base_names "ORG-body" "ORG-thigh" "ORG-shin" "ORG-foot"
           "ORG-toe" "thigh" "shin" "foot" "toe"
           eq_refl eq_refl eq_refl eq_refl eq_refl eq_refl).
Defined.

Lemma ik_chain_geometry_witness :
  @ik_ready line_mathutils line_edit_mode line_names line_base_names = true /\
  geom_of line_edit_mode "ORG-thigh" = Some (line_geom 24 64 0) /\
  geom_of line_edit_mode "ORG-shin" = Some (line_geom 64 96 0) /\
  geom_of line_edit_mode "ORG-foot" = Some (line_geom 96 114 0) /\
  geom_of line_edit_mode "ORG-toe" = Some (line_geom 114 122 0) /\
  exists r st',
    @ik line_mathutils line_geometry line_bone_names unit "rig" line_names line_base_names tt
      line_edit_mode = (Ok r, st') /\
    geom_of st' "thigh" = Some (line_geom 24 64 0) /\
    geom_of st' "shin" = Some (line_geom 64 96 0) /\
    geom_of st' "toe" = Some (line_geom 114 122 0) /\
    geom_of st' ("foot" ++ "_ik") =
    Some (@align_orientation line_mathutils line_geometry
            (line_geom 114 122 0) (line_geom 96 114 0)) /\
    geom_of st' ("MCH-" ++ "foot" ++ "_02") = Some (line_geom 96 114 0) /\
    parent_of st' "shin" = Some (Some "thigh") /\
    connected_of st' "shin" = connected_of line_edit_mode "ORG-shin".
Proof.
  split; [reflexivity|]. split; [reflexivity|]. split; [reflexivity|].
  split; [reflexivity|]. split; [reflexivity|].
  exact (@ik_chain_geometry line_mathutils line_geometry line_bone_names
           line_grants_free_names unit "rig" tt line_edit_mode
           line_names line_base_names "ORG-body" "ORG-thigh" "ORG-shin" "ORG-foot"
           "ORG-toe" "thigh" "shin" "foot" "toe"
           (line_geom 24 64 0) (line_geom 64 96 0) (line_geom 96 114 0)
           (line_geom 114 122 0)
           eq_refl eq_refl eq_refl eq_refl eq_refl eq_refl
           eq_refl eq_refl eq_refl eq_refl).
Defined.

Lemma ik_other_pose_bones_witness :
  @ik_ready line_mathutils line_edit_mode line_names line_base_names = true /\
  lookup_base line_base_names "ORG-shin" = Some "shin" /\
  lookup_base line_base_names "ORG-foot" = Some "foot" /\
  exists r st',
    @ik line_mathutils line_geometry line_bone_names unit "rig" line_names line_base_names tt
      line_edit_mode = (Ok r, st') /\
    forall n,
      ~ In n ["ORG-thigh"; "ORG-shin"; "ORG-foot"; "ORG-toe"; ("MCH-" ++ "foot")%string;
              "shin"] ->
      pose st' n = pose line_edit_mode n.
Proof.
  split; [reflexivity|]. split; [reflexivity|]. split; [reflexivity|].
  exact (@ik_other_pose_bones line_mathutils line_geometry line_bone_names
           line_grants_free_names unit "rig" tt line_edit_mode
           line_names line_base_names "ORG-body" "ORG-thigh" "ORG-shin" "ORG-foot"
           "ORG-toe" "shin" "foot" eq_refl eq_refl eq_refl eq_refl).
Defined.

Lemma ik_keeps_armature_well_formed_witness :
  @ik_ready line_mathutils line_edit_mode line_names line_base_names = true /\
  wf_bones (bones line_edit_mode) = true /\
  exists r st',
    @ik line_mathutils line_geometry line_bone_names unit "rig" line_names line_base_names tt
      line_edit_mode = (Ok r, st') /\
    map eb_name (bones st') =
    map eb_name (bones line_edit_mode) ++ ik_bone_names "thigh" "shin" "foot" "toe" /\
    NoDup (map eb_name (bones st')) /\
    wf_bones (bones st') = true.
Proof.
  split; [reflexivity|]. split; [reflexivity|].
  exact (@ik_keeps_armature_well_formed line_mathutils line_geometry line_bone_names
           line_grants_free_names unit "rig" tt
           line_edit_mode line_names line_base_names "ORG-body" "ORG-thigh" "ORG-shin"
           "ORG-foot" "ORG-toe" "thigh" "shin" "foot" "toe"
           eq_refl eq_refl eq_refl eq_refl eq_refl eq_refl eq_refl).
Defined.

Lemma metarig_definition_feeds_ik_witness :
  @metarig_definition line_mathutils "rig" "ORG-thigh" line_object_mode =
  (Ok line_names, line_object_mode) /\
  distinct line_names = true /\
  names_free line_object_mode line_names line_base_names = true /\
  ik_ready (in_edit_mode line_object_mode) line_names line_base_names = true /\
  exists r st'',
    @ik line_mathutils line_geometry line_bone_names unit "rig" line_names line_base_names tt
      (in_edit_mode line_object_mode) = (Ok r, st'').
Proof.
  split; [reflexivity|]. split; [reflexivity|]. split; [reflexivity|].
  exact (@metarig_definition_feeds_ik line_mathutils line_geometry line_bone_names
           line_grants_free_names unit "rig" tt
           "ORG-thigh" line_object_mode line_names line_object_mode line_base_names
           eq_refl eq_refl eq_refl).
Defined.

Lemma ik_keeps_metarig_valid_witness :
  @ik_ready line_mathutils line_edit_mode line_names line_base_names = true /\
  wf_bones (bones line_edit_mode) = true /\
  exists r st',
    @ik line_mathutils line_geometry line_bone_names unit "rig" line_names line_base_names tt
      line_edit_mode = (Ok r, st') /\
    fst (metarig_definition "rig" "ORG-thigh" st') =
    fst (metarig_definition "rig" "ORG-thigh" line_edit_mode).
Proof.
  split; [reflexivity|]. split; [reflexivity|].
  exact (@ik_keeps_metarig_valid line_mathutils line_geometry line_bone_names
           line_grants_free_names unit "rig" tt
           line_edit_mode line_names line_base_names "ORG-body" "ORG-thigh" "ORG-shin"
           "ORG-foot" "ORG-toe" eq_refl eq_refl eq_refl).
Defined.

Lemma metarig_template_result_witness :
  template_names_free line_object_mode = true /\
  exists st' props',
    @metarig_template line_mathutils line_geometry line_bone_names line_literal line_object_mode
      line_no_props = (Ok tt, (st', props')) /\
    mode st' = OBJECT /\
    bones st' =
    bones line_object_mode ++
    @template_bones line_mathutils line_geometry line_literal
      (length (bones line_object_mode)) /\
    map eb_name (@template_bones line_mathutils line_geometry line_literal
                   (length (bones line_object_mode))) = template_names /\
    parent_of st' "body" = Some None /\
    parent_of st' "thigh" = Some (Some "body") /\
    parent_of st' "shin" = Some (Some "thigh") /\
    parent_of st' "foot" = Some (Some "shin") /\
    parent_of st' "toe" = Some (Some "foot") /\
    pose st' = pose line_object_mode /\
    props' "thigh" "type" = Some "leg_quadruped_generic" /\
    (forall n k, ~ (n = "thigh" /\ k = "type") -> props' n k = line_no_props n k).
Proof.
  split; [reflexivity|].
  exact (@metarig_template_result line_mathutils line_geometry line_bone_names
           line_grants_free_names line_literal
           line_object_mode line_no_props eq_refl).
Defined.

Lemma metarig_template_is_valid_metarig_witness :
  template_names_free line_object_mode = true /\
  wf_bones (bones line_object_mode) = true /\
  exists st' props',
    @metarig_template line_mathutils line_geometry line_bone_names line_literal line_object_mode
      line_no_props = (Ok tt, (st', props')) /\
    fst (metarig_definition "rig" "thigh" st') = Ok template_names.
Proof.
  split; [reflexivity|]. split; [reflexivity|].
  exact (@metarig_template_is_valid_metarig line_mathutils line_geometry line_bone_names
           line_grants_free_names line_literal
           "rig" line_object_mode line_no_props eq_refl eq_refl).
Defined.

Lemma metarig_definition_gives_valid_chain_witness :
  @metarig_definition line_mathutils "rig" "ORG-thigh" line_object_mode =
  (Ok line_names, line_object_mode) /\
  distinct line_names = true /\
  distinct (map (@eb_name line_mathutils) (bones line_object_mode)) = true /\
  (forall x, In x (tl line_names) -> lookup_base line_base_names x <> None) /\
  ik_valid (in_edit_mode line_object_mode) line_names line_base_names = true /\
  exists r st'',
    @ik line_mathutils line_geometry line_bone_names unit "rig" line_names line_base_names
      tt (in_edit_mode line_object_mode) = (Ok r, st'').
Proof.
  assert (Hbase : forall x, In x (tl line_names) -> lookup_base line_base_names x <> None).
  { intros x Hx. cbn in Hx. destruct Hx as [<-|[<-|[<-|[<-|[]]]]]; discriminate. }
  split; [reflexivity|]. split; [reflexivity|]. split; [reflexivity|].
  split; [exact Hbase|].
  exact (@metarig_definition_gives_valid_chain line_mathutils line_geometry line_bone_names
           unit "rig" tt "ORG-thigh" line_object_mode line_names line_object_mode
           line_base_names eq_refl eq_refl eq_refl Hbase).
Defined.

Lemma ik_keeps_valid_chains_witness :
  @ik_valid line_mathutils line_two_legs_edit_mode line_left_leg line_leg_base_names = true /\
  @ik_valid line_mathutils line_two_legs_edit_mode line_right_leg line_leg_base_names = true /\
  exists r st',
    @ik line_mathutils line_geometry line_bone_names unit "rig" line_left_leg
      line_leg_base_names tt line_two_legs_edit_mode = (Ok r, st') /\
    ik_valid st' line_right_leg line_leg_base_names = true /\
    exists r2 st2,
      @ik line_mathutils line_geometry line_bone_names unit "rig" line_right_leg
        line_leg_base_names tt st' = (Ok r2, st2).
Proof.
  split; [reflexivity|]. split; [reflexivity|].
  exact (@ik_keeps_valid_chains line_mathutils line_geometry line_bone_names unit "rig" tt
           line_two_legs_edit_mode line_left_leg line_leg_base_names
           line_right_leg line_leg_base_names eq_refl eq_refl).
Defined.

(** The two legs one after the other: the right leg gets a knee target of
    its own, a child of the body, and it is the pole of the IK constraint of
    the right leg; the knee target of the left leg stays as it was. *)
Example line_two_legs_runs :
  fst (@ik line_mathutils line_geometry line_bone_names unit "rig" line_left_leg
         line_leg_base_names tt line_two_legs_edit_mode)
  = Ok [None; Some "thigh.L"; Some "shin.L"; Some "foot.L_ik"; Some "toe.L"] /\
  fst (@ik line_mathutils line_geometry line_bone_names unit "rig" line_right_leg
         line_leg_base_names tt line_after_left)
  = Ok [None; Some "thigh.R"; Some "shin.R"; Some "foot.R_ik"; Some "toe.R"] /\
  ik_ready line_after_left line_right_leg line_leg_base_names = false /\
  parent_of line_after_both "knee_target" = Some (Some "ORG-body") /\
  parent_of line_after_both "knee_target.001" = Some (Some "ORG-body") /\
  pose line_after_both "shin.L" =
  [@ik_constraint line_mathutils line_geometry "rig" "foot.L_ik_target" "knee_target"] /\
  pose line_after_both "shin.R" =
  [@ik_constraint line_mathutils line_geometry "rig" "foot.R_ik_target" "knee_target.001"].
Proof. repeat split; vm_compute; reflexivity. Qed.

(** The same leg generated twice: the second call gets numbered names. *)
Example line_ik_twice :
  fst (@ik line_mathutils line_geometry line_bone_names unit "rig" line_names
         line_base_names tt line_after_ik)
  = Ok [None; Some "thigh.001"; Some "shin.001"; Some "foot_ik.001"; Some "toe.001"].
Proof. vm_compute. reflexivity. Qed.
